(** * TruckScout24 scraper: a shallow embedding of [scraper.py]

    The development follows the layout of the Python class
    [TruckScout24Scraper]:

    - [Py]       the Python built-ins the class calls ([str.strip],
                 [str.splitlines], [str.split], [str.replace], [int], [str],
                 [re.search]);
    - [Json]     the result document, [json.dump] with [ensure_ascii=False],
                 the UTF-8 text layer of the output file, and a reader for
                 the written file, over all of Unicode;
    - [Scraper]  the methods of the class, over an interface for the HTML
                 library and an oracle for the network;
    - [Dom]      a small document tree implementing the interface, used to
                 run the methods on concrete pages.

    Conventions.  The text of a page, and every [str] the methods compute
    from it, is a [string] whose characters are the code points below 256;
    a code point from 256 on that is no decimal digit, no whitespace and no
    line boundary is treated by every function of [Py] as the characters of
    that kind below 256 are.  The texts of the result document and of the
    output file are lists of code points up to [0x10FFFF]
    ([Json.ustring]); a page text enters the document through
    [Json.unicode].  A Python [int] is a [Z]; the
    interpreter's optional limit on the number of digits of an [int]/[str]
    conversion is taken as switched off.  A raised exception is the result
    [Raise e]; nothing in the class catches one. *)

From Stdlib Require Import ZArith List String Ascii Bool Arith Lia.
From Stdlib Require Import Decimal DecimalString.
From Stdlib Require DecimalPos DecimalFacts.
Import ListNotations.

Local Open Scope string_scope.
Local Open Scope list_scope.

(* ===================================================================== *)
(** * Python built-ins *)
(* ===================================================================== *)

Module Py.

(** Exceptions that can escape from the methods of the class. *)
Inductive exn : Type :=
| AttributeError      (* attribute access on [None] *)
| ValueError          (* [int] on a malformed literal *)
| RequestException    (* [requests.get] could not complete *)
| URLError            (* [urllib.request.urlretrieve] could not complete: the
                         URL was not fetched, or the file not created *)
| IndexError          (* list index out of range *)
| UnicodeEncodeError. (* a character that the encoding of a file cannot carry *)

Inductive result (A : Type) : Type :=
| Ok (a : A)
| Raise (e : exn).
Arguments Ok {A} a.
Arguments Raise {A} e.

(** ** Character classes *)

Definition code (c : ascii) : nat := nat_of_ascii c.

(** [str.isspace] on one character (code points below 256). *)
Definition isspace (c : ascii) : bool :=
  let n := code c in
  (((9 <=? n) && (n <=? 13)) || ((28 <=? n) && (n <=? 32))
   || (n =? 133) || (n =? 160))%nat.

(** Decimal digits: [\d] of [re], and the digits [int] accepts. *)
Definition isdigit (c : ascii) : bool :=
  let n := code c in ((48 <=? n) && (n <=? 57))%nat.

Fixpoint has_digit (s : string) : bool :=
  match s with
  | "" => false
  | String c r => isdigit c || has_digit r
  end.

(** Line boundaries of [str.splitlines]. *)
Definition is_linebreak (c : ascii) : bool :=
  let n := code c in
  (((10 <=? n) && (n <=? 13)) || ((28 <=? n) && (n <=? 30)) || (n =? 133))%nat.

Definition LF : ascii := ascii_of_nat 10.
Definition CR : ascii := ascii_of_nat 13.
Definition nl : string := String LF "".

(** ** [str] methods *)

Fixpoint lstrip (s : string) : string :=
  match s with
  | "" => ""
  | String c r => if isspace c then lstrip r else s
  end.

Fixpoint rstrip (s : string) : string :=
  match s with
  | "" => ""
  | String c r =>
      let r' := rstrip r in
      if isspace c && (r' =? "") then "" else String c r'
  end.

(** [s.strip()] *)
Definition strip (s : string) : string := rstrip (lstrip s).

(** [s.splitlines()] *)
Fixpoint splitlines (s : string) : list string :=
  match s with
  | "" => []
  | String c r =>
      if is_linebreak c then
        "" :: match r with
              | String c' r' =>
                  if Ascii.eqb c CR && Ascii.eqb c' LF
                  then splitlines r' else splitlines r
              | "" => []
              end
      else
        match splitlines r with
        | [] => [String c ""]
        | l :: ls => String c l :: ls
        end
  end.

(** [sep.join(l)] *)
Fixpoint join (sep : string) (l : list string) : string :=
  match l with
  | [] => ""
  | [x] => x
  | x :: xs => x ++ sep ++ join sep xs
  end.

(** [s.split(sep)] for a one-character separator; the list is never
    empty. *)
Fixpoint split (sep : ascii) (s : string) : list string :=
  match s with
  | "" => [""]
  | String c r =>
      if Ascii.eqb c sep then "" :: split sep r
      else match split sep r with
           | [] => [String c ""]
           | l :: ls => String c l :: ls
           end
  end.

(** [s.replace(old, new)] for one-character [old] and [new]. *)
Fixpoint replace (old new : ascii) (s : string) : string :=
  match s with
  | "" => ""
  | String c r => String (if Ascii.eqb c old then new else c) (replace old new r)
  end.

(** ** [str(n)] and [int(s)] *)

(** [str(n)], also what an f-string field [{n}] renders. *)
Definition str (n : Z) : string := NilZero.string_of_int (Z.to_int n).

(** The digits of an [int] literal with its grouping underscores removed:
    an underscore is accepted only between two digits. *)
Fixpoint strip_underscores (after_digit : bool) (s : string) : option string :=
  match s with
  | "" => if after_digit then Some "" else None
  | String c r =>
      if isdigit c then option_map (String c) (strip_underscores true r)
      else if Ascii.eqb c "_" && after_digit then strip_underscores false r
      else None
  end.

Definition int_unsigned (s : string) : option Z :=
  match strip_underscores false s with
  | Some ds => option_map Z.of_uint (NilEmpty.uint_of_string ds)
  | None => None
  end.

(** The whitespace [int] skips around a literal: the ASCII whitespace and,
    beyond ASCII, U+0085 and U+00A0.  It is narrower than [isspace], which
    holds of U+001C to U+001F as well: [int] takes a string of ASCII
    characters as it is and skips with the C locale's [isspace]. *)
Definition int_space (c : ascii) : bool :=
  let n := code c in
  (((9 <=? n) && (n <=? 13)) || (n =? 32) || (n =? 133) || (n =? 160))%nat.

Fixpoint int_lstrip (s : string) : string :=
  match s with
  | "" => ""
  | String c r => if int_space c then int_lstrip r else s
  end.

Fixpoint int_rstrip (s : string) : string :=
  match s with
  | "" => ""
  | String c r =>
      let r' := int_rstrip r in
      if int_space c && (r' =? "") then "" else String c r'
  end.

(** [int(s)] in base 10: the whitespace around the literal is skipped, one
    sign is allowed, anything else raises [ValueError]. *)
Definition int (s : string) : result Z :=
  let body := int_rstrip (int_lstrip s) in
  let signed :=
    match body with
    | String "-" r => option_map Z.opp (int_unsigned r)
    | String "+" r => int_unsigned r
    | _ => int_unsigned body
    end in
  match signed with
  | Some n => Ok n
  | None => Raise ValueError
  end.

(** ** [re.search] for sequences of quantified character classes *)

Inductive charclass : Type :=
| Digit    (* \d *)
| AnyChar. (* .  : everything but a line feed *)

Definition class_matches (k : charclass) (c : ascii) : bool :=
  match k with
  | Digit => isdigit c
  | AnyChar => negb (Ascii.eqb c LF)
  end.

(** [cls{lo,hi}], greedy; [hi = None] is "no upper bound". *)
Record item : Type := Item { cls : charclass; lo : nat; hi : option nat }.

Definition within (limit : option nat) (n : nat) : bool :=
  match limit with
  | None => true
  | Some h => (n <? h)%nat
  end.

(** Number of leading characters of [s] in class [k], at most [limit],
    counted from [n]. *)
Fixpoint run_length (k : charclass) (limit : option nat) (n : nat) (s : string) : nat :=
  match s with
  | "" => n
  | String c r =>
      if within limit n && class_matches k c
      then run_length k limit (S n) r else n
  end.

Fixpoint drop (n : nat) (s : string) : string :=
  match n, s with
  | S n', String _ r => drop n' r
  | _, _ => s
  end.

(** Try [k], [k-1], ..., [lo] repetitions, first success wins. *)
Fixpoint backtrack (f : nat -> option nat) (lo k : nat) : option nat :=
  match f k with
  | Some n => Some n
  | None =>
      match k with
      | 0 => None
      | S k' => if (lo <=? k')%nat then backtrack f lo k' else None
      end
  end.

(** Length of the match of [items] anchored at the start of [s]. *)
Fixpoint match_here (items : list item) (s : string) : option nat :=
  match items with
  | [] => Some 0
  | it :: rest =>
      let most := run_length (cls it) (hi it) 0 s in
      if (most <? lo it)%nat then None
      else backtrack
             (fun k => option_map (Nat.add k) (match_here rest (drop k s)))
             (lo it) most
  end.

(** [re.search(items, s)]: the leftmost match, as its [group(0)]. *)
Fixpoint search (items : list item) (s : string) : option string :=
  match match_here items s with
  | Some n => Some (substring 0 n s)
  | None =>
      match s with
      | "" => None
      | String _ r => search items r
      end
  end.

(** ** Digit runs

    What the statements about [\d+.{0,1}\d*] and [int] are written with. *)

Fixpoint all_digits (s : string) : bool :=
  match s with
  | "" => true
  | String c r => isdigit c && all_digits r
  end.

(** The number a run of digits denotes in base 10. *)
Definition digits_value (ds : string) : Z :=
  match NilEmpty.uint_of_string ds with
  | Some u => Z.of_uint u
  | None => 0%Z
  end.

(** How many characters the pattern takes after its first digit run: none
    at the end of the text or before a line feed, else one character and
    the digits after it. *)
Definition separator_length (tail : string) : nat :=
  match tail with
  | "" => 0
  | String c r => if Ascii.eqb c LF then 0 else S (run_length Digit None 0 r)
  end.

(** The characters [int] reads as digit grouping once ["."] has become
    ["_"]. *)
Definition grouping (c : ascii) : bool := Ascii.eqb c "." || Ascii.eqb c "_".

(** The default of [sys.get_int_max_str_digits()]: the interpreter refuses
    to convert a literal with more digits. *)
Definition int_max_str_digits : nat := 4300.

(** The character [c] after the first digit run and the digits [ds2] after
    it make a literal [int] accepts: a grouping character before at least
    one digit, or one whitespace character before none. *)
Definition accepted (c : ascii) (ds2 : string) : bool :=
  if grouping c then negb (ds2 =? "") else int_space c && (ds2 =? "").

(** They make a literal [int] refuses: a grouping character before no
    digit, a character that is neither grouping nor whitespace, or
    whitespace before more digits. *)
Definition refused (c : ascii) (ds2 : string) : bool :=
  if grouping c then ds2 =? "" else negb (isspace c && (ds2 =? "")).

Definition starts_with_digit (s : string) : bool :=
  match s with
  | String c _ => isdigit c
  | "" => false
  end.

End Py.

(* ===================================================================== *)
(** * The result document and its serialisation *)
(* ===================================================================== *)

Module Json.
Import Py.

(** ** Texts

    The document and the text of the file are taken over all of Unicode: a
    [str] is the list of its code points, each below [0x110000].  The
    surrogates [0xD800] to [0xDFFF] can occur in a [str], but have no
    UTF-8 encoding. *)
Definition ustring : Type := list N.

(** The [str] with the characters of [s]. *)
Definition unicode (s : string) : ustring :=
  map N_of_ascii (list_ascii_of_string s).

Coercion unicode : string >-> ustring.

(** [a == b] *)
Fixpoint ueqb (a b : ustring) : bool :=
  match a, b with
  | [], [] => true
  | x :: a', y :: b' => (x =? y)%N && ueqb a' b'
  | _, _ => false
  end.

(** The Python values the scraper stores and dumps: [int], [str], [list]
    and [dict] with string keys, in insertion order. *)
#[warnings="-register-all"]
Inductive value : Type :=
| VInt (n : Z)
| VStr (s : ustring)
| VList (l : list value)
| VDict (d : list (ustring * value)).

(** [d[k]] *)
Fixpoint dict_get (k : ustring) (d : list (ustring * value)) : option value :=
  match d with
  | [] => None
  | (k', v) :: r => if ueqb k k' then Some v else dict_get k r
  end.

(** [d[k] = v]: an existing key keeps its place, a new one goes last. *)
Fixpoint dict_set (k : ustring) (v : value) (d : list (ustring * value))
  : list (ustring * value) :=
  match d with
  | [] => [(k, v)]
  | (k', v') :: r =>
      if ueqb k k' then (k, v) :: r else (k', v') :: dict_set k v r
  end.

(** ** [json.dump(obj, fp, ensure_ascii=False)] *)

Definition hex_digit (n : N) : N :=
  if (n <? 10)%N then (48 + n)%N else (87 + n)%N.

(** One character of a string literal: the table [ESCAPE_DCT] of
    [json.encoder].  The quotation mark is 34, the backslash 92; a control
    character without a short form becomes [\u00XX]. *)
Definition escape_char (c : N) : ustring :=
  if (c =? 34)%N then [92; 34]%N
  else if (c =? 92)%N then unicode "\\"
  else if (c =? 10)%N then unicode "\n"
  else if (c =? 13)%N then unicode "\r"
  else if (c =? 9)%N then unicode "\t"
  else if (c =? 8)%N then unicode "\b"
  else if (c =? 12)%N then unicode "\f"
  else if (c <? 32)%N then
    unicode "\u00" ++ [hex_digit (c / 16)%N; hex_digit (c mod 16)%N]
  else [c].

Fixpoint escape (s : ustring) : ustring :=
  match s with
  | [] => []
  | c :: r => escape_char c ++ escape r
  end.

(** [encode_basestring] *)
Definition encode_basestring (s : ustring) : ustring :=
  34%N :: escape s ++ [34%N].

(** [sep.join(l)] *)
Fixpoint separated (sep : ustring) (l : list ustring) : ustring :=
  match l with
  | [] => []
  | [x] => x
  | x :: xs => x ++ sep ++ separated sep xs
  end.

(** The text of one member of an object. *)
Definition pair_text (dumps : value -> ustring) (kv : ustring * value) : ustring :=
  encode_basestring (fst kv) ++ unicode ": " ++ dumps (snd kv).

(** The text [json.dump] writes, with the default separators: what
    [json.dumps] returns. *)
Fixpoint dumps (v : value) : ustring :=
  match v with
  | VInt n => unicode (str n)
  | VStr s => encode_basestring s
  | VList l => unicode "[" ++ separated (unicode ", ") (map dumps l) ++ unicode "]"
  | VDict d =>
      unicode "{" ++ separated (unicode ", ") (map (pair_text dumps) d) ++ unicode "}"
  end.

(** [json.dump] hands the text to the file in pieces, those of
    [JSONEncoder.iterencode]: a string or a number is one piece, joined to
    the bracket or separator before it when it is an item of a list. *)
Definition scalar_chunk (v : value) : option ustring :=
  match v with
  | VInt n => Some (unicode (str n))
  | VStr s => Some (encode_basestring s)
  | _ => None
  end.

Section Chunks.

Variable chunks : value -> list ustring.

Fixpoint list_chunks (first : bool) (l : list value) : list ustring :=
  match l with
  | [] => []
  | x :: r =>
      let buf := if first then unicode "[" else unicode ", " in
      match scalar_chunk x with
      | Some t => [buf ++ t]
      | None => buf :: chunks x
      end ++ list_chunks false r
  end.

Fixpoint dict_chunks (first : bool) (d : list (ustring * value)) : list ustring :=
  match d with
  | [] => []
  | (k, x) :: r =>
      (if first then [] else [unicode ", "])
      ++ encode_basestring k :: unicode ": " :: chunks x ++ dict_chunks false r
  end.

End Chunks.

Fixpoint iterencode (v : value) : list ustring :=
  match v with
  | VInt n => [unicode (str n)]
  | VStr s => [encode_basestring s]
  | VList l =>
      match l with
      | [] => [unicode "[]"]
      | _ => list_chunks iterencode true l ++ [unicode "]"]
      end
  | VDict d =>
      match d with
      | [] => [unicode "{}"]
      | _ => unicode "{" :: dict_chunks iterencode true d ++ [unicode "}"]
      end
  end.

(** ** The text layer of a file opened with [encoding="UTF-8"] *)

Definition byte_of_N (n : N) : Byte.byte :=
  match Byte.of_N n with
  | Some b => b
  | None => Byte.x00
  end.

Definition is_surrogate (c : N) : bool := ((0xD800 <=? c) && (c <=? 0xDFFF))%N.

(** The UTF-8 form of one code point; [None] for a surrogate, which the
    codec refuses with [UnicodeEncodeError]. *)
Definition utf8_encode_char (c : N) : option (list Byte.byte) :=
  if (c <? 0x80)%N then Some [byte_of_N c]
  else if (c <? 0x800)%N then
    Some [byte_of_N (0xC0 + c / 64)%N; byte_of_N (0x80 + c mod 64)%N]
  else if (c <? 0x10000)%N then
    if is_surrogate c then None
    else Some [byte_of_N (0xE0 + c / 4096)%N; byte_of_N (0x80 + (c / 64) mod 64)%N;
               byte_of_N (0x80 + c mod 64)%N]
  else if (c <? 0x110000)%N then
    Some [byte_of_N (0xF0 + c / 262144)%N; byte_of_N (0x80 + (c / 4096) mod 64)%N;
          byte_of_N (0x80 + (c / 64) mod 64)%N; byte_of_N (0x80 + c mod 64)%N]
  else None.

(** [s.encode("UTF-8")] *)
Fixpoint utf8_encode (s : ustring) : option (list Byte.byte) :=
  match s with
  | [] => Some []
  | c :: r =>
      match utf8_encode_char c, utf8_encode r with
      | Some b, Some bs => Some (b ++ bs)
      | _, _ => None
      end
  end.

(** [fp.write(chunk)] for each piece in turn: the bytes that reach the
    file, and whether every piece was written.  A piece that cannot be
    encoded is not written at all, and nothing after it is. *)
Fixpoint write_chunks (chunks : list ustring) : list Byte.byte * bool :=
  match chunks with
  | [] => ([], true)
  | c :: r =>
      match utf8_encode c with
      | Some b => let '(bs, complete) := write_chunks r in (b ++ bs, complete)
      | None => ([], false)
      end
  end.

(** The bytes in the file after [json.dump(v, f)] on the emptied file,
    whether the call returned or raised. *)
Definition written (v : value) : list Byte.byte :=
  fst (write_chunks (iterencode v)).

(** ** Reading the file back: [json.loads(content.decode("UTF-8"))]

    The reader follows the scanner of [json.decoder] on documents made of
    integers, strings, arrays and objects; it answers [None] on malformed
    text and on text outside this fragment (floats, [true], [false],
    [null]). *)

Definition is_continuation (n : N) : bool := ((0x80 <=? n) && (n <=? 0xBF))%N.

(** The strict decoder: no overlong form, no surrogate, nothing from
    [0x110000] on. *)
Fixpoint utf8_decode (b : list Byte.byte) : option ustring :=
  match b with
  | [] => Some []
  | b1 :: r =>
      let n1 := Byte.to_N b1 in
      if (n1 <? 0x80)%N then option_map (cons n1) (utf8_decode r)
      else if (n1 <? 0xC2)%N then None
      else if (n1 <? 0xE0)%N then
        match r with
        | b2 :: r' =>
            let n2 := Byte.to_N b2 in
            if is_continuation n2
            then option_map (cons ((n1 - 0xC0) * 64 + (n2 - 0x80))%N) (utf8_decode r')
            else None
        | _ => None
        end
      else if (n1 <? 0xF0)%N then
        match r with
        | b2 :: b3 :: r' =>
            let n2 := Byte.to_N b2 in
            let n3 := Byte.to_N b3 in
            let c := ((n1 - 0xE0) * 4096 + (n2 - 0x80) * 64 + (n3 - 0x80))%N in
            if is_continuation n2 && is_continuation n3
               && (0x800 <=? c)%N && negb (is_surrogate c)
            then option_map (cons c) (utf8_decode r')
            else None
        | _ => None
        end
      else if (n1 <? 0xF5)%N then
        match r with
        | b2 :: b3 :: b4 :: r' =>
            let n2 := Byte.to_N b2 in
            let n3 := Byte.to_N b3 in
            let n4 := Byte.to_N b4 in
            let c := ((n1 - 0xF0) * 262144 + (n2 - 0x80) * 4096
                      + (n3 - 0x80) * 64 + (n4 - 0x80))%N in
            if is_continuation n2 && is_continuation n3 && is_continuation n4
               && (0x10000 <=? c)%N && (c <? 0x110000)%N
            then option_map (cons c) (utf8_decode r')
            else None
        | _ => None
        end
      else None
  end.

(** JSON whitespace: blank, tab, line feed, carriage return. *)
Definition is_ws (c : N) : bool :=
  ((c =? 32) || (c =? 9) || (c =? 10) || (c =? 13))%N.

Fixpoint skip_ws (s : ustring) : ustring :=
  match s with
  | [] => []
  | c :: r => if is_ws c then skip_ws r else s
  end.

Definition hex_value (c : N) : option N :=
  if ((48 <=? c) && (c <=? 57))%N then Some (c - 48)%N
  else if ((97 <=? c) && (c <=? 102))%N then Some (c - 87)%N
  else if ((65 <=? c) && (c <=? 70))%N then Some (c - 55)%N
  else None.

(** The four hexadecimal digits of a [\uXXXX] escape. *)
Definition decode_uXXXX (h1 h2 h3 h4 : N) : option N :=
  match hex_value h1, hex_value h2, hex_value h3, hex_value h4 with
  | Some a, Some b, Some c, Some d => Some (4096 * a + 256 * b + 16 * c + d)%N
  | _, _, _, _ => None
  end.

Definition is_high_surrogate (c : N) : bool := ((0xD800 <=? c) && (c <=? 0xDBFF))%N.
Definition is_low_surrogate (c : N) : bool := ((0xDC00 <=? c) && (c <=? 0xDFFF))%N.

(** The table [BACKSLASH] of [json.decoder]. *)
Definition unescape (e : N) : option N :=
  if (e =? 34)%N then Some e
  else if (e =? 92)%N then Some e
  else if (e =? 47)%N then Some e
  else if (e =? 98)%N then Some 8%N
  else if (e =? 102)%N then Some 12%N
  else if (e =? 110)%N then Some 10%N
  else if (e =? 114)%N then Some 13%N
  else if (e =? 116)%N then Some 9%N
  else None.

Definition cons_char (c : N) (r : option (ustring * ustring)) : option (ustring * ustring) :=
  match r with
  | Some (x, rest) => Some (c :: x, rest)
  | None => None
  end.

(** [scanstring] in strict mode, from the character after the opening
    quote: the string and the text after its closing quote.  A [\uXXXX]
    escape of a high surrogate followed by one of a low surrogate is read
    as the one character they encode. *)
Fixpoint scanstring (s : ustring) : option (ustring * ustring) :=
  match s with
  | [] => None
  | c :: r =>
      if (c =? 34)%N then Some ([], r)
      else if (c =? 92)%N then
        match r with
        | [] => None
        | e :: r1 =>
            if (e =? 117)%N then
              match r1 with
              | h1 :: h2 :: h3 :: h4 :: r5 =>
                  match decode_uXXXX h1 h2 h3 h4 with
                  | Some ch =>
                      match r5 with
                      | b :: u :: l1 :: l2 :: l3 :: l4 :: r11 =>
                          if is_high_surrogate ch && (b =? 92)%N && (u =? 117)%N then
                            match decode_uXXXX l1 l2 l3 l4 with
                            | Some ch2 =>
                                if is_low_surrogate ch2
                                then cons_char
                                       (0x10000 + (ch - 0xD800) * 1024 + (ch2 - 0xDC00))%N
                                       (scanstring r11)
                                else cons_char ch (scanstring r5)
                            | None => None
                            end
                          else cons_char ch (scanstring r5)
                      | _ => cons_char ch (scanstring r5)
                      end
                  | None => None
                  end
              | _ => None
              end
            else
              match unescape e with
              | Some ch => cons_char ch (scanstring r1)
              | None => None
              end
        end
      else if (c <? 32)%N then None
      else cons_char c (scanstring r)
  end.

(** The decimal digits of JSON: the ASCII ones. *)
Definition is_digit (c : N) : bool := ((48 <=? c) && (c <=? 57))%N.

Definition begins_with_digit (s : ustring) : bool :=
  match s with
  | c :: _ => is_digit c
  | [] => false
  end.

(** After the integer part: a fraction or an exponent makes the number a
    float. *)
Definition float_tail (s : ustring) : bool :=
  match s with
  | c :: r =>
      if (c =? 46)%N then begins_with_digit r
      else if ((c =? 101) || (c =? 69))%N then
        match r with
        | d :: r' =>
            if ((d =? 43) || (d =? 45))%N then begins_with_digit r'
            else is_digit d
        | [] => false
        end
      else false
  | [] => false
  end.

(** The leading digits of [s], and what follows them. *)
Fixpoint span_digits (s : ustring) : ustring * ustring :=
  match s with
  | c :: r =>
      if is_digit c then let '(ds, rest) := span_digits r in (c :: ds, rest)
      else ([], s)
  | [] => ([], [])
  end.

(** The integer part [0|[1-9][0-9]*] at the start of [s]. *)
Definition scan_digits (s : ustring) : option (ustring * ustring) :=
  match s with
  | c :: r =>
      if (c =? 48)%N then Some ([48%N], r)
      else if is_digit c then Some (span_digits s)
      else None
  | [] => None
  end.

(** A text of ASCII characters as a [string]. *)
Definition ascii_text (s : ustring) : string :=
  string_of_list_ascii (map ascii_of_N s).

(** The number a run of digits denotes in base 10. *)
Definition digits_number (ds : ustring) : Z := digits_value (ascii_text ds).

Definition scan_number (s : ustring) : option (Z * ustring) :=
  let '(negative, body) :=
    match s with
    | c :: r => if (c =? 45)%N then (true, r) else (false, s)
    | [] => (false, s)
    end in
  match scan_digits body with
  | Some (ds, rest) =>
      if float_tail rest then None
      else Some (if negative then (- digits_number ds)%Z else digits_number ds, rest)
  | None => None
  end.

(** [dict(pairs)] *)
Definition dict_of_pairs (pairs : list (ustring * value)) : list (ustring * value) :=
  fold_left (fun d kv => dict_set (fst kv) (snd kv) d) pairs [].

(** What may follow a number for it to be read as this integer. *)
Definition delimited (rest : ustring) : bool :=
  negb (begins_with_digit rest) && negb (float_tail rest).

(** [scan_once], [JSONArray] and [JSONObject]; [fuel] bounds the nesting
    and the number of members. *)
Fixpoint scan_once (fuel : nat) (s : ustring) : option (value * ustring) :=
  match fuel with
  | 0 => None
  | S fuel' =>
      match s with
      | [] => None
      | c :: r =>
          if (c =? 34)%N then
            match scanstring r with
            | Some (x, rest) => Some (VStr x, rest)
            | None => None
            end
          else if (c =? 123)%N then
            match skip_ws r with
            | [] => None
            | c1 :: rest =>
                if (c1 =? 125)%N then Some (VDict [], rest)
                else
                  match parse_pairs fuel' (c1 :: rest) with
                  | Some (d, rest') => Some (VDict (dict_of_pairs d), rest')
                  | None => None
                  end
            end
          else if (c =? 91)%N then
            match skip_ws r with
            | [] => None
            | c1 :: rest =>
                if (c1 =? 93)%N then Some (VList [], rest)
                else
                  match parse_items fuel' (c1 :: rest) with
                  | Some (l, rest') => Some (VList l, rest')
                  | None => None
                  end
            end
          else
            match scan_number s with
            | Some (n, rest) => Some (VInt n, rest)
            | None => None
            end
      end
  end
with parse_items (fuel : nat) (s : ustring) : option (list value * ustring) :=
  match fuel with
  | 0 => None
  | S fuel' =>
      match scan_once fuel' s with
      | Some (v, rest) =>
          match skip_ws rest with
          | [] => None
          | c :: rest' =>
              if (c =? 93)%N then Some ([v], rest')
              else if (c =? 44)%N then
                match parse_items fuel' (skip_ws rest') with
                | Some (l, rest'') => Some (v :: l, rest'')
                | None => None
                end
              else None
          end
      | None => None
      end
  end
with parse_pairs (fuel : nat) (s : ustring) : option (list (ustring * value) * ustring) :=
  match fuel with
  | 0 => None
  | S fuel' =>
      match s with
      | [] => None
      | c :: r =>
          if (c =? 34)%N then
            match scanstring r with
            | Some (k, rest) =>
                match skip_ws rest with
                | [] => None
                | c1 :: rest1 =>
                    if (c1 =? 58)%N then
                      match scan_once fuel' (skip_ws rest1) with
                      | Some (v, rest2) =>
                          match skip_ws rest2 with
                          | [] => None
                          | c2 :: rest3 =>
                              if (c2 =? 125)%N then Some ([(k, v)], rest3)
                              else if (c2 =? 44)%N then
                                match parse_pairs fuel' (skip_ws rest3) with
                                | Some (d, rest4) => Some ((k, v) :: d, rest4)
                                | None => None
                                end
                              else None
                          end
                      | None => None
                      end
                    else None
                end
            | None => None
            end
          else None
      end
  end.

(** [json.loads] *)
Definition loads (s : ustring) : option value :=
  match scan_once (S (List.length s)) (skip_ws s) with
  | Some (v, rest) =>
      match skip_ws rest with
      | [] => Some v
      | _ => None
      end
  | None => None
  end.

(** [json.loads(content.decode("UTF-8"))] on the content of the file. *)
Definition load (content : list Byte.byte) : option value :=
  match utf8_decode content with
  | Some s => loads s
  | None => None
  end.

(** The first character of a dumped value: what the reader branches on. *)
Definition opens_value (c : N) : Prop :=
  is_ws c = false /\ (c =? 93)%N = false /\ (c =? 125)%N = false.

(** A value reads back from its dump, whatever follows it. *)
Definition reads_back (v : value) : Prop :=
  forall fuel tail,
    List.length (dumps v) <= fuel -> delimited tail = true ->
    scan_once fuel (dumps v ++ tail) = Some (v, tail).

(** A Python [dict] holds each key once. *)
Fixpoint distinct (l : list ustring) : bool :=
  match l with
  | [] => true
  | k :: r => negb (existsb (ueqb k) r) && distinct r
  end.

Fixpoint well_formed (v : value) : bool :=
  match v with
  | VInt _ => true
  | VStr _ => true
  | VList l => forallb well_formed l
  | VDict d => distinct (map fst d) && forallb (fun kv => well_formed (snd kv)) d
  end.

(** A code point that UTF-8 can carry: a Unicode scalar value. *)
Definition is_scalar (c : N) : bool := (c <? 0x110000)%N && negb (is_surrogate c).

(** Every string and key of the document is made of scalar values, as a
    text decoded from bytes always is. *)
Fixpoint storable (v : value) : bool :=
  match v with
  | VInt _ => true
  | VStr s => forallb is_scalar s
  | VList l => forallb storable l
  | VDict d => forallb (fun kv => forallb is_scalar (fst kv) && storable (snd kv)) d
  end.

(** No character of [s] is a control character (a line break included). *)
Fixpoint printable (s : ustring) : bool :=
  match s with
  | [] => true
  | c :: r => (32 <=? c)%N && printable r
  end.

End Json.

(* ===================================================================== *)
(** * The class [TruckScout24Scraper] *)
(* ===================================================================== *)

Module Scraper.
Import Py Json.
Local Open Scope string_scope.

(** ** The outside world *)

(** What a run does to the outside world, in order. *)
Inductive event : Type :=
| Get (url : string)                              (* requests.get(url, timeout=5) *)
| Mkdir (path : string)                           (* Path(path).mkdir(parents=True, exist_ok=True) *)
| Retrieve (url path : string)                    (* urllib.request.urlretrieve(url, path) *)
| WriteFile (path : string) (content : list Byte.byte). (* open(path, "w", encoding="UTF-8") ... close() *)

Record response : Type := Response { status_code : Z; text : string }.

(** The network answers a request by the number of effects that came before
    it and by its URL.  [http_get] is [None] when [requests.get] raises
    (no connection, timeout); [download_ok] is [false] when [urlretrieve]
    raises.  Creating a directory and opening the output file succeed. *)
Record network : Type := Network {
  http_get : nat -> string -> option response;
  download_ok : nat -> string -> bool
}.

(** The instance attributes, and the history of effects. *)
Record state : Type := State {
  path_to_dir : string;
  ads : list value;          (* self.__data["ads"] *)
  page_no : Z;               (* self.__page_no *)
  trace : list event
}.

(** [self.__data] *)
Definition data (st : state) : value := VDict [(unicode "ads", VList (ads st))].

(** ** Computations: state passing with exceptions *)

Definition M (A : Type) : Type := state -> result A * state.

Definition ret {A} (a : A) : M A := fun st => (Ok a, st).

Definition bind {A B} (m : M A) (k : A -> M B) : M B :=
  fun st =>
    match m st with
    | (Ok a, st') => k a st'
    | (Raise e, st') => (Raise e, st')
    end.

Definition lift {A} (r : result A) : M A := fun st => (r, st).

Definition get_state : M state := fun st => (Ok st, st).

(** The state after one more effect. *)
Definition log (e : event) (st : state) : state :=
  State (path_to_dir st) (ads st) (page_no st) (trace st ++ [e])%list.

Definition emit (e : event) : M unit :=
  fun st => (Ok tt, log e st).

Definition bind_result {A B} (r : result A) (k : A -> result B) : result B :=
  match r with
  | Ok a => k a
  | Raise e => Raise e
  end.

Declare Scope py_scope.
Delimit Scope py_scope with py.
Notation "x <- m ;; k" := (bind m (fun x => k))
  (at level 61, m at next level, right associativity) : py_scope.
Notation "m ;; k" := (bind m (fun _ => k))
  (at level 61, right associativity) : py_scope.
Notation "x <-? r ;; k" := (bind_result r (fun x => k))
  (at level 61, r at next level, right associativity) : py_scope.
Local Open Scope py_scope.

(** [o.attribute] where [o] may be [None]. *)
Definition deref {A} (o : option A) : result A :=
  match o with
  | Some a => Ok a
  | None => Raise AttributeError
  end.

(** [l[i]] *)
Definition index {A} (l : list A) (i : Z) : result A :=
  match (if (i <? 0)%Z then None else nth_error l (Z.to_nat i)) with
  | Some a => Ok a
  | None => Raise IndexError
  end.

(** [l[:n]] *)
Definition slice_to {A} (l : list A) (n : Z) : list A :=
  if (n <? 0)%Z then firstn (List.length l - Z.to_nat (- n)) l
  else firstn (Z.to_nat n) l.

(** [range(n)] *)
Definition range (n : Z) : list Z := map Z.of_nat (seq 0 (Z.to_nat n)).

(** [for x in l: body(x)] *)
Fixpoint for_each {A} (l : list A) (body : A -> M unit) : M unit :=
  match l with
  | [] => ret tt
  | x :: r => body x ;; for_each r body
  end.

(** [while True: ...], where the body answers [false] at its [break];
    [None] when [fuel] passes did not reach the [break]. *)
Fixpoint while_true (fuel : nat) (body : M bool) : M (option unit) :=
  match fuel with
  | 0 => ret None
  | S fuel' =>
      continue <- body ;;
      if continue then while_true fuel' body else ret (Some tt)
  end.

(** ** The HTML library *)

(** The part of BeautifulSoup the class uses.  [find] and [find_all] take a
    tag name and the attribute dictionary. *)
Class Soup (Tag : Type) : Type := {
  BeautifulSoup : string -> Tag;                                  (* BeautifulSoup(text, "lxml") *)
  find : Tag -> string -> list (string * string) -> option Tag;   (* None when nothing matches *)
  find_all : Tag -> string -> list (string * string) -> list Tag; (* document order *)
  get_text : Tag -> string;                                       (* also [tag.text] *)
  get : Tag -> string -> option string                            (* None when the attribute is absent *)
}.

Definition WEBSITE_URL : string := "https://www.truckscout24.de".
Definition WEBSITE_CATALOG_URL : string :=
  WEBSITE_URL ++ "/transporter/gebraucht/kuehl-iso-frischdienst/renault".

(** The pattern [\d+.{0,1}\d*]. *)
Definition NUMBER_RE : list item :=
  [Item Digit 1 None; Item AnyChar 0 (Some 1); Item Digit 0 None].

(** The dictionary [__get_page_config] builds, key by key. *)
Definition record (id : Z) (href title : string) (price mileage : Z) (color : string)
  (power : Z) (description : string) : value :=
  VDict [(unicode "id", VInt id); (unicode "href", VStr href);
         (unicode "title", VStr title); (unicode "price", VInt price);
         (unicode "mileage", VInt mileage); (unicode "color", VStr color);
         (unicode "power", VInt power); (unicode "description", VStr description)].

Section Methods.

Context {Tag : Type} `{Soup Tag}.
Variable net : network.

(** [__init__] *)
Definition init (path : string) : state :=
  State path [] 1 [Mkdir path].

Definition create_dir (dir_name : string) : M unit :=
  emit (Mkdir dir_name).

Definition requests_get (url : string) : M response :=
  st <- get_state ;;
  emit (Get url) ;;
  match http_get net (List.length (trace st)) url with
  | Some r => ret r
  | None => lift (Raise RequestException)
  end.

Definition urlretrieve (url filename : string) : M unit :=
  st <- get_state ;;
  emit (Retrieve url filename) ;;
  if download_ok net (List.length (trace st)) url then ret tt
  else lift (Raise URLError).

Definition parse_page (url : string) : M (option Tag) :=
  response <- requests_get url ;;
  ret (if (status_code response =? 200)%Z
       then Some (BeautifulSoup (text response)) else None).

Definition get_tag_data (tag : option Tag) : string :=
  match tag with
  | Some t => strip (get_text t)
  | None => ""
  end.

Fixpoint get_div_param (tags : list Tag) (param_name param_class value_class : string)
  : string :=
  match tags with
  | [] => ""
  | tag :: rest =>
      if String.eqb (get_tag_data (find tag "div" [("class", param_class)])) param_name
      then get_tag_data (find tag "div" [("class", value_class)])
      else get_div_param rest param_name param_class value_class
  end.

(** The trimmed text of the first [div] of class [class] below [tag]: the
    label of a candidate for [class = param_class], its value for
    [class = value_class]. *)
Definition div_text (class : string) (tag : Tag) : string :=
  get_tag_data (find tag "div" [("class", class)]).

Definition convert_str_to_int (text : string) : result Z :=
  match search NUMBER_RE text with
  | Some num_str => int (replace "." "_" num_str)
  | None => Ok 0%Z
  end.

Definition get_description (description_tag : option Tag) : string :=
  match description_tag with
  | Some d =>
      let title_tag := find d "label" [("class", "sc-expandable-box__label")] in
      let title :=
        match title_tag with
        | Some t => strip (get_text t) ++ nl ++ nl
        | None => ""
        end in
      let body_tag :=
        find d "div" [("class", "short-description"); ("data-type", "description")] in
      let body :=
        match body_tag with
        | Some b => join nl (map strip (splitlines (get_text b)))
        | None => ""
        end in
      title ++ body
  | None => ""
  end.

Definition get_page_config (st : state) (page : option Tag) (page_url : string)
  : result value :=
  doc <-? deref page ;;
  let title_tag := find doc "h1" [("class", "sc-ellipsis sc-font-xl")] in
  let price_tag :=
    find doc "h2" [("class", "sc-highlighter-4 sc-highlighter-xl sc-font-bold")] in
  basic <-? deref (find doc "div" [("class", "data-basic")]) ;;
  let basic_data_tags := find_all basic "div" [("class", "itemspace")] in
  spec <-? deref (find doc "div" [("class", "sc-expandable-box__content sc-grid-row")]) ;;
  let specification_tags := find_all spec "li" [] in
  let description_tag :=
    find doc "div" [("class", "sc-expandable-box");
                    ("data-target", "[data-item-name='description']")] in
  let config := [] in
  let config := dict_set "id" (VInt (page_no st)) config in
  let config := dict_set "href" (VStr page_url) config in
  let config := dict_set "title" (VStr (get_tag_data title_tag)) config in
  price <-? convert_str_to_int (get_tag_data price_tag) ;;
  let config := dict_set "price" (VInt price) config in
  mileage <-? convert_str_to_int
                (get_div_param basic_data_tags "Kilometer" "itemlbl" "itemval") ;;
  let config := dict_set "mileage" (VInt mileage) config in
  let config :=
    dict_set "color" (VStr (get_div_param specification_tags "Farbe" "sc-font-bold" ""))
             config in
  power <-? convert_str_to_int
              (get_div_param specification_tags "Leistung" "sc-font-bold" "") ;;
  let config := dict_set "power" (VInt power) config in
  let config := dict_set "description" (VStr (get_description description_tag)) config in
  Ok (VDict config).

(** The text after the last ["."] of the URL: [image_url.split(".")[-1]]. *)
Definition image_extension (image_url : string) : string :=
  last (split "." image_url) "".

(** The attribute dictionary of the gallery pictures. *)
Definition gallery_image : list (string * string) :=
  [("class", "gallery-picture__image sc-lazy-image lazyload")].

(** [f"{self.path_to_dir}/{self.__page_no}"] *)
Definition listing_dir (st : state) : string :=
  path_to_dir st ++ "/" ++ str (page_no st).

(** [f"{self.path_to_dir}/{self.__page_no}/image_{i+1}.{image_extension}"] *)
Definition image_filename (st : state) (i : Z) (image_url : string) : string :=
  path_to_dir st ++ "/" ++ str (page_no st) ++ "/image_" ++ str (i + 1)
  ++ "." ++ image_extension image_url.

Definition download_images (page : option Tag) (image_num : Z) : M unit :=
  doc <- lift (deref page) ;;
  let image_tags := find_all doc "img" gallery_image in
  let len := Z.of_nat (List.length image_tags) in
  let image_num := if (len >=? image_num)%Z then image_num else len in
  let images := map (fun img => get img "data-src") (slice_to image_tags image_num) in
  st <- get_state ;;
  create_dir (listing_dir st) ;;
  for_each (range image_num) (fun i =>
    src <- lift (index images i) ;;
    image_url <- lift (deref src) ;;
    urlretrieve image_url (image_filename st i image_url)).

(** The body of the [for] loop of [__download_images], on its own. *)
Definition fetch (st0 : state) (images : list (option string)) (i : Z) : M unit :=
  src <- lift (index images i) ;;
  image_url <- lift (deref src) ;;
  urlretrieve image_url (image_filename st0 i image_url).

(** The downloads of [urls], in order, as the images [k+1], [k+2], ... of
    the listing of [st]. *)
Fixpoint retrievals (st : state) (k : nat) (urls : list string) : list event :=
  match urls with
  | [] => []
  | url :: r => Retrieve url (image_filename st (Z.of_nat k) url) :: retrievals st (S k) r
  end.

(** The state [st] after the downloads of [urls] for the listing of [st0]. *)
Definition after_downloads (st0 st : state) (k : nat) (urls : list string) : state :=
  State (path_to_dir st) (ads st) (page_no st) (trace st ++ retrievals st0 k urls)%list.

(** The file is opened, which empties it, and [json.dump] writes the
    document piece by piece; a piece that the encoding cannot carry ends the
    call with [UnicodeEncodeError], the pieces before it staying in the
    file. *)
Definition save_json_data (data_dict : value) (path : string) : M unit :=
  let '(content, complete) := write_chunks (iterencode data_dict) in
  emit (WriteFile path content) ;;
  if complete then ret tt else lift (Raise UnicodeEncodeError).

(** [self.__data["ads"].append(config)] *)
Definition appended (config : value) (st : state) : state :=
  State (path_to_dir st) (ads st ++ [config])%list (page_no st) (trace st).

Definition append_ad (config : value) : M unit :=
  fun st => (Ok tt, appended config st).

(** [self.__page_no += 1] *)
Definition advanced (st : state) : state :=
  State (path_to_dir st) (ads st) (page_no st + 1)%Z (trace st).

Definition next_page : M unit :=
  fun st => (Ok tt, advanced st).

Definition catalog_url (n : Z) : string :=
  WEBSITE_CATALOG_URL ++ "?currentpage=" ++ str n.

Definition detail_link : list (string * string) :=
  [("data-item-name", "detail-page-link")].

(** One pass through the body of [while True]; [false] at the [break]. *)
Definition loop_body : M bool :=
  st <- get_state ;;
  catalog_page <- parse_page (catalog_url (page_no st)) ;;
  catalog <- lift (deref catalog_page) ;;
  match find catalog "a" detail_link with
  | Some first_ad_url_tag =>
      href <- lift (deref (get first_ad_url_tag "href")) ;;
      let first_ad_url := WEBSITE_URL ++ strip href in
      page <- parse_page first_ad_url ;;
      st <- get_state ;;
      config <- lift (get_page_config st page first_ad_url) ;;
      append_ad config ;;
      download_images page 3 ;;
      next_page ;;
      ret true
  | None => ret false
  end.

(** The branch of a pass in which a link was found, on its own: the detail
    page of the listing at [url]. *)
Definition visit (url : string) : M bool :=
  page <- parse_page url ;;
  st <- get_state ;;
  config <- lift (get_page_config st page url) ;;
  append_ad config ;;
  download_images page 3 ;;
  next_page ;;
  ret true.

(** [process], with at most [fuel] passes through the loop; the answer is
    [None] when the loop is still running after them. *)
Definition process (fuel : nat) : M (option unit) :=
  exited <- while_true fuel loop_body ;;
  match exited with
  | Some _ =>
      st <- get_state ;;
      save_json_data (data st) (path_to_dir st ++ "/data.json") ;;
      ret (Some tt)
  | None => ret None
  end.

(** ** The driver's bookkeeping *)

(** The state after [n] passes through the loop that all went on to the
    next pass. *)
Fixpoint after_passes (n : nat) (st : state) : option state :=
  match n with
  | 0 => Some st
  | S n' =>
      match loop_body st with
      | (Ok true, st') => after_passes n' st'
      | _ => None
      end
  end.

(** [config[key]] *)
Definition field (key : ustring) (config : value) : option value :=
  match config with
  | VDict d => dict_get key d
  | _ => None
  end.

(** [config] was discovered from catalog page [n]: the history holds the
    request of the catalog URL with [currentpage=n], written out here, and
    the record's address is the site's address followed by the trimmed
    [href] of the first listing link of the page the request returned. *)
Definition discovered_from (tr : list event) (n : Z) (config : value) : Prop :=
  let url :=
    "https://www.truckscout24.de/transporter/gebraucht/kuehl-iso-frischdienst/renault?currentpage="
    ++ str n in
  exists before after response link href,
    tr = (before ++ Get url :: after)%list /\
    http_get net (List.length before) url = Some response /\
    status_code response = 200%Z /\
    find (BeautifulSoup (text response)) "a" [("data-item-name", "detail-page-link")]
    = Some link /\
    get link "href" = Some href /\
    field "href" config = Some (VStr ("https://www.truckscout24.de" ++ strip href)).

(** The invariant of the loop, at the head of a pass. *)
Definition invariant (st : state) : Prop :=
  page_no st = (Z.of_nat (List.length (ads st)) + 1)%Z /\
  forall (i : nat) (config : value),
    nth_error (ads st) i = Some config ->
    field "id" config = Some (VInt (Z.of_nat i + 1)) /\
    In (Mkdir (path_to_dir st ++ "/" ++ str (Z.of_nat i + 1))) (trace st) /\
    discovered_from (trace st) (Z.of_nat i + 1) config.

Definition is_write (e : event) : bool :=
  match e with
  | WriteFile _ _ => true
  | _ => false
  end.

End Methods.

(** ** The extension of a file name in a URL

    The text after the last dot of the file name in the path of the URL:
    the path ends at the first ["?"] or ["#"], the file name is its final
    segment.  The class does not compute this; [image_extension] is compared
    with it below. *)

Fixpoint take_until (stop : ascii -> bool) (s : string) : string :=
  match s with
  | "" => ""
  | String c r => if stop c then "" else String c (take_until stop r)
  end.

Definition url_path (url : string) : string :=
  take_until (fun c => Ascii.eqb c "?" || Ascii.eqb c "#") url.

Definition final_path_segment (url : string) : string :=
  last (split "/" (url_path url)) "".

Definition path_segment_extension (url : string) : string :=
  last (split "." (final_path_segment url)) "".

Fixpoint contains (c : ascii) (s : string) : bool :=
  match s with
  | "" => false
  | String c' r => Ascii.eqb c' c || contains c r
  end.

End Scraper.

(* ===================================================================== *)
(** * A document tree implementing the HTML interface *)
(* ===================================================================== *)

Module Dom.
Import Py Scraper.
Local Open Scope string_scope.

#[warnings="-register-all"]
Inductive node : Type :=
| Text (s : string)
| Element (name : string) (attrs : list (string * string)) (children : list node).

Fixpoint node_text (n : node) : string :=
  match n with
  | Text s => s
  | Element _ _ cs => String.concat "" (map node_text cs)
  end.

(** Everything below [n], in document order. *)
Fixpoint descendants (n : node) : list node :=
  match n with
  | Text _ => []
  | Element _ _ cs => flat_map (fun c => c :: descendants c) cs
  end.

Fixpoint assoc (k : string) (l : list (string * string)) : option string :=
  match l with
  | [] => None
  | (k', v) :: r => if String.eqb k k' then Some v else assoc k r
  end.

(** The blank-separated tokens of a [class] attribute. *)
Fixpoint words (s : string) : list string :=
  match s with
  | "" => []
  | String c r =>
      if isspace c then words r
      else match r with
           | "" => [String c ""]
           | String c' _ =>
               if isspace c' then String c "" :: words r
               else match words r with
                    | [] => [String c ""]
                    | w :: ws => String c w :: ws
                    end
           end
  end.

(** One entry of the attribute dictionary against the attributes of an
    element: [class] is a list of tokens, matched token by token or as a
    whole; an absent attribute matches only the empty string. *)
Definition attr_matches (attrs : list (string * string)) (kv : string * string) : bool :=
  let '(k, v) := kv in
  match assoc k attrs with
  | None => String.eqb v ""
  | Some x =>
      if String.eqb k "class"
      then existsb (String.eqb v) (words x) || String.eqb (join " " (words x)) v
      else String.eqb x v
  end.

Definition matches (name : string) (attrs : list (string * string)) (n : node) : bool :=
  match n with
  | Text _ => false
  | Element nm ats _ => String.eqb nm name && forallb (attr_matches ats) attrs
  end.

Definition node_find_all (n : node) (name : string) (attrs : list (string * string))
  : list node :=
  filter (matches name attrs) (descendants n).

Definition node_find (n : node) (name : string) (attrs : list (string * string))
  : option node :=
  hd_error (node_find_all n name attrs).

Definition node_get (n : node) (k : string) : option string :=
  match n with
  | Text _ => None
  | Element _ ats _ => assoc k ats
  end.

Definition empty_document : node := Element "[document]" [] [].

Fixpoint lookup_page (text : string) (pages : list (string * node)) : node :=
  match pages with
  | [] => empty_document
  | (t, d) :: r => if String.eqb text t then d else lookup_page text r
  end.

(** The interface over trees; the parser knows the documents of [pages] by
    their text and reads anything else as an empty document. *)
Definition soup (pages : list (string * node)) : Soup node := {|
  BeautifulSoup := fun text => lookup_page text pages;
  find := node_find;
  find_all := node_find_all;
  get_text := node_text;
  get := node_get
|}.

(** ** Sample pages *)

Definition div (class : string) (children : list node) : node :=
  Element "div" [("class", class)] children.

Definition labelled (label_class value_attrs label value : string) : list node :=
  [div label_class [Text label];
   Element "div" (if String.eqb value_attrs "" then [] else [("class", value_attrs)])
           [Text value]].

Definition gallery_img (src : string) : node :=
  Element "img" [("class", "gallery-picture__image sc-lazy-image lazyload");
                 ("data-src", src)] [].

Definition weiss : string := "Wei" ++ String (ascii_of_nat 223) "".

(** A detail page with every block the extractor looks for. *)
Definition detail_page (images : list node) : node :=
  Element "[document]" []
    [Element "h1" [("class", "sc-ellipsis sc-font-xl")] [Text " Renault Master "];
     Element "h2" [("class", "sc-highlighter-4 sc-highlighter-xl sc-font-bold")]
             [Text "12.500 EUR"];
     div "data-basic"
       [div "itemspace" (labelled "itemlbl" "itemval" "Erstzulassung" "05/2017");
        div "itemspace" (labelled "itemlbl" "itemval" "Kilometer" "150.000 km")];
     div "sc-expandable-box__content sc-grid-row"
       [Element "ul" []
          [Element "li" [] (labelled "sc-font-bold" "" "Farbe" weiss);
           Element "li" [] (labelled "sc-font-bold" "" "Leistung" "120 kW")]];
     Element "div" [("class", "sc-expandable-box");
                    ("data-target", "[data-item-name='description']")]
       [Element "label" [("class", "sc-expandable-box__label")] [Text "Gepflegt"];
        Element "div" [("class", "short-description"); ("data-type", "description")]
                [Text ("  erste Zeile " ++ nl ++ " zweite Zeile")]];
     div "gallery" images].

(** A detail page without the basic-data block. *)
Definition page_without_basic_data : node :=
  Element "[document]" []
    [Element "h1" [("class", "sc-ellipsis sc-font-xl")] [Text "Renault Master"];
     div "sc-expandable-box__content sc-grid-row" []].

(** A detail page whose power is written without a blank: "120kW". *)
Definition page_power_120kW : node :=
  Element "[document]" []
    [div "data-basic" [];
     div "sc-expandable-box__content sc-grid-row"
       [Element "li" [] (labelled "sc-font-bold" "" "Leistung" "120kW")]].

Definition catalog_with_link (href : string) : node :=
  Element "[document]" []
    [Element "a" [("data-item-name", "detail-page-link"); ("href", href)] [Text "Renault"]].

Definition three_images : list node :=
  [gallery_img "https://img.example.com/a/1.jpg";
   gallery_img "https://img.example.com/a/2.png";
   gallery_img "https://img.example.com/a/3.jpg";
   gallery_img "https://img.example.com/a/4.jpg"].

(** A site with one listing: catalog page 1 links to it, every other
    catalog page is empty. *)
Definition sample_pages : list (string * node) :=
  [("catalog-1", catalog_with_link " /fahrzeugdetails/renault-master ");
   ("detail", detail_page three_images)].

Definition sample_net : network := {|
  http_get := fun _ url =>
    if String.eqb url (catalog_url 1) then Some (Response 200 "catalog-1")
    else if String.eqb url (WEBSITE_URL ++ "/fahrzeugdetails/renault-master")
    then Some (Response 200 "detail")
    else Some (Response 200 "catalog-empty");
  download_ok := fun _ _ => true
|}.

(** A detail page with the two blocks and nothing in them. *)
Definition blocks_only_page : node :=
  Element "[document]" []
    [div "data-basic" [];
     div "sc-expandable-box__content sc-grid-row" []].

(** A description box without a label. *)
Definition description_body : node :=
  Element "div" [("class", "short-description"); ("data-type", "description")]
          [Text ("  erste Zeile " ++ nl ++ " zweite Zeile")].

Definition box_without_label : node :=
  Element "div" [("class", "sc-expandable-box");
                 ("data-target", "[data-item-name='description']")]
          [description_body].

(** A gallery picture without the lazy-load source. *)
Definition img_without_source : node :=
  Element "img" [("class", "gallery-picture__image sc-lazy-image lazyload")] [].

Definition gallery_page (images : list node) : node :=
  Element "[document]" [] [div "gallery" images].

(** A site that answers every request with status 404. *)
Definition net_404 : network := {|
  http_get := fun _ _ => Some (Response 404 "");
  download_ok := fun _ _ => true
|}.

(** A site whose image downloads fail. *)
Definition net_downloads_fail : network := {|
  http_get := http_get sample_net;
  download_ok := fun _ _ => false
|}.

(** A site whose first catalog page links to a listing that is gone. *)
Definition net_listing_gone : network := {|
  http_get := fun _ url =>
    if String.eqb url (catalog_url 1) then Some (Response 200 "catalog-1")
    else Some (Response 404 "");
  download_ok := fun _ _ => true
|}.

End Dom.

(* ===================================================================== *)
(** * Properties *)
(* ===================================================================== *)

Import Py Json Scraper.
Local Open Scope string_scope.

(** ** Texts *)

Lemma append_assoc (a b c : string) : (a ++ b) ++ c = a ++ b ++ c.
Proof. induction a as [|x a IH]; cbn; [reflexivity | now rewrite IH]. Qed.

Lemma append_nil_r (a : string) : a ++ "" = a.
Proof. induction a as [|x a IH]; cbn; [reflexivity | now rewrite IH]. Qed.

Lemma length_append (a b : string) :
  String.length (a ++ b) = String.length a + String.length b.
Proof. induction a as [|x a IH]; cbn; [reflexivity | now rewrite IH]. Qed.

Local Open Scope list_scope.

(** ** The written document *)

Ltac each_char c :=
  destruct c as [[] [] [] [] [] [] [] []].

(** *** Texts *)

Lemma unicode_app (a b : string) :
  unicode (a ++ b)%string = unicode a ++ unicode b.
Proof. unfold unicode. induction a as [|c a IH]; cbn; [reflexivity | now rewrite IH]. Qed.

Lemma unicode_cons (c : ascii) (s : string) :
  unicode (String c s) = N_of_ascii c :: unicode s.
Proof. reflexivity. Qed.

Lemma length_unicode (s : string) : List.length (unicode s) = String.length s.
Proof. unfold unicode. induction s as [|c s IH]; cbn; [reflexivity | now rewrite IH]. Qed.

Lemma ascii_text_unicode (s : string) : ascii_text (unicode s) = s.
Proof.
  unfold ascii_text, unicode. induction s as [|c s IH]; [reflexivity |].
  cbn [list_ascii_of_string map string_of_list_ascii].
  now rewrite ascii_N_embedding, IH.
Qed.

Lemma ueqb_eq (a b : ustring) : ueqb a b = true <-> a = b.
Proof.
  revert b. induction a as [|x a IH]; intros [|y b]; cbn; try easy.
  rewrite andb_true_iff, N.eqb_eq, IH. split; [now intros [-> ->] | now intros [= -> ->]].
Qed.

Lemma ueqb_refl (a : ustring) : ueqb a a = true.
Proof. now apply ueqb_eq. Qed.

Lemma is_digit_ascii (c : ascii) : is_digit (N_of_ascii c) = isdigit c.
Proof. each_char c; reflexivity. Qed.

(** *** UTF-8 *)

Lemma to_N_byte_of_N (n : N) : (n < 256)%N -> Byte.to_N (byte_of_N n) = n.
Proof.
  intros Hn. unfold byte_of_N.
  destruct (Byte.of_N n) as [b|] eqn:E; [now apply Byte.to_of_N |].
  apply Byte.of_N_None_iff in E. lia.
Qed.

Ltac divmod x k :=
  let q := fresh "q" in
  let m := fresh "m" in
  let Hq := fresh "Hq" in
  let Hm := fresh "Hm" in
  pose proof (N.div_mod' x k) as Hq;
  pose proof (N.mod_upper_bound x k ltac:(discriminate)) as Hm;
  set (q := (x / k)%N) in *;
  set (m := (x mod k)%N) in *;
  clearbody q m.

Ltac decide_tests :=
  repeat match goal with
         | |- context [(?a <? ?b)%N] => destruct (N.ltb_spec a b); try lia
         | |- context [(?a <=? ?b)%N] => destruct (N.leb_spec a b); try lia
         end.

Lemma utf8_decode_encode_char (c : N) (rest : list Byte.byte) :
  match utf8_encode_char c with
  | Some bs => utf8_decode (bs ++ rest) = option_map (cons c) (utf8_decode rest)
  | None => True
  end.
Proof.
  unfold utf8_encode_char.
  destruct (N.ltb_spec c 0x80) as [H1 | H1].
  { cbn [List.app utf8_decode]. cbv zeta.
    rewrite to_N_byte_of_N by lia.
    destruct (N.ltb_spec c 0x80); [reflexivity | lia]. }
  destruct (N.ltb_spec c 0x800) as [H2 | H2].
  { cbn [List.app utf8_decode]. cbv zeta.
    divmod c 64%N.
    rewrite !to_N_byte_of_N by lia. unfold is_continuation.
    replace ((0xC0 + q - 0xC0) * 64 + (0x80 + m - 0x80))%N with c by lia.
    decide_tests. reflexivity. }
  destruct (N.ltb_spec c 0x10000) as [H3 | H3].
  { unfold is_surrogate.
    destruct (N.leb_spec 0xD800 c) as [Hs1 | Hs1];
      [destruct (N.leb_spec c 0xDFFF) as [Hs2 | Hs2]; [exact I |] |];
      cbn [andb]; cbn [List.app utf8_decode]; cbv zeta.
    all: assert (Hdd : (c / 4096 = c / 64 / 64)%N)
           by (rewrite N.Div0.div_div; reflexivity);
         rewrite Hdd; divmod c 64%N; divmod q 64%N;
         rewrite !to_N_byte_of_N by lia; unfold is_continuation, is_surrogate;
         replace ((0xE0 + q0 - 0xE0) * 4096 + (0x80 + m0 - 0x80) * 64
                  + (0x80 + m - 0x80))%N with c by lia;
         decide_tests; reflexivity. }
  destruct (N.ltb_spec c 0x110000) as [H4 | H4]; [| exact I].
  cbn [List.app utf8_decode]. cbv zeta.
  assert (Hd1 : (c / 4096 = c / 64 / 64)%N) by (rewrite N.Div0.div_div; reflexivity).
  assert (Hd2 : (c / 262144 = c / 64 / 64 / 64)%N)
    by (rewrite !N.Div0.div_div; reflexivity).
  rewrite Hd2, Hd1. divmod c 64%N. divmod q 64%N. divmod q0 64%N.
  rewrite !to_N_byte_of_N by lia. unfold is_continuation.
  replace ((0xF0 + q1 - 0xF0) * 262144 + (0x80 + m1 - 0x80) * 4096
           + (0x80 + m0 - 0x80) * 64 + (0x80 + m - 0x80))%N with c by lia.
  decide_tests. reflexivity.
Qed.

Lemma utf8_decode_encode (s : ustring) (b : list Byte.byte) :
  utf8_encode s = Some b -> utf8_decode b = Some s.
Proof.
  revert b. induction s as [|c r IH]; intros b; cbn [utf8_encode].
  - now intros [= <-].
  - destruct (utf8_encode_char c) as [bc|] eqn:Hc; [| discriminate].
    destruct (utf8_encode r) as [br|]; [| discriminate].
    intros [= <-]. pose proof (utf8_decode_encode_char c br) as Hchar.
    rewrite Hc in Hchar. now rewrite Hchar, (IH br eq_refl).
Qed.

(** *** Strings *)

Lemma hex_value_digit (d : N) : (d < 16)%N -> hex_value (hex_digit d) = Some d.
Proof.
  intros Hd. unfold hex_value, hex_digit.
  destruct (N.ltb_spec d 10) as [Hlt | Hge]; decide_tests.
  all: cbn [andb]; f_equal; lia.
Qed.

Lemma scanstring_plain (c : N) (tail : ustring) :
  (c =? 34)%N = false -> (c =? 92)%N = false -> (c <? 32)%N = false ->
  scanstring (c :: tail) = cons_char c (scanstring tail).
Proof. intros H34 H92 H32. cbn [scanstring]. now rewrite H34, H92, H32. Qed.

Lemma scanstring_short (e ch : N) (tail : ustring) :
  (e =? 117)%N = false -> unescape e = Some ch ->
  scanstring (92%N :: e :: tail) = cons_char ch (scanstring tail).
Proof. intros H117 He. cbn [scanstring]. cbn [N.eqb Pos.eqb]. now rewrite H117, He. Qed.

Lemma scanstring_control (c : N) (tail : ustring) :
  (c < 32)%N ->
  scanstring (unicode "\u00" ++ [hex_digit (c / 16)%N; hex_digit (c mod 16)%N] ++ tail)
  = cons_char c (scanstring tail).
Proof.
  intros Hc. divmod c 16%N.
  change (unicode "\u00") with [92; 117; 48; 48]%N.
  cbn [List.app scanstring]. cbn [N.eqb Pos.eqb].
  unfold decode_uXXXX. change (hex_value 48) with (Some 0%N).
  rewrite !hex_value_digit by lia.
  replace (4096 * 0 + 256 * 0 + 16 * q + m)%N with c by lia.
  assert (Hhigh : is_high_surrogate c = false).
  { unfold is_high_surrogate. decide_tests; reflexivity. }
  rewrite Hhigh. cbn [andb].
  destruct tail as [|b [|u [|l1 [|l2 [|l3 [|l4 r11]]]]]]; reflexivity.
Qed.

Lemma scanstring_escape_char (c : N) (tail : ustring) :
  scanstring (escape_char c ++ tail) = cons_char c (scanstring tail).
Proof.
  unfold escape_char.
  destruct (N.eqb_spec c 34) as [-> | H34]; [reflexivity |].
  destruct (N.eqb_spec c 92) as [-> | H92]; [reflexivity |].
  destruct (N.eqb_spec c 10) as [-> | H10]; [reflexivity |].
  destruct (N.eqb_spec c 13) as [-> | H13]; [reflexivity |].
  destruct (N.eqb_spec c 9) as [-> | H9]; [reflexivity |].
  destruct (N.eqb_spec c 8) as [-> | H8]; [reflexivity |].
  destruct (N.eqb_spec c 12) as [-> | H12]; [reflexivity |].
  destruct (N.ltb_spec c 32) as [Hlt | Hge].
  - rewrite <- app_assoc. now apply scanstring_control.
  - cbn [List.app]. apply scanstring_plain.
    + now apply N.eqb_neq.
    + now apply N.eqb_neq.
    + now apply N.ltb_ge.
Qed.

Lemma scanstring_escape (s rest : ustring) :
  scanstring (escape s ++ 34%N :: rest) = Some (s, rest).
Proof.
  induction s as [|c r IH]; [reflexivity |].
  cbn [escape]. rewrite <- app_assoc, scanstring_escape_char.
  now rewrite IH.
Qed.

(** Characters from 128 on are written as they are. *)
Lemma escape_char_non_ascii (c : N) : (128 <= c)%N -> escape_char c = [c].
Proof.
  intros Hc. unfold escape_char.
  repeat match goal with
         | |- context [(?a =? ?b)%N] => destruct (N.eqb_spec a b); [lia |]
         | |- context [(?a <? ?b)%N] => destruct (N.ltb_spec a b); [lia |]
         end.
  reflexivity.
Qed.


(** *** Integers *)

Lemma run_length_stop (k : nat) (rest : string) :
  starts_with_digit rest = false -> run_length Digit None k rest = k.
Proof. destruct rest as [|c r]; cbn; [reflexivity | now intros ->]. Qed.

Lemma run_length_digits (u : uint) (k : nat) (rest : string) :
  starts_with_digit rest = false ->
  run_length Digit None k (NilEmpty.string_of_uint u ++ rest)
  = k + String.length (NilEmpty.string_of_uint u).
Proof.
  intros Hrest. revert k.
  induction u as [|u IH|u IH|u IH|u IH|u IH|u IH|u IH|u IH|u IH|u IH]; intros k.
  1: cbn; rewrite run_length_stop by exact Hrest; lia.
  all: cbn -[NilEmpty.string_of_uint String.append String.length].
  all: cbn [NilEmpty.string_of_uint String.append String.length run_length].
  all: match goal with
       | |- context [class_matches Digit ?c] => change (class_matches Digit c) with true
       end; cbn [within andb]; rewrite IH; lia.
Qed.

Lemma substring_append (a b : string) : substring 0 (String.length a) (a ++ b) = a.
Proof. induction a as [|x a IH]; cbn; [now destruct b | now rewrite IH]. Qed.

Lemma drop_append (a b : string) : drop (String.length a) (a ++ b) = b.
Proof. induction a as [|x a IH]; cbn; [now destruct b | exact IH]. Qed.

Lemma to_uint_head (p : positive) :
  exists c r, NilEmpty.string_of_uint (Pos.to_uint p) = String c r /\
              isdigit c = true /\ (code c =? 48)%nat = false.
Proof.
  pose proof (DecimalPos.Unsigned.to_of (Pos.to_uint p)) as Hnorm.
  rewrite DecimalPos.Unsigned.of_to in Hnorm. cbn [N.to_uint] in Hnorm.
  pose proof (DecimalPos.Unsigned.to_uint_nonnil p) as Hnil.
  destruct (Pos.to_uint p) as [|u|u|u|u|u|u|u|u|u|u] eqn:E;
    try (cbn; eexists _, _; repeat split; reflexivity).
  - contradiction.
  - exfalso. rewrite DecimalFacts.unorm_D0 in Hnorm.
    assert (Hlen : nb_digits (unorm u) <= nb_digits u).
    { destruct u; [| apply DecimalFacts.nb_digits_unorm; discriminate ..].
      now pose proof (DecimalPos.Unsigned.to_uint_nonzero p). }
    rewrite <- Hnorm in Hlen. cbn in Hlen. lia.
Qed.

Lemma str_cases (n : Z) :
  match n with
  | Z0 => str n = "0"
  | Zpos p => str n = NilEmpty.string_of_uint (Pos.to_uint p)
  | Zneg p => str n = String "-" (NilEmpty.string_of_uint (Pos.to_uint p))
  end.
Proof.
  destruct n as [|p|p]; [reflexivity | |];
    unfold str, NilZero.string_of_int, NilZero.string_of_uint; cbn [Z.to_int];
    pose proof (DecimalPos.Unsigned.to_uint_nonnil p);
    destruct (Pos.to_uint p); try reflexivity; congruence.
Qed.

Lemma of_uint_to_uint (p : positive) : Z.of_uint (Pos.to_uint p) = Zpos p.
Proof. unfold Z.of_uint. now rewrite DecimalPos.Unsigned.of_to. Qed.

Lemma all_digits_uint (u : uint) : all_digits (NilEmpty.string_of_uint u) = true.
Proof. induction u; cbn; auto. Qed.

Lemma span_digits_unicode (ds : string) (rest : ustring) :
  all_digits ds = true -> begins_with_digit rest = false ->
  span_digits (unicode ds ++ rest) = (unicode ds, rest).
Proof.
  intros Hds Hrest. induction ds as [|c r IH].
  - cbn [unicode list_ascii_of_string map List.app].
    destruct rest as [|x rest]; [reflexivity |]. cbn in Hrest |- *. now rewrite Hrest.
  - cbn [all_digits] in Hds. apply andb_true_iff in Hds as [Hc Hr].
    rewrite unicode_cons. cbn [List.app span_digits].
    now rewrite is_digit_ascii, Hc, (IH Hr).
Qed.

Lemma scan_digits_uint (p : positive) (rest : ustring) :
  begins_with_digit rest = false ->
  scan_digits (unicode (NilEmpty.string_of_uint (Pos.to_uint p)) ++ rest)
  = Some (unicode (NilEmpty.string_of_uint (Pos.to_uint p)), rest).
Proof.
  intros Hrest. destruct (to_uint_head p) as (c & r & E & Hdigit & Hzero).
  rewrite <- (span_digits_unicode _ rest (all_digits_uint _) Hrest).
  rewrite E, unicode_cons. cbn [List.app scan_digits].
  rewrite is_digit_ascii, Hdigit.
  assert (H48 : (N_of_ascii c =? 48)%N = false).
  { revert Hzero. clear. each_char c; try reflexivity; discriminate. }
  now rewrite H48.
Qed.

Lemma digits_number_uint (p : positive) :
  digits_number (unicode (NilEmpty.string_of_uint (Pos.to_uint p))) = Zpos p.
Proof.
  unfold digits_number, digits_value. rewrite ascii_text_unicode, NilEmpty.usu.
  apply of_uint_to_uint.
Qed.

Lemma scan_number_str (n : Z) (rest : ustring) :
  delimited rest = true -> scan_number (unicode (str n) ++ rest) = Some (n, rest).
Proof.
  unfold delimited. intros Hrest. apply andb_true_iff in Hrest as [Hd Hf].
  apply negb_true_iff in Hd, Hf.
  pose proof (str_cases n) as Hstr. destruct n as [|p|p]; rewrite Hstr.
  - change (scan_number (unicode "0" ++ rest))
      with (if float_tail rest then None else Some (0%Z, rest)).
    now rewrite Hf.
  - unfold scan_number.
    destruct (to_uint_head p) as (c & r & E & Hdigit & _).
    assert (H45 : (N_of_ascii c =? 45)%N = false).
    { revert Hdigit. clear. each_char c; try reflexivity; discriminate. }
    set (s := unicode (NilEmpty.string_of_uint (Pos.to_uint p)) ++ rest).
    assert (Hs : s = N_of_ascii c :: (unicode r ++ rest))
      by (unfold s; now rewrite E, unicode_cons).
    rewrite Hs, H45. rewrite <- Hs. unfold s.
    rewrite scan_digits_uint by exact Hd. rewrite Hf.
    now rewrite digits_number_uint.
  - unfold scan_number. rewrite unicode_cons. cbn [List.app].
    change (N_of_ascii "-" =? 45)%N with true. cbv iota.
    rewrite scan_digits_uint by exact Hd. rewrite Hf.
    now rewrite digits_number_uint.
Qed.

(** *** Documents *)

Lemma value_induction (P : value -> Prop) :
  (forall n, P (VInt n)) ->
  (forall s, P (VStr s)) ->
  (forall l, Forall P l -> P (VList l)) ->
  (forall d, Forall (fun kv => P (snd kv)) d -> P (VDict d)) ->
  forall v, P v.
Proof.
  intros Hint Hstr Hlist Hdict. fix IH 1. intros [n|s|l|d].
  - apply Hint.
  - apply Hstr.
  - apply Hlist. induction l as [|x l IHl]; constructor; [apply IH | exact IHl].
  - apply Hdict. induction d as [|[k x] d IHd]; constructor; [apply IH | exact IHd].
Qed.

Lemma digit_opens_value (c : N) :
  is_digit c = true ->
  opens_value c /\ (c =? 34)%N = false /\ (c =? 123)%N = false /\ (c =? 91)%N = false.
Proof.
  unfold is_digit, opens_value, is_ws. intros Hc.
  apply andb_true_iff in Hc as [Hlo Hhi].
  apply N.leb_le in Hlo, Hhi.
  repeat split;
    repeat match goal with
           | |- context [(?a =? ?b)%N] => destruct (N.eqb_spec a b); [lia |]
           end; reflexivity.
Qed.

Lemma str_head (n : Z) :
  exists c r, unicode (str n) = c :: r /\ opens_value c /\
              (c =? 34)%N = false /\ (c =? 123)%N = false /\ (c =? 91)%N = false.
Proof.
  pose proof (str_cases n) as Hstr. destruct n as [|p|p]; rewrite Hstr.
  - exists 48%N, []. repeat split; reflexivity.
  - destruct (to_uint_head p) as (c & r & -> & Hdigit & _).
    exists (N_of_ascii c), (unicode r). split; [reflexivity |].
    apply digit_opens_value. now rewrite is_digit_ascii.
  - exists 45%N, (unicode (NilEmpty.string_of_uint (Pos.to_uint p))).
    repeat split; reflexivity.
Qed.

Lemma dumps_list (l : list value) :
  dumps (VList l) = 91%N :: separated (unicode ", ") (map dumps l) ++ [93%N].
Proof. reflexivity. Qed.

Lemma dumps_dict (d : list (ustring * value)) :
  dumps (VDict d) = 123%N :: separated (unicode ", ") (map (pair_text dumps) d) ++ [125%N].
Proof. reflexivity. Qed.

Lemma dumps_head (v : value) :
  exists c r, dumps v = c :: r /\ opens_value c.
Proof.
  destruct v as [n|s|l|d].
  - destruct (str_head n) as (c & r & E & Hc & _). now exists c, r.
  - eexists _, _. split; [reflexivity |]. repeat split; reflexivity.
  - rewrite dumps_list. eexists _, _. split; [reflexivity |]. repeat split; reflexivity.
  - rewrite dumps_dict. eexists _, _. split; [reflexivity |]. repeat split; reflexivity.
Qed.

Lemma skip_ws_cons (c : N) (t : ustring) :
  is_ws c = false -> skip_ws (c :: t) = c :: t.
Proof. intros Hc. cbn. now rewrite Hc. Qed.

Lemma skip_ws_blank (t : ustring) : skip_ws (32%N :: t) = skip_ws t.
Proof. reflexivity. Qed.

Lemma skip_ws_dumps (v : value) (tail : ustring) :
  skip_ws (dumps v ++ tail) = dumps v ++ tail.
Proof.
  destruct (dumps_head v) as (c & r & -> & Hws & _). now apply skip_ws_cons.
Qed.

Lemma dumps_nonempty (v : value) : 1 <= List.length (dumps v).
Proof. destruct (dumps_head v) as (c & r & -> & _). cbn. lia. Qed.

Lemma separated_cons (sep x y : ustring) (l : list ustring) :
  separated sep (x :: y :: l) = x ++ sep ++ separated sep (y :: l).
Proof. reflexivity. Qed.

Lemma items_head (l : list value) :
  l <> [] ->
  exists c r, separated (unicode ", ") (map dumps l) = c :: r /\ opens_value c.
Proof.
  destruct l as [|v [|w l]]; [contradiction | |]; intros _;
    destruct (dumps_head v) as (c & r & E & Hc); cbn [map].
  - exists c, r. now split.
  - rewrite separated_cons, E. cbn [List.app]. eexists c, _. now split.
Qed.

Lemma delimited_comma (t : ustring) : delimited (44%N :: t) = true.
Proof. reflexivity. Qed.

Lemma delimited_bracket (t : ustring) : delimited (93%N :: t) = true.
Proof. reflexivity. Qed.

Lemma delimited_brace (t : ustring) : delimited (125%N :: t) = true.
Proof. reflexivity. Qed.

Lemma parse_items_dumps (l : list value) :
  Forall reads_back l -> l <> [] ->
  forall fuel rest,
    1 + List.length (separated (unicode ", ") (map dumps l)) <= fuel ->
    parse_items fuel (separated (unicode ", ") (map dumps l) ++ 93%N :: rest)
    = Some (l, rest).
Proof.
  induction 1 as [|v l Hv Hl IH]; intros Hne fuel rest Hfuel; [contradiction |].
  destruct fuel as [|fuel]; [lia |]. cbn [parse_items].
  destruct l as [|w l].
  - cbn [map separated] in *.
    rewrite (Hv fuel (93%N :: rest)) by (trivial using delimited_bracket; lia).
    reflexivity.
  - cbn [map] in *. rewrite separated_cons in *. rewrite !length_app in Hfuel.
    change (unicode ", ") with [44; 32]%N in *. cbn [List.length] in Hfuel.
    rewrite <- !app_assoc. cbn [List.app].
    rewrite (Hv fuel) by (trivial using delimited_comma; lia).
    rewrite skip_ws_cons by reflexivity.
    cbn [N.eqb Pos.eqb]. rewrite skip_ws_blank.
    destruct (items_head (w :: l)) as (c & r & E & Hws & _); [discriminate |].
    cbn [map] in E. change (unicode ", ") with [44; 32]%N in E.
    rewrite E. cbn [List.app]. rewrite skip_ws_cons by exact Hws.
    change (c :: r ++ 93%N :: rest) with ((c :: r) ++ 93%N :: rest).
    rewrite <- E. rewrite IH; [reflexivity | discriminate | lia].
Qed.

Lemma scan_key (k rest : ustring) :
  exists r, encode_basestring k ++ rest = 34%N :: r /\
            scanstring r = Some (k, rest).
Proof.
  exists (escape k ++ 34%N :: rest). split.
  - unfold encode_basestring. cbn [List.app]. now rewrite <- app_assoc.
  - apply scanstring_escape.
Qed.

Lemma pairs_head (d : list (ustring * value)) :
  d <> [] ->
  exists r, separated (unicode ", ") (map (pair_text dumps) d) = 34%N :: r.
Proof.
  destruct d as [|[k x] [|kv d]]; [contradiction | |]; intros _; cbn [map].
  - cbn [separated]. unfold pair_text, encode_basestring. cbn [fst List.app]. eauto.
  - rewrite separated_cons. unfold pair_text at 1, encode_basestring. cbn [fst List.app].
    eauto.
Qed.

Lemma parse_pairs_dumps (d : list (ustring * value)) :
  Forall (fun kv => reads_back (snd kv)) d -> d <> [] ->
  forall fuel rest,
    1 + List.length (separated (unicode ", ") (map (pair_text dumps) d)) <= fuel ->
    parse_pairs fuel (separated (unicode ", ") (map (pair_text dumps) d) ++ 125%N :: rest)
    = Some (d, rest).
Proof.
  induction 1 as [|[k x] d Hx Hd IH]; intros Hne fuel rest Hfuel; [contradiction |].
  destruct fuel as [|fuel]; [lia |]. cbn [snd] in *.
  assert (Hstep : forall tail,
    delimited tail = true ->
    List.length (dumps x) <= fuel ->
    exists r, pair_text dumps (k, x) ++ tail = 34%N :: r /\
              scanstring r = Some (k, 58%N :: 32%N :: dumps x ++ tail) /\
              scan_once fuel (skip_ws (32%N :: dumps x ++ tail)) = Some (x, tail)).
  { intros tail Htail Hlen. unfold pair_text. cbn [fst snd].
    change (unicode ": ") with [58; 32]%N. rewrite <- !app_assoc. cbn [List.app].
    destruct (scan_key k (58%N :: 32%N :: dumps x ++ tail)) as (r & E & Hscan).
    exists r. repeat split; [exact E | exact Hscan |].
    rewrite skip_ws_blank, skip_ws_dumps. now apply Hx. }
  assert (Hlen : List.length (pair_text dumps (k, x))
                 = 4 + List.length (escape k) + List.length (dumps x)).
  { unfold pair_text, encode_basestring. cbn [fst snd].
    change (unicode ": ") with [58; 32]%N.
    cbn [List.length List.app]. rewrite !length_app. cbn [List.length]. lia. }
  destruct d as [|kv d].
  - cbn [map separated] in *.
    destruct (Hstep (125%N :: rest)) as (r & E & Hkey & Hscan); [reflexivity | lia |].
    rewrite E. cbn [parse_pairs]. cbn [N.eqb Pos.eqb]. rewrite Hkey.
    rewrite skip_ws_cons by reflexivity. cbn [N.eqb Pos.eqb].
    rewrite Hscan. reflexivity.
  - cbn [map] in *. rewrite separated_cons in *. rewrite !length_app in Hfuel.
    change (unicode ", ") with [44; 32]%N in *. cbn [List.length] in Hfuel.
    rewrite <- !app_assoc. cbn [List.app].
    destruct (Hstep (44%N :: 32%N ::
                separated [44; 32]%N (pair_text dumps kv :: map (pair_text dumps) d)
                ++ 125%N :: rest))
      as (r & E & Hkey & Hscan); [reflexivity | lia |].
    rewrite E. cbn [parse_pairs]. cbn [N.eqb Pos.eqb]. rewrite Hkey.
    rewrite skip_ws_cons by reflexivity. cbn [N.eqb Pos.eqb].
    rewrite Hscan. rewrite skip_ws_cons by reflexivity.
    cbn [N.eqb Pos.eqb]. rewrite skip_ws_blank.
    destruct (pairs_head (kv :: d)) as (r' & E'); [discriminate |].
    cbn [map] in E'. change (unicode ", ") with [44; 32]%N in E'.
    rewrite E'. cbn [List.app]. rewrite skip_ws_cons by reflexivity.
    change (34%N :: r' ++ 125%N :: rest) with ((34%N :: r') ++ 125%N :: rest).
    rewrite <- E'.
    change (pair_text dumps kv :: map (pair_text dumps) d)
      with (map (pair_text dumps) (kv :: d)) in *.
    change [44; 32]%N with (unicode ", ") in *.
    rewrite IH; [reflexivity | discriminate | lia].
Qed.

Lemma dict_set_fresh (k : ustring) (v : value) (d : list (ustring * value)) :
  existsb (ueqb k) (map fst d) = false ->
  dict_set k v d = d ++ [(k, v)].
Proof.
  induction d as [|[k' v'] d IH]; cbn; intros Hk; [reflexivity |].
  apply orb_false_iff in Hk as [-> Hk]. now rewrite IH.
Qed.

Lemma fold_dict_set (d acc : list (ustring * value)) :
  distinct (map fst d) = true ->
  (forall k, In k (map fst d) -> existsb (ueqb k) (map fst acc) = false) ->
  fold_left (fun a kv => dict_set (fst kv) (snd kv) a) d acc = acc ++ d.
Proof.
  revert acc. induction d as [|[k v] d IH]; intros acc Hd Hacc; cbn [fold_left].
  - now rewrite app_nil_r.
  - cbn [map fst snd distinct] in *. apply andb_true_iff in Hd as [Hk Hd].
    apply negb_true_iff in Hk.
    rewrite dict_set_fresh by (apply Hacc; now left).
    rewrite IH; [now rewrite <- app_assoc | exact Hd |].
    intros k' Hk'. rewrite map_app, existsb_app. cbn [map fst existsb].
    rewrite Hacc by now right. cbn.
    destruct (ueqb k' k) eqn:Heq; [| reflexivity].
    apply ueqb_eq in Heq. subst k'.
    exfalso. clear - Hk Hk'. induction (map fst d) as [|a l IHl]; [contradiction |].
    cbn in Hk. apply orb_false_iff in Hk as [Ha Hl].
    destruct Hk' as [-> | Hin]; [now rewrite ueqb_refl in Ha | auto].
Qed.

(** [dict(pairs)] changes nothing when no key repeats. *)
Lemma dict_of_pairs_distinct (d : list (ustring * value)) :
  distinct (map fst d) = true -> dict_of_pairs d = d.
Proof.
  intros Hd. unfold dict_of_pairs. now rewrite fold_dict_set.
Qed.

(** Every value without a repeated key reads back from its dump. *)
Lemma dumps_reads_back (v : value) : well_formed v = true -> reads_back v.
Proof.
  induction v as [n|s|l IH|d IH] using value_induction; intros Hwf fuel tail Hfuel Htail;
    (destruct fuel as [|fuel];
     [exfalso;
      match goal with
      | H : List.length (dumps ?v) <= 0 |- _ => pose proof (dumps_nonempty v); lia
      end |]).
  - cbn [dumps] in *. destruct (str_head n) as (c & r & E & _ & H34 & H123 & H91).
    set (s := unicode (str n) ++ tail).
    assert (Hs : s = c :: (r ++ tail)) by (unfold s; now rewrite E).
    cbn [scan_once]. rewrite Hs, H34, H123, H91. rewrite <- Hs. unfold s.
    now rewrite scan_number_str.
  - cbn [dumps]. destruct (scan_key s tail) as (r & -> & Hkey).
    cbn [scan_once]. cbn [N.eqb Pos.eqb]. now rewrite Hkey.
  - rewrite dumps_list in *. cbn [List.app scan_once List.length] in *.
    cbn [N.eqb Pos.eqb]. rewrite <- app_assoc. cbn [List.app].
    destruct l as [|v l].
    + reflexivity.
    + destruct (items_head (v :: l)) as (c & r & E & Hws & H93 & _); [discriminate |].
      set (t := separated (unicode ", ") (map dumps (v :: l)) ++ 93%N :: tail).
      assert (Ht : t = c :: (r ++ 93%N :: tail)) by (unfold t; now rewrite E).
      rewrite Ht. rewrite skip_ws_cons by exact Hws. rewrite H93. rewrite <- Ht. unfold t.
      rewrite length_app in Hfuel. cbn [List.length] in Hfuel.
      rewrite parse_items_dumps; [reflexivity | | discriminate | lia].
      cbn [well_formed] in Hwf. rewrite forallb_forall in Hwf.
      rewrite Forall_forall in IH |- *. intros x Hx. apply IH; auto.
  - rewrite dumps_dict in *. cbn [List.app scan_once List.length] in *.
    cbn [N.eqb Pos.eqb]. rewrite <- app_assoc. cbn [List.app].
    cbn [well_formed] in Hwf. apply andb_true_iff in Hwf as [Hkeys Hwf].
    destruct d as [|kv d].
    + reflexivity.
    + destruct (pairs_head (kv :: d)) as (r & E); [discriminate |].
      set (t := separated (unicode ", ") (map (pair_text dumps) (kv :: d)) ++ 125%N :: tail).
      assert (Ht : t = 34%N :: (r ++ 125%N :: tail)) by (unfold t; now rewrite E).
      rewrite Ht. rewrite skip_ws_cons by reflexivity. cbn [N.eqb Pos.eqb].
      rewrite <- Ht. unfold t.
      rewrite length_app in Hfuel. cbn [List.length] in Hfuel.
      rewrite parse_pairs_dumps; [| | discriminate | lia].
      * now rewrite dict_of_pairs_distinct.
      * rewrite forallb_forall in Hwf.
        rewrite Forall_forall in IH |- *. intros x Hx. apply IH; auto.
Qed.

(** [json.loads(json.dumps(v)) == v] *)
Lemma loads_dumps (v : value) : well_formed v = true -> loads (dumps v) = Some v.
Proof.
  intros Hwf. unfold loads.
  pose proof (skip_ws_dumps v []) as Hskip. rewrite app_nil_r in Hskip.
  pose proof (dumps_reads_back v Hwf (S (List.length (dumps v))) []
                (Nat.le_succ_diag_r _) eq_refl) as Hread.
  rewrite app_nil_r in Hread. now rewrite Hskip, Hread.
Qed.

Lemma load_of_dump (v : value) (content : list Byte.byte) :
  well_formed v = true -> utf8_encode (dumps v) = Some content ->
  load content = Some v.
Proof.
  intros Hwf Henc. unfold load. rewrite (utf8_decode_encode _ _ Henc).
  now apply loads_dumps.
Qed.

(** *** What reaches the file *)

Lemma utf8_encode_char_scalar (c : N) :
  match utf8_encode_char c with
  | Some _ => is_scalar c = true
  | None => is_scalar c = false
  end.
Proof.
  unfold utf8_encode_char, is_scalar, is_surrogate.
  destruct (N.ltb_spec c 0x80); [decide_tests; reflexivity |].
  destruct (N.ltb_spec c 0x800); [decide_tests; reflexivity |].
  destruct (N.ltb_spec c 0x10000).
  { destruct (N.leb_spec 0xD800 c); destruct (N.leb_spec c 0xDFFF); cbn [andb negb];
      decide_tests; reflexivity. }
  destruct (N.ltb_spec c 0x110000); decide_tests; reflexivity.
Qed.

Lemma utf8_encode_scalar (s : ustring) :
  match utf8_encode s with
  | Some _ => forallb is_scalar s = true
  | None => forallb is_scalar s = false
  end.
Proof.
  induction s as [|c r IH]; [reflexivity |]. cbn [utf8_encode forallb].
  pose proof (utf8_encode_char_scalar c) as Hc.
  destruct (utf8_encode_char c); rewrite Hc; [| reflexivity].
  destruct (utf8_encode r); exact IH.
Qed.

Lemma utf8_encode_app (a b : ustring) :
  utf8_encode (a ++ b)
  = match utf8_encode a, utf8_encode b with
    | Some x, Some y => Some (x ++ y)
    | _, _ => None
    end.
Proof.
  induction a as [|c a IH]; cbn [List.app utf8_encode].
  - now destruct (utf8_encode b).
  - rewrite IH. destruct (utf8_encode_char c) as [bc|]; [| reflexivity].
    destruct (utf8_encode a) as [x|]; [| reflexivity].
    destruct (utf8_encode b) as [y|]; [| reflexivity].
    now rewrite app_assoc.
Qed.

(** The pieces written one after the other are the encoding of the whole
    text when every piece can be encoded, and stop short otherwise. *)
Lemma write_chunks_concat (chunks : list ustring) :
  match utf8_encode (List.concat chunks) with
  | Some b => write_chunks chunks = (b, true)
  | None => snd (write_chunks chunks) = false
  end.
Proof.
  induction chunks as [|c r IH]; [reflexivity |].
  cbn [List.concat write_chunks]. rewrite utf8_encode_app.
  destruct (utf8_encode c) as [bc|]; [| reflexivity].
  destruct (utf8_encode (List.concat r)) as [br|].
  - now rewrite IH.
  - destruct (write_chunks r) as [bs complete]. exact IH.
Qed.

Lemma scalar_chunk_dumps (x : value) :
  match scalar_chunk x with
  | Some t => t = dumps x /\ iterencode x = [t]
  | None => True
  end.
Proof. destruct x; cbn; auto. Qed.

Lemma list_chunks_concat (l : list value) :
  Forall (fun x => List.concat (iterencode x) = dumps x) l ->
  forall first,
    List.concat (list_chunks iterencode first l)
    = match l with
      | [] => []
      | _ => (if first then unicode "[" else unicode ", ")
             ++ separated (unicode ", ") (map dumps l)
      end.
Proof.
  induction 1 as [|x r Hx Hr IH]; intros first; [reflexivity |].
  cbn [list_chunks]. cbv zeta. rewrite concat_app, (IH false).
  pose proof (scalar_chunk_dumps x) as Hs.
  destruct (scalar_chunk x) as [t|]; [destruct Hs as [-> _] |];
    cbn [List.concat List.app]; rewrite ?app_nil_r, ?Hx;
    (destruct r as [|y r]; cbn [map];
     [cbn [separated]; now rewrite ?app_nil_r
     | rewrite separated_cons; now rewrite <- !app_assoc]).
Qed.

Lemma dict_chunks_concat (d : list (ustring * value)) :
  Forall (fun kv => List.concat (iterencode (snd kv)) = dumps (snd kv)) d ->
  forall first,
    List.concat (dict_chunks iterencode first d)
    = match d with
      | [] => []
      | _ => (if first then [] else unicode ", ")
             ++ separated (unicode ", ") (map (pair_text dumps) d)
      end.
Proof.
  induction 1 as [|[k x] r Hx Hr IH]; intros first; [reflexivity |].
  cbn [dict_chunks snd] in *.
  destruct first; cbn [List.concat List.app]; rewrite concat_app, Hx, (IH false);
    (destruct r as [|y r]; cbn [map];
     [cbn [separated]; unfold pair_text; cbn [fst snd]; now rewrite ?app_nil_r
     | rewrite separated_cons;
       change (pair_text dumps (k, x))
         with (encode_basestring k ++ unicode ": " ++ dumps x);
       now rewrite <- !app_assoc]).
Qed.

(** The pieces of [iterencode] make up the text of [dumps]. *)
Lemma concat_iterencode (v : value) : List.concat (iterencode v) = dumps v.
Proof.
  induction v as [n|s|l IH|d IH] using value_induction.
  - cbn. now rewrite app_nil_r.
  - cbn [iterencode List.concat dumps]. now rewrite app_nil_r.
  - destruct l as [|x l]; [reflexivity |].
    cbn [iterencode]. rewrite concat_app, (list_chunks_concat _ IH true).
    cbn [List.concat]. rewrite app_nil_r. cbn [dumps]. now rewrite <- !app_assoc.
  - destruct d as [|kv d]; [reflexivity |].
    cbn [iterencode List.concat]. rewrite concat_app, (dict_chunks_concat _ IH true).
    cbn [List.concat]. rewrite app_nil_r. cbn [dumps List.app]. reflexivity.
Qed.

Lemma scalar_unicode (s : string) : forallb is_scalar (unicode s) = true.
Proof.
  unfold unicode. induction s as [|c s IH]; [reflexivity |].
  cbn [list_ascii_of_string map forallb]. rewrite IH, andb_true_r.
  pose proof (N_ascii_bounded c). unfold is_scalar, is_surrogate.
  decide_tests; reflexivity.
Qed.

Lemma scalar_escape_char (c : N) :
  forallb is_scalar (escape_char c) = is_scalar c.
Proof.
  unfold escape_char.
  destruct (N.eqb_spec c 34) as [-> | H34]; [reflexivity |].
  destruct (N.eqb_spec c 92) as [-> | H92]; [reflexivity |].
  destruct (N.eqb_spec c 10) as [-> | H10]; [reflexivity |].
  destruct (N.eqb_spec c 13) as [-> | H13]; [reflexivity |].
  destruct (N.eqb_spec c 9) as [-> | H9]; [reflexivity |].
  destruct (N.eqb_spec c 8) as [-> | H8]; [reflexivity |].
  destruct (N.eqb_spec c 12) as [-> | H12]; [reflexivity |].
  destruct (N.ltb_spec c 32) as [Hlt | Hge].
  - rewrite forallb_app, scalar_unicode. cbn [forallb andb].
    divmod c 16%N. unfold hex_digit, is_scalar, is_surrogate.
    decide_tests; reflexivity.
  - cbn [forallb]. now rewrite andb_true_r.
Qed.

Lemma scalar_escape (s : ustring) :
  forallb is_scalar (escape s) = forallb is_scalar s.
Proof.
  induction s as [|c r IH]; [reflexivity |].
  cbn [escape forallb]. now rewrite forallb_app, scalar_escape_char, IH.
Qed.

Lemma scalar_basestring (s : ustring) :
  forallb is_scalar (encode_basestring s) = forallb is_scalar s.
Proof.
  unfold encode_basestring. cbn [forallb]. rewrite forallb_app, scalar_escape.
  cbn. now rewrite andb_true_r.
Qed.

Lemma scalar_separated (sep : ustring) (l : list ustring) :
  forallb is_scalar sep = true ->
  forallb is_scalar (separated sep l) = forallb (forallb is_scalar) l.
Proof.
  intros Hsep. induction l as [|x l IH]; [reflexivity |].
  destruct l as [|y l].
  - cbn. now rewrite andb_true_r.
  - rewrite separated_cons, !forallb_app, Hsep, IH. reflexivity.
Qed.

(** The text of a document can be encoded exactly when its strings can. *)
Lemma scalar_dumps (v : value) : forallb is_scalar (dumps v) = storable v.
Proof.
  induction v as [n|s|l IH|d IH] using value_induction.
  - apply scalar_unicode.
  - apply scalar_basestring.
  - rewrite dumps_list. cbn [forallb storable].
    rewrite forallb_app, scalar_separated by reflexivity.
    cbn. rewrite andb_true_r. induction IH as [|x l Hx Hl IHl]; [reflexivity |].
    cbn [map forallb]. now rewrite Hx, IHl.
  - rewrite dumps_dict. cbn [forallb storable].
    rewrite forallb_app, scalar_separated by reflexivity.
    cbn. rewrite andb_true_r. induction IH as [|[k x] d Hx Hd IHd]; [reflexivity |].
    cbn [map forallb fst snd] in *. rewrite IHd. f_equal.
    unfold pair_text. cbn [fst snd].
    now rewrite !forallb_app, scalar_basestring, scalar_unicode, Hx.
Qed.

Lemma storable_encodes (v : value) :
  storable v = true -> exists content, utf8_encode (dumps v) = Some content.
Proof.
  intros Hv. pose proof (utf8_encode_scalar (dumps v)) as Henc.
  destruct (utf8_encode (dumps v)) as [content|]; [now exists content |].
  rewrite scalar_dumps in Henc. congruence.
Qed.

Lemma unstorable_fails (v : value) :
  storable v = false -> utf8_encode (dumps v) = None.
Proof.
  intros Hv. pose proof (utf8_encode_scalar (dumps v)) as Henc.
  destruct (utf8_encode (dumps v)) as [content|]; [| reflexivity].
  rewrite scalar_dumps in Henc. congruence.
Qed.

(** [json.dump] on a document that can be encoded writes its whole text. *)
Lemma write_document (v : value) (content : list Byte.byte) :
  utf8_encode (dumps v) = Some content ->
  write_chunks (iterencode v) = (content, true).
Proof.
  intros Henc. pose proof (write_chunks_concat (iterencode v)) as Hw.
  now rewrite concat_iterencode, Henc in Hw.
Qed.

Lemma write_document_fails (v : value) :
  utf8_encode (dumps v) = None -> snd (write_chunks (iterencode v)) = false.
Proof.
  intros Henc. pose proof (write_chunks_concat (iterencode v)) as Hw.
  now rewrite concat_iterencode, Henc in Hw.
Qed.

(** [json.dump] returns exactly on the documents whose strings can be
    encoded. *)
Lemma write_chunks_storable (v : value) :
  write_chunks (iterencode v) = (written v, storable v).
Proof.
  unfold written. destruct (storable v) eqn:Hv.
  - destruct (storable_encodes v Hv) as (content & Henc).
    now rewrite (write_document v content Henc).
  - pose proof (write_document_fails v (unstorable_fails v Hv)) as Hw.
    destruct (write_chunks (iterencode v)) as [bs complete]. cbn in Hw |- *.
    now subst complete.
Qed.

Lemma written_storable (v : value) :
  storable v = true -> utf8_encode (dumps v) = Some (written v).
Proof.
  intros Hv. destruct (storable_encodes v Hv) as (content & Henc).
  unfold written. now rewrite (write_document v content Henc).
Qed.

(** *** The written text *)

Lemma printable_app (a b : ustring) :
  printable (a ++ b) = printable a && printable b.
Proof. induction a as [|c a IH]; cbn; [reflexivity | now rewrite IH, andb_assoc]. Qed.

Lemma printable_unicode (s : string) :
  Forall (fun c => 32 <= nat_of_ascii c) (list_ascii_of_string s) ->
  printable (unicode s) = true.
Proof.
  unfold unicode. induction 1 as [|c l Hc Hl IH]; [reflexivity |].
  cbn [map printable]. rewrite IH, andb_true_r.
  apply N.leb_le. unfold nat_of_ascii in Hc. lia.
Qed.

Lemma printable_escape_char (c : N) : printable (escape_char c) = true.
Proof.
  unfold escape_char.
  repeat match goal with
         | |- context [(c =? ?b)%N] => destruct (N.eqb_spec c b); [reflexivity |]
         end.
  destruct (N.ltb_spec c 32) as [Hlt | Hge].
  - rewrite printable_app. cbn [printable andb].
    change (printable (unicode "\u00")) with true. cbn [andb].
    divmod c 16%N. unfold hex_digit. decide_tests; reflexivity.
  - cbn [printable]. rewrite andb_true_r. now apply N.leb_le.
Qed.

Lemma printable_escape (s : ustring) : printable (escape s) = true.
Proof.
  induction s as [|c r IH]; [reflexivity |]. cbn [escape].
  now rewrite printable_app, printable_escape_char, IH.
Qed.

Lemma printable_basestring (s : ustring) : printable (encode_basestring s) = true.
Proof.
  unfold encode_basestring. cbn [printable]. rewrite printable_app, printable_escape.
  reflexivity.
Qed.

Lemma printable_digits (ds : string) :
  all_digits ds = true -> printable (unicode ds) = true.
Proof.
  intros Hds. apply printable_unicode.
  induction ds as [|c r IH]; [constructor |]. cbn [all_digits] in Hds.
  apply andb_true_iff in Hds as [Hc Hr]. cbn [list_ascii_of_string].
  constructor; [| now apply IH].
  unfold isdigit, code in Hc. apply andb_true_iff in Hc as [Hlo _].
  apply Nat.leb_le in Hlo. lia.
Qed.

Lemma printable_str (n : Z) : printable (unicode (str n)) = true.
Proof.
  pose proof (str_cases n) as Hstr. destruct n as [|p|p]; rewrite Hstr.
  - reflexivity.
  - apply printable_digits, all_digits_uint.
  - rewrite unicode_cons. cbn [printable].
    now rewrite (printable_digits _ (all_digits_uint _)).
Qed.

Lemma printable_separated (l : list ustring) :
  Forall (fun x => printable x = true) l -> printable (separated (unicode ", ") l) = true.
Proof.
  induction 1 as [|x l Hx Hl IH]; [reflexivity |].
  destruct l as [|y l]; [exact Hx |].
  rewrite separated_cons, !printable_app, Hx, IH. reflexivity.
Qed.

(** X21. The text of a dumped document holds no control character: no raw
    line break, tab or other character below 32, so the file is one
    line. *)
Theorem dumps_printable (v : value) : printable (dumps v) = true.
Proof.
  induction v as [n|s|l IH|d IH] using value_induction.
  - apply printable_str.
  - apply printable_basestring.
  - rewrite dumps_list. cbn [printable]. rewrite printable_app, printable_separated.
    + reflexivity.
    + rewrite Forall_map. exact IH.
  - rewrite dumps_dict. cbn [printable]. rewrite printable_app, printable_separated.
    + reflexivity.
    + rewrite Forall_map. eapply Forall_impl; [| exact IH].
      intros [k x] Hx. cbn [snd] in Hx. unfold pair_text. cbn [fst snd].
      now rewrite !printable_app, printable_basestring, Hx.
Qed.

Local Open Scope string_scope.

(** ** Writing the document *)

(** The UTF-8 forms of one to four bytes: "A", the sharp s, the euro sign
    and U+1F69A; a surrogate has none. *)
Example utf8_encode_forms :
  utf8_encode [65]%N = Some [Byte.x41] /\
  utf8_encode [223]%N = Some [Byte.xc3; Byte.x9f] /\
  utf8_encode [8364]%N = Some [Byte.xe2; Byte.x82; Byte.xac] /\
  utf8_encode [128666]%N = Some [Byte.xf0; Byte.x9f; Byte.x9a; Byte.x9a] /\
  utf8_encode [55357]%N = None /\
  utf8_decode [Byte.xe2; Byte.x82; Byte.xac] = Some [8364]%N /\
  utf8_decode [Byte.xc0; Byte.x80] = None /\
  utf8_decode [Byte.xed; Byte.xa0; Byte.x80] = None.
Proof. repeat split. Qed.

(** The text written for a record with a quotation mark, a line feed, a
    sharp s and a euro sign. *)
Example dumps_text :
  dumps (VDict [(unicode "id", VInt 7);
                (unicode "title", VStr ([34; 10; 223; 8364]%N))])
  = (unicode "{" ++ [34%N] ++ unicode "id" ++ [34%N] ++ unicode ": 7, "
     ++ [34%N] ++ unicode "title" ++ [34%N] ++ unicode ": "
     ++ [34; 92; 34; 92; 110; 223; 8364; 34]%N ++ unicode "}")%list.
Proof. reflexivity. Qed.

(** A document with a text that cannot be encoded: the call raises, and
    the file keeps the pieces written before that text. *)
Lemma save_json_data_unencodable (data_dict : value) (path : string) (st : state) :
  storable data_dict = false ->
  save_json_data data_dict path st
  = (Raise UnicodeEncodeError, log (WriteFile path (written data_dict)) st).
Proof.
  intros Hst. unfold save_json_data. rewrite write_chunks_storable, Hst. reflexivity.
Qed.

Example save_json_data_lone_surrogate :
  save_json_data (VDict [(unicode "ads", VList [VStr [55357%N]])]) "data/data.json"
                 (init "data")
  = (Raise UnicodeEncodeError,
     log (WriteFile "data/data.json"
            [Byte.x7b; Byte.x22; Byte.x61; Byte.x64; Byte.x73; Byte.x22; Byte.x3a; Byte.x20])
         (init "data")).
Proof. reflexivity. Qed.

(** C6. What [__save_json_data] writes is the UTF-8 encoding of the dump
    of the document, and reading the file back gives the document itself,
    records and fields in their order.  Characters from 128 on, whatever
    their code point, are written as they are, not as [\uXXXX] escapes.
    ([well_formed]: a Python dict holds each key once.  [storable]: the
    texts of the document are made of Unicode scalar values, as every text
    decoded from a page is; a lone surrogate cannot be written to a UTF-8
    file.) *)
Theorem save_json_data_round_trip (data_dict : value) (path : string) (st : state) :
  well_formed data_dict = true ->
  storable data_dict = true ->
  exists content,
    save_json_data data_dict path st = (Ok tt, log (WriteFile path content) st) /\
    utf8_encode (dumps data_dict) = Some content /\
    utf8_decode content = Some (dumps data_dict) /\
    load content = Some data_dict /\
    (forall c, (128 <= c)%N -> escape_char c = [c]).
Proof.
  intros Hwf Hst. exists (written data_dict).
  pose proof (written_storable data_dict Hst) as Henc.
  split; [| split; [exact Henc | split; [| split]]].
  - unfold save_json_data. now rewrite write_chunks_storable, Hst.
  - now apply utf8_decode_encode.
  - now apply load_of_dump.
  - apply escape_char_non_ascii.
Qed.

Lemma save_json_data_round_trip_witness :
  let document :=
    VDict [(unicode "ads",
            VList [VDict [(unicode "id", VInt 1);
                          (unicode "title", VStr (unicode "Renault Master"));
                          (unicode "color", VStr (unicode Dom.weiss));
                          (unicode "description",
                           VStr ([8364; 32; 49; 50; 32; 128666]%N))];
                   VDict [(unicode "id", VInt 2);
                          (unicode "title", VStr (unicode ""));
                          (unicode "color", VStr (unicode ""))]])] in
  well_formed document = true /\
  storable document = true /\
  exists content,
    save_json_data document "data/data.json" (init "data")
    = (Ok tt, log (WriteFile "data/data.json" content) (init "data")) /\
    utf8_encode (dumps document) = Some content /\
    load content = Some document.
Proof.
  cbv zeta. split; [reflexivity |]. split; [reflexivity |].
  destruct (save_json_data_round_trip
              (VDict [(unicode "ads",
                       VList [VDict [(unicode "id", VInt 1);
                                     (unicode "title", VStr (unicode "Renault Master"));
                                     (unicode "color", VStr (unicode Dom.weiss));
                                     (unicode "description",
                                      VStr ([8364; 32; 49; 50; 32; 128666]%N))];
                              VDict [(unicode "id", VInt 2);
                                     (unicode "title", VStr (unicode ""));
                                     (unicode "color", VStr (unicode ""))]])])
              "data/data.json" (init "data") eq_refl eq_refl)
    as (content & Hsave & Henc & _ & Hload & _).
  exists content. split; [exact Hsave |]. split; [exact Henc | exact Hload].
Defined.

(** ** Numeric normalisation *)

(** Texts the pattern and [int] agree on: the grouping dot is dropped, a
    blank after the digits is harmless, a second dot ends the match. *)
Lemma convert_str_to_int_examples :
  convert_str_to_int "12.345 km" = Ok 12345%Z /\
  convert_str_to_int "EUR 8.900" = Ok 8900%Z /\
  convert_str_to_int "150 km" = Ok 150%Z /\
  convert_str_to_int "1.234.567" = Ok 1234%Z.
Proof. repeat split; reflexivity. Qed.

(** [int] skips the whitespace of ASCII, U+0085 and U+00A0 around the
    literal, and not the separators U+001C to U+001F, which [str.strip]
    removes. *)
Example int_whitespace :
  int " 12 " = Ok 12%Z /\
  int ("12" ++ String (ascii_of_nat 160) "") = Ok 12%Z /\
  int ("12" ++ String (ascii_of_nat 133) "") = Ok 12%Z /\
  int ("12" ++ String (ascii_of_nat 28) "") = Raise ValueError /\
  int ("12" ++ String (ascii_of_nat 31) "") = Raise ValueError /\
  int (String (ascii_of_nat 28) "12") = Raise ValueError /\
  strip ("12" ++ String (ascii_of_nat 28) "") = "12".
Proof. repeat split. Qed.

Lemma search_number_no_digit (text : string) :
  has_digit text = false -> search NUMBER_RE text = None.
Proof.
  induction text as [|c r IH]; intros Hd.
  - reflexivity.
  - simpl in Hd. apply orb_false_iff in Hd as [Hc Hr].
    cbn [search NUMBER_RE match_here cls lo hi run_length within andb class_matches].
    rewrite Hc. cbn. apply IH, Hr.
Qed.

(** X1. Text without a digit is normalised to 0. *)
Lemma convert_str_to_int_no_digit (text : string) :
  has_digit text = false -> convert_str_to_int text = Ok 0%Z.
Proof.
  intros Hd. unfold convert_str_to_int. now rewrite search_number_no_digit.
Qed.

(** C2. Numeric normalisation is meant to return, for every string, the
    integer of its first digit run (with an optional separator and more
    digits): on "120kW" the pattern takes "120k", [int] refuses it, and the
    call ends in [ValueError] instead of returning 120; the same happens on
    "12,5 t" and on "12. km". *)
Theorem convert_str_to_int_raises_on_120kW :
  search NUMBER_RE "120kW" = Some "120k" /\
  convert_str_to_int "120kW" = Raise ValueError /\
  convert_str_to_int "12,5 t" = Raise ValueError /\
  convert_str_to_int "12. km" = Raise ValueError.
Proof. repeat split; reflexivity. Qed.

(** ** Label/value lookup *)

Section Lookup.

Context {Tag : Type} `{Soup Tag}.
Variables param_name param_class value_class : string.

Lemma get_div_param_cons (tag : Tag) (rest : list Tag) :
  get_div_param (tag :: rest) param_name param_class value_class
  = if String.eqb (div_text param_class tag) param_name
    then div_text value_class tag
    else get_div_param rest param_name param_class value_class.
Proof. reflexivity. Qed.

Lemma get_div_param_no_match (tags : list Tag) :
  Forall (fun tag => div_text param_class tag <> param_name) tags ->
  get_div_param tags param_name param_class value_class = "".
Proof.
  induction 1 as [|tag rest Hne _ IH]; [reflexivity |].
  rewrite get_div_param_cons. now apply String.eqb_neq in Hne as ->.
Qed.

Lemma get_div_param_skips (pre tags : list Tag) :
  Forall (fun tag => div_text param_class tag <> param_name) pre ->
  get_div_param (pre ++ tags)%list param_name param_class value_class
  = get_div_param tags param_name param_class value_class.
Proof.
  induction 1 as [|tag rest Hne _ IH]; [reflexivity |].
  cbn [List.app]. rewrite get_div_param_cons. now apply String.eqb_neq in Hne as ->.
Qed.

Lemma get_div_param_walk (tags : list Tag) :
  (exists pre tag post,
      tags = (pre ++ tag :: post)%list /\
      Forall (fun t => div_text param_class t <> param_name) pre /\
      div_text param_class tag = param_name /\
      get_div_param tags param_name param_class value_class = div_text value_class tag)
  \/ (Forall (fun t => div_text param_class t <> param_name) tags /\
      get_div_param tags param_name param_class value_class = "").
Proof.
  induction tags as [|tag rest IH].
  - right. split; [constructor | reflexivity].
  - destruct (String.eqb_spec (div_text param_class tag) param_name) as [Heq | Hne].
    + left. exists [], tag, rest. repeat split; [constructor | exact Heq |].
      rewrite get_div_param_cons. apply String.eqb_eq in Heq. now rewrite Heq.
    + destruct IH as [(pre & t & post & -> & Hpre & Hlab & Hres) | [Hall Hres]].
      * left. exists (tag :: pre), t, post. repeat split; auto.
        change (tag :: pre ++ t :: post)%list with ([tag] ++ pre ++ t :: post)%list.
        rewrite get_div_param_skips by (constructor; auto). exact Hres.
      * right. split; [constructor; auto |].
        apply get_div_param_no_match. constructor; auto.
Qed.

(** C3. The lookup walks the candidates in document order.  The label of a
    candidate is the text of its first [div] of the label class with the
    whitespace at both ends removed (empty when it has none), its value
    that of its first [div] of the value class.  Either some candidate's
    label equals the target, none before it does, and the result is the
    value of that first one (whatever comes after it, a second occurrence
    of the label included); or no label equals the target and the result
    is the empty string. *)
Theorem get_div_param_first_match (tags : list Tag) :
  let trimmed_text (class : string) (t : Tag) : string :=
    match find t "div" [("class", class)] with
    | Some d => strip (get_text d)
    | None => ""
    end in
  (exists pre tag post,
      tags = (pre ++ tag :: post)%list /\
      Forall (fun t => trimmed_text param_class t <> param_name) pre /\
      trimmed_text param_class tag = param_name /\
      get_div_param tags param_name param_class value_class
      = trimmed_text value_class tag)
  \/ (Forall (fun t => trimmed_text param_class t <> param_name) tags /\
      get_div_param tags param_name param_class value_class = "").
Proof. cbv zeta. exact (get_div_param_walk tags). Qed.

End Lookup.

(** A label that occurs twice: the value of the first occurrence. *)
Example get_div_param_repeated_label :
  @get_div_param _ (Dom.soup [])
    [Dom.Element "li" [] (Dom.labelled "sc-font-bold" "" "Leistung" "120 kW");
     Dom.Element "li" [] (Dom.labelled "sc-font-bold" "" " Farbe " "Rot");
     Dom.Element "li" [] (Dom.labelled "sc-font-bold" "" "Farbe" "Blau")]
    "Farbe" "sc-font-bold" ""
  = "Rot".
Proof. reflexivity. Qed.

(** ** Field extraction *)

(** A page that has the two blocks and nothing else yields the defaults. *)
Example get_page_config_defaults :
  @get_page_config _ (Dom.soup []) (init "data")
    (Some (Dom.Element "[document]" []
             [Dom.div "data-basic" [];
              Dom.div "sc-expandable-box__content sc-grid-row" []]))
    "https://www.truckscout24.de/x"
  = Ok (VDict [(unicode "id", VInt 1); (unicode "href", VStr "https://www.truckscout24.de/x");
               (unicode "title", VStr ""); (unicode "price", VInt 0); (unicode "mileage", VInt 0);
               (unicode "color", VStr ""); (unicode "power", VInt 0); (unicode "description", VStr "")]).
Proof. reflexivity. Qed.

(** The record of the specification's end-to-end example. *)
Example get_page_config_full_page :
  @get_page_config _ (Dom.soup []) (init "data")
    (Some (Dom.detail_page Dom.three_images)) "https://www.truckscout24.de/x"
  = Ok (VDict [(unicode "id", VInt 1); (unicode "href", VStr "https://www.truckscout24.de/x");
               (unicode "title", VStr "Renault Master"); (unicode "price", VInt 12500);
               (unicode "mileage", VInt 150000); (unicode "color", VStr Dom.weiss);
               (unicode "power", VInt 120);
               (unicode "description",
                VStr ("Gepflegt" ++ nl ++ nl ++ "erste Zeile" ++ nl ++ "zweite Zeile"))]).
Proof. reflexivity. Qed.

(** A value that does not normalise stops the extraction too. *)
Example get_page_config_power_120kW :
  @get_page_config _ (Dom.soup []) (init "data") (Some Dom.page_power_120kW) "u"
  = Raise ValueError.
Proof. reflexivity. Qed.

(** C1. Extraction is meant to succeed on every detail page, an absent node
    giving the default: a page without the basic-data block, or without the
    specification list, ends the extraction in [AttributeError], because
    [find_all] is called on the [None] that [find] answered. *)
Theorem get_page_config_faults_on_missing_block
  {Tag : Type} `{Soup Tag} (st : state) (doc : Tag) (page_url : string) :
  find doc "div" [("class", "data-basic")] = None \/
  find doc "div" [("class", "sc-expandable-box__content sc-grid-row")] = None ->
  get_page_config st (Some doc) page_url = Raise AttributeError.
Proof.
  intros [Hbasic | Hspec]; unfold get_page_config; cbn [deref bind_result].
  - now rewrite Hbasic.
  - destruct (find doc "div" [("class", "data-basic")]); cbn [deref bind_result];
      [now rewrite Hspec | reflexivity].
Qed.

Lemma get_page_config_faults_on_missing_block_witness :
  (@find _ (Dom.soup []) Dom.page_without_basic_data "div" [("class", "data-basic")] = None \/
   @find _ (Dom.soup []) Dom.page_without_basic_data "div"
     [("class", "sc-expandable-box__content sc-grid-row")] = None) /\
  @get_page_config _ (Dom.soup []) (init "data") (Some Dom.page_without_basic_data)
    "https://www.truckscout24.de/x" = Raise AttributeError.
Proof.
  split.
  - left. reflexivity.
  - apply (@get_page_config_faults_on_missing_block _ (Dom.soup [])).
    left. reflexivity.
Defined.

(** ** Page fetcher *)

(** The claim of C9 fails when the request itself fails: nothing is
    returned, [None] included; the exception of the HTTP client leaves
    [__parse_page]. *)
Lemma parse_page_network_failure_is_not_None :
  let offline := Network (fun _ _ => None) (fun _ _ => true) in
  let outcome := @parse_page _ (Dom.soup []) offline (catalog_url 1) (init "data") in
  fst outcome = Raise RequestException /\ fst outcome <> Ok None.
Proof. cbv zeta. split; [reflexivity | discriminate]. Qed.

(** C9, amended. One request is made.  When it completes, the parsed
    document is returned exactly when the status is 200 and [None] for
    every other status; when it does not complete, the call raises. *)
Theorem parse_page_outcomes
  {Tag : Type} `{Soup Tag} (net : network) (url : string) (st : state) :
  parse_page net url st =
  (match http_get net (List.length (trace st)) url with
   | Some response =>
       Ok (if (status_code response =? 200)%Z
           then Some (BeautifulSoup (text response)) else None)
   | None => Raise RequestException
   end,
   log (Get url) st).
Proof.
  unfold parse_page, requests_get, bind, get_state, emit, ret, lift, log.
  destruct (http_get net (List.length (trace st)) url); reflexivity.
Qed.

(** ** File extension of a downloaded image *)

Lemma split_nonempty (sep : ascii) (s : string) : split sep s <> [].
Proof.
  destruct s as [|c r]; cbn; [discriminate |].
  destruct (Ascii.eqb c sep); [discriminate |].
  destruct (split sep r); discriminate.
Qed.

Lemma split_without_sep (sep : ascii) (s : string) :
  contains sep s = false -> split sep s = [s].
Proof.
  induction s as [|c r IH]; cbn; intros Hc; [reflexivity |].
  apply orb_false_iff in Hc as [-> Hr]. now rewrite IH.
Qed.

Lemma split_singleton (sep : ascii) (s l : string) :
  split sep s = [l] -> contains sep s = false.
Proof.
  revert l. induction s as [|c r IH]; intros l E; [reflexivity |].
  cbn in E |- *. destruct (Ascii.eqb c sep).
  - pose proof (split_nonempty sep r).
    destruct (split sep r); [contradiction | discriminate].
  - destruct (split sep r) as [|l1 [|l2 ls]] eqn:E'.
    + now apply split_nonempty in E'.
    + now rewrite (IH l1).
    + discriminate.
Qed.

Lemma last_cons_nonempty {A} (x d : A) (l : list A) :
  l <> [] -> last (x :: l) d = last l d.
Proof. destruct l; [contradiction | reflexivity]. Qed.

Lemma contains_app (c : ascii) (a b : string) :
  contains c (a ++ b) = contains c a || contains c b.
Proof.
  induction a as [|x a IH]; cbn; [reflexivity |].
  now rewrite IH, orb_assoc.
Qed.

(** Past a character that is not the last field's own, the last field
    stays. *)
Lemma last_split_cons (sep c : ascii) (s : string) :
  contains sep s = true ->
  last (split sep (String c s)) "" = last (split sep s) "".
Proof.
  intros Hs. cbn [split].
  destruct (Ascii.eqb c sep).
  - apply last_cons_nonempty, split_nonempty.
  - destruct (split sep s) as [|l [|l' ls]] eqn:E.
    + now apply split_nonempty in E.
    + apply split_singleton in E. congruence.
    + reflexivity.
Qed.

Lemma last_split_app_sep (sep : ascii) (pre ext : string) :
  contains sep ext = false ->
  last (split sep (pre ++ String sep ext)) "" = ext.
Proof.
  intros Hext. induction pre as [|c p IH].
  - cbn. rewrite Ascii.eqb_refl, split_without_sep by exact Hext. reflexivity.
  - change (String c p ++ String sep ext) with (String c (p ++ String sep ext)).
    rewrite last_split_cons; [exact IH |].
    rewrite contains_app. cbn. rewrite Ascii.eqb_refl. apply orb_true_r.
Qed.

(** Appending text without the separator extends the last field. *)
Lemma last_split_app (sep : ascii) (a b : string) :
  contains sep b = false ->
  last (split sep (a ++ b)) "" = last (split sep a) "" ++ b.
Proof.
  intros Hb. induction a as [|c r IH].
  - cbn. now rewrite split_without_sep.
  - change (String c r ++ b) with (String c (r ++ b)).
    destruct (contains sep r) eqn:Hr.
    + rewrite !last_split_cons; [exact IH | exact Hr |].
      rewrite contains_app, Hr. reflexivity.
    + assert (Hrb : contains sep (r ++ b) = false)
        by (rewrite contains_app, Hr, Hb; reflexivity).
      cbn [split]. destruct (Ascii.eqb c sep).
      * rewrite !last_cons_nonempty by apply split_nonempty. exact IH.
      * rewrite !split_without_sep by assumption. reflexivity.
Qed.

Lemma take_until_all (stop : ascii -> bool) (s : string) :
  (forall c, stop c = true -> contains c s = false) -> take_until stop s = s.
Proof.
  induction s as [|c r IH]; intros Hs; [reflexivity |].
  cbn. destruct (stop c) eqn:Hc.
  - specialize (Hs c Hc). cbn in Hs. now rewrite Ascii.eqb_refl in Hs.
  - rewrite IH; [reflexivity |].
    intros c' Hc'. specialize (Hs c' Hc'). cbn in Hs.
    now apply orb_false_iff in Hs.
Qed.

(** X12. A URL without a dot is its own "extension". *)
Lemma image_extension_without_dot (url : string) :
  contains "." url = false -> image_extension url = url.
Proof.
  intros Hu. unfold image_extension. now rewrite split_without_sep.
Qed.

(** The path of a URL ends at its first ["?"]. *)
Lemma url_path_query (pre rest : string) :
  contains "?" pre = false -> contains "#" pre = false ->
  url_path (pre ++ "?" ++ rest) = pre.
Proof.
  unfold url_path. induction pre as [|c p IH]; intros Hq Hh; [reflexivity |].
  cbn in Hq, Hh |- *.
  apply orb_false_iff in Hq as [Hq1 Hq2], Hh as [Hh1 Hh2].
  rewrite Hq1, Hh1. cbn. f_equal. now apply IH.
Qed.

Lemma url_path_plain (url : string) :
  contains "?" url = false -> contains "#" url = false -> url_path url = url.
Proof.
  intros Hq Hh. unfold url_path. apply take_until_all.
  intros c Hc. apply orb_true_iff in Hc as [Hc | Hc]; apply Ascii.eqb_eq in Hc;
    now subst c.
Qed.

(** A dot in the query string: the file name is "pic.jpg", the extension
    taken is "5", and the image is saved as "image_1.5". *)
Example image_extension_query_string :
  let url := "https://cdn.example.com/a/pic.jpg?size=1.5" in
  final_path_segment url = "pic.jpg" /\
  path_segment_extension url = "jpg" /\
  image_extension url = "5" /\
  image_filename (State "data" [] 1 []) 0 url = "data/1/image_1.5".
Proof. cbv zeta. repeat split. Qed.

(** A file name without a dot, the last dot of the URL being that of the
    host: the "extension" runs from the host into the path, and the image
    is to be saved in a directory "data/1/image_1.com/a" that nothing
    creates. *)
Example image_extension_host_dot :
  let url := "https://img.example.com/a/photo" in
  final_path_segment url = "photo" /\
  image_extension url = "com/a/photo" /\
  image_filename (State "data" [] 1 []) 0 url = "data/1/image_1.com/a/photo".
Proof. cbv zeta. repeat split. Qed.

(** When nothing follows the path (no ["?"], no ["#"]) and no ["/"] comes
    after the last dot of the URL, the text after that dot is the extension
    of the file name in the path. *)
Lemma image_extension_after_last_dot (pre ext : string) :
  contains "." ext = false ->
  image_extension (pre ++ "." ++ ext) = ext /\
  (contains "/" ext = false ->
   contains "?" (pre ++ ext) = false ->
   contains "#" (pre ++ ext) = false ->
   path_segment_extension (pre ++ "." ++ ext) = image_extension (pre ++ "." ++ ext)).
Proof.
  intros Hdot.
  assert (Himg : image_extension (pre ++ "." ++ ext) = ext)
    by (apply last_split_app_sep, Hdot).
  split; [exact Himg |].
  intros Hslash Hq Hh. rewrite Himg.
  rewrite contains_app in Hq, Hh.
  apply orb_false_iff in Hq as [Hq1 Hq2], Hh as [Hh1 Hh2].
  unfold path_segment_extension, final_path_segment.
  rewrite url_path_plain.
  - change ("." ++ ext) with (String "." ext).
    rewrite last_split_app by (cbn; exact Hslash).
    apply last_split_app_sep, Hdot.
  - rewrite contains_app. cbn. now rewrite Hq1, Hq2.
  - rewrite contains_app. cbn. now rewrite Hh1, Hh2.
Qed.

Lemma image_extension_after_last_dot_witness :
  contains "." "jpg" = false /\
  image_extension ("https://img.example.com/a/1" ++ "." ++ "jpg") = "jpg" /\
  path_segment_extension ("https://img.example.com/a/1" ++ "." ++ "jpg")
  = image_extension ("https://img.example.com/a/1" ++ "." ++ "jpg").
Proof.
  split; [reflexivity |].
  destruct (image_extension_after_last_dot "https://img.example.com/a/1" "jpg" eq_refl)
    as [Himg Hpath].
  split; [exact Himg | apply Hpath; reflexivity].
Defined.

(** C8. The extension given to the saved file is not that of the file name
    in the final path segment for every URL: the code takes the text after
    the last dot of the whole URL.  With a dot in the query string, the
    text after that dot is the extension, whatever the file name in the
    path is.  With a file name without a dot, the text taken starts at an
    earlier dot (that of the host name) and holds the rest of the path, so
    that the name of the saved file lies in a directory below the
    listing's. *)
Theorem image_extension_of_whole_url (st : state) (i : Z) (pre ext : string) :
  contains "." ext = false ->
  image_extension (pre ++ "." ++ ext) = ext /\
  image_filename st i (pre ++ "." ++ ext)
  = listing_dir st ++ "/image_" ++ str (i + 1) ++ "." ++ ext /\
  (forall path query,
     pre = path ++ "?" ++ query ->
     contains "?" path = false -> contains "#" path = false ->
     path_segment_extension (pre ++ "." ++ ext) = path_segment_extension path) /\
  (forall dir name,
     ext = dir ++ "/" ++ name ->
     contains "/" name = false ->
     contains "?" (pre ++ ext) = false -> contains "#" (pre ++ ext) = false ->
     final_path_segment (pre ++ "." ++ ext) = name /\
     path_segment_extension (pre ++ "." ++ ext) = name).
Proof.
  intros Hdot.
  assert (Hlast : image_extension (pre ++ "." ++ ext) = ext)
    by (apply last_split_app_sep, Hdot).
  split; [exact Hlast | split; [| split]].
  - unfold image_filename, listing_dir. rewrite Hlast.
    now rewrite <- !append_assoc.
  - intros path query -> Hq Hh.
    unfold path_segment_extension, final_path_segment.
    rewrite !append_assoc, url_path_query by assumption.
    now rewrite url_path_plain.
  - intros dir name -> Hslash Hq Hh.
    assert (Hseg : final_path_segment (pre ++ "." ++ dir ++ "/" ++ name) = name).
    { unfold final_path_segment. rewrite url_path_plain.
      - replace (pre ++ "." ++ dir ++ "/" ++ name)
          with ((pre ++ "." ++ dir) ++ String "/" name)
          by now rewrite !append_assoc.
        apply last_split_app_sep, Hslash.
      - rewrite contains_app in Hq |- *.
        apply orb_false_iff in Hq as [Hq1 Hq2]. rewrite Hq1.
        change ("." ++ dir ++ "/" ++ name) with (String "." (dir ++ "/" ++ name)).
        cbn [contains orb]. exact Hq2.
      - rewrite contains_app in Hh |- *.
        apply orb_false_iff in Hh as [Hh1 Hh2]. rewrite Hh1.
        change ("." ++ dir ++ "/" ++ name) with (String "." (dir ++ "/" ++ name)).
        cbn [contains orb]. exact Hh2. }
    split; [exact Hseg |].
    unfold path_segment_extension. rewrite Hseg.
    rewrite contains_app in Hdot. apply orb_false_iff in Hdot as [_ Hname].
    cbn in Hname. now rewrite split_without_sep.
Qed.

Lemma image_extension_of_whole_url_witness :
  (image_extension "https://cdn.example.com/a/pic.jpg?size=1.5" = "5" /\
   image_filename (State "data" [] 1 []) 0 "https://cdn.example.com/a/pic.jpg?size=1.5"
   = "data/1/image_1.5" /\
   path_segment_extension "https://cdn.example.com/a/pic.jpg?size=1.5" = "jpg") /\
  (image_extension "https://img.example.com/a/photo" = "com/a/photo" /\
   image_filename (State "data" [] 1 []) 0 "https://img.example.com/a/photo"
   = "data/1/image_1.com/a/photo" /\
   final_path_segment "https://img.example.com/a/photo" = "photo").
Proof.
  split.
  - destruct (image_extension_of_whole_url (State "data" [] 1 []) 0
                "https://cdn.example.com/a/pic.jpg?size=1" "5" eq_refl)
      as (Hext & Hname & Hquery & _).
    split; [exact Hext | split; [exact Hname |]].
    exact (Hquery "https://cdn.example.com/a/pic.jpg" "size=1" eq_refl eq_refl eq_refl).
  - destruct (image_extension_of_whole_url (State "data" [] 1 []) 0
                "https://img.example" "com/a/photo" eq_refl)
      as (Hext & Hname & _ & Hdir).
    split; [exact Hext | split; [exact Hname |]].
    exact (proj1 (Hdir "com/a" "photo" eq_refl eq_refl eq_refl eq_refl)).
Defined.

(** ** Image downloader *)

Section Downloads.

Context {Tag : Type} `{Soup Tag}.
Variable net : network.

Lemma index_of_nat {A} (l : list A) (k : nat) :
  index l (Z.of_nat k) = match nth_error l k with
                         | Some a => Ok a
                         | None => Raise IndexError
                         end.
Proof.
  unfold index.
  destruct (Z.ltb_spec (Z.of_nat k) 0) as [Hneg | _]; [lia |].
  now rewrite Nat2Z.id.
Qed.

Lemma firstn_skipn_nth {A} (l : list A) (k m : nat) (a : A) :
  nth_error l k = Some a ->
  firstn (S m) (skipn k l) = a :: firstn m (skipn (S k) l).
Proof.
  revert l. induction k as [|k IH]; intros [|x l] Hn; try discriminate.
  - cbn in Hn. injection Hn as ->. reflexivity.
  - cbn in Hn. cbn [skipn]. rewrite (IH l Hn). reflexivity.
Qed.

Lemma for_each_cons {A} (x : A) (r : list A) (body : A -> M unit) (s : state) :
  for_each (x :: r) body s =
  match body x s with
  | (Ok _, s') => for_each r body s'
  | (Raise e, s') => (Raise e, s')
  end.
Proof. reflexivity. Qed.

Lemma fetch_step (st0 : state) (images : list (option string)) (k : nat) (s : state) :
  fetch net st0 images (Z.of_nat k) s =
  match nth_error images k with
  | None => (Raise IndexError, s)
  | Some None => (Raise AttributeError, s)
  | Some (Some url) =>
      (if download_ok net (List.length (trace s)) url then Ok tt else Raise URLError,
       log (Retrieve url (image_filename st0 (Z.of_nat k) url)) s)
  end.
Proof.
  unfold fetch, bind, lift. rewrite index_of_nat.
  destruct (nth_error images k) as [[url|]|]; cbn [deref]; try reflexivity.
  unfold urlretrieve, bind, get_state, emit, ret, lift.
  destruct (download_ok net (List.length (trace s)) url); reflexivity.
Qed.

(** The loop requests the images [k], [k+1], ... in order and stops at the
    first one without a source or whose download fails. *)
Lemma fetch_loop (st0 : state) (images : list (option string)) (m : nat) :
  forall (k : nat) (s : state),
    k + m <= List.length images ->
    exists urls rest,
      firstn m (skipn k images) = (map Some urls ++ rest)%list /\
      snd (for_each (map Z.of_nat (seq k m)) (fetch net st0 images) s)
      = State (path_to_dir s) (ads s) (page_no s)
              (trace s ++ retrievals st0 k urls)%list /\
      (fst (for_each (map Z.of_nat (seq k m)) (fetch net st0 images) s) = Ok tt ->
       List.length urls = m).
Proof.
  induction m as [|m IH]; intros k s Hk.
  - exists [], []. cbn. rewrite app_nil_r. destruct s; auto.
  - destruct (nth_error images k) as [src|] eqn:Hnth.
    2:{ apply nth_error_None in Hnth. lia. }
    rewrite (firstn_skipn_nth _ _ _ _ Hnth).
    cbn [seq map]. rewrite for_each_cons, fetch_step, Hnth.
    destruct src as [url|].
    + destruct (download_ok net (List.length (trace s)) url).
      * destruct (IH (S k) (log (Retrieve url (image_filename st0 (Z.of_nat k) url)) s))
          as (urls & rest & Hfirst & Hsnd & Hok); [lia |].
        exists (url :: urls), rest. split; [cbn [map app]; now rewrite Hfirst |].
        split.
        -- rewrite Hsnd. cbn. now rewrite <- app_assoc.
        -- intros Hr. cbn. f_equal. apply Hok, Hr.
      * exists [url], (firstn m (skipn (S k) images)). cbn.
        repeat split; discriminate.
    + exists [], (None :: firstn m (skipn (S k) images)). cbn.
      rewrite app_nil_r. destruct s; repeat split; discriminate.
Qed.

Lemma download_images_unfold (doc : Tag) (cap : Z) (st : state) :
  download_images net (Some doc) cap st =
  let tags := find_all doc "img" gallery_image in
  let len := Z.of_nat (List.length tags) in
  let image_num := if (len >=? cap)%Z then cap else len in
  for_each (range image_num)
           (fetch net st (map (fun img => get img "data-src") (slice_to tags image_num)))
           (log (Mkdir (listing_dir st)) st).
Proof. reflexivity. Qed.

(** What the slice and the range of [__download_images] come to. *)
Lemma gallery_plan (tags : list Tag) (cap : Z) :
  let len := Z.of_nat (List.length tags) in
  let image_num := if (len >=? cap)%Z then cap else len in
  let n := Z.to_nat (Z.min cap len) in
  let images := map (fun img => get img "data-src") (slice_to tags image_num) in
  range image_num = map Z.of_nat (seq 0 n) /\
  n <= List.length images /\
  firstn n images = map (fun img => get img "data-src") (firstn n tags).
Proof.
  cbv zeta. set (len := Z.of_nat (List.length tags)).
  assert (Hnum : Z.to_nat (if (len >=? cap)%Z then cap else len)
                 = Z.to_nat (Z.min cap len)).
  { destruct (Z.geb_spec len cap); f_equal; lia. }
  split; [unfold range; now rewrite Hnum |].
  destruct (Z.ltb_spec cap 0) as [Hneg | Hpos].
  - replace (Z.to_nat (Z.min cap len)) with 0 by lia. cbn. split; [lia | reflexivity].
  - unfold slice_to.
    assert (Hnn : ((if (len >=? cap)%Z then cap else len) <? 0)%Z = false).
    { apply Z.ltb_ge. destruct (Z.geb_spec len cap); lia. }
    rewrite Hnn, Hnum. set (n := Z.to_nat (Z.min cap len)).
    assert (Hle : n <= List.length tags) by (subst n len; lia).
    rewrite length_map, length_firstn.
    split; [lia |].
    rewrite <- firstn_map, firstn_firstn. f_equal. lia.
Qed.

(** The effects of one call: the directory, then the downloads of the
    leading gallery pictures that have a source, up to the first failure. *)
Lemma download_images_effects (doc : Tag) (cap : Z) (st : state) :
  let tags := find_all doc "img" gallery_image in
  let n := Z.to_nat (Z.min cap (Z.of_nat (List.length tags))) in
  exists urls rest,
    map (fun img => get img "data-src") (firstn n tags) = (map Some urls ++ rest)%list /\
    snd (download_images net (Some doc) cap st)
    = State (path_to_dir st) (ads st) (page_no st)
            (trace st ++ Mkdir (listing_dir st) :: retrievals st 0 urls)%list /\
    (fst (download_images net (Some doc) cap st) = Ok tt -> List.length urls = n).
Proof.
  cbv zeta. rewrite download_images_unfold. cbv zeta.
  destruct (gallery_plan (find_all doc "img" gallery_image) cap) as (Hrange & Hlen & Hfirst).
  rewrite Hrange.
  edestruct fetch_loop as (urls & rest & Hplan & Hsnd & Hok);
    [rewrite Nat.add_0_l; exact Hlen |].
  exists urls, rest. cbn [skipn] in Hplan. rewrite Hfirst in Hplan.
  split; [exact Hplan |]. split; [| exact Hok].
  rewrite Hsnd. cbn. now rewrite <- app_assoc.
Qed.

Lemma retrievals_nth (st : state) (urls : list string) (i : nat) (url : string) :
  forall k, nth_error urls i = Some url ->
  nth_error (retrievals st k urls) i
  = Some (Retrieve url (image_filename st (Z.of_nat (k + i)) url)).
Proof.
  revert i. induction urls as [|u r IH]; intros [|i] k Hn; try discriminate.
  - cbn in Hn |- *. injection Hn as ->. now rewrite Nat.add_0_r.
  - cbn in Hn |- *. rewrite (IH i (S k) Hn).
    now replace (S k + i) with (k + S i) by lia.
Qed.

Lemma length_trace_log (e : event) (s : state) :
  List.length (trace (log e s)) = S (List.length (trace s)).
Proof. cbn [log trace]. rewrite length_app. cbn. lia. Qed.

(** The loop on the pictures [k+1], ..., [k+m], case by case: it returns
    after [m] downloads, or stops at the first picture without a source, or
    at the first download that fails. *)
Lemma fetch_loop_cases (st0 : state) (images : list (option string)) (m : nat) :
  forall (k : nat) (s : state),
    k + m <= List.length images ->
    exists urls,
      snd (for_each (map Z.of_nat (seq k m)) (fetch net st0 images) s)
      = after_downloads st0 s k urls /\
      List.length urls <= m /\
      (forall i url, nth_error urls i = Some url ->
         nth_error images (k + i) = Some (Some url)) /\
      match fst (for_each (map Z.of_nat (seq k m)) (fetch net st0 images) s) with
      | Ok _ =>
          List.length urls = m /\
          (forall i url, nth_error urls i = Some url ->
             download_ok net (List.length (trace s) + i) url = true)
      | Raise AttributeError =>
          nth_error images (k + List.length urls) = Some None /\
          List.length urls < m /\
          (forall i url, nth_error urls i = Some url ->
             download_ok net (List.length (trace s) + i) url = true)
      | Raise URLError =>
          exists j url,
            List.length urls = S j /\ nth_error urls j = Some url /\
            download_ok net (List.length (trace s) + j) url = false /\
            (forall i u, i < j -> nth_error urls i = Some u ->
               download_ok net (List.length (trace s) + i) u = true)
      | Raise _ => False
      end.
Proof.
  induction m as [|m IH]; intros k s Hk.
  - exists []. cbn [seq map for_each ret fst snd]. unfold after_downloads. cbn.
    rewrite app_nil_r. repeat split; try (now destruct s); try lia;
      intros [|i] url Hi; discriminate.
  - destruct (nth_error images k) as [src|] eqn:Hnth.
    2:{ apply nth_error_None in Hnth. lia. }
    cbn [seq map]. rewrite for_each_cons, fetch_step, Hnth.
    destruct src as [url|].
    + destruct (download_ok net (List.length (trace s)) url) eqn:Hdl.
      * set (s' := log (Retrieve url (image_filename st0 (Z.of_nat k) url)) s).
        destruct (IH (S k) s') as (urls & Hsnd & Hlen & Hsrc & Hres); [lia |].
        exists (url :: urls). split; [| split; [| split]].
        -- rewrite Hsnd. unfold after_downloads, s'. cbn. now rewrite <- app_assoc.
        -- cbn. lia.
        -- intros [|i] u Hi.
           ++ cbn in Hi. injection Hi as <-. now rewrite Nat.add_0_r.
           ++ cbn in Hi. replace (k + S i) with (S k + i) by lia. now apply Hsrc.
        -- assert (Hshift : forall i, List.length (trace s') + i
                                      = List.length (trace s) + S i).
           { intros i. unfold s'. rewrite length_trace_log. lia. }
           assert (Hall : (forall i u, nth_error urls i = Some u ->
                             download_ok net (List.length (trace s') + i) u = true) ->
                          forall i u, nth_error (url :: urls) i = Some u ->
                            download_ok net (List.length (trace s) + i) u = true).
           { intros Hok [|i] u Hi.
             - cbn in Hi. injection Hi as <-. now rewrite Nat.add_0_r.
             - cbn in Hi. rewrite <- Hshift. now apply Hok. }
           destruct (fst (for_each _ _ s')) as [[]|[]]; try contradiction.
           ++ destruct Hres as (Hm & Hok). cbn [List.length].
              split; [lia | now apply Hall].
           ++ destruct Hres as (Hmiss & Hlt & Hok). cbn [List.length].
              replace (k + S (List.length urls)) with (S k + List.length urls) by lia.
              repeat split; [exact Hmiss | lia | now apply Hall].
           ++ destruct Hres as (j & u & Hj & Hu & Hfail & Hok).
              exists (S j), u. cbn [List.length nth_error].
              repeat split; [lia | exact Hu | now rewrite <- Hshift |].
              intros [|i] u' Hi Hu'.
              ** cbn in Hu'. injection Hu' as <-. now rewrite Nat.add_0_r.
              ** cbn in Hu'. rewrite <- Hshift. apply Hok; [lia | exact Hu'].
      * exists [url]. cbn [fst snd]. unfold after_downloads. cbn [retrievals].
        split; [now destruct s |]. split; [cbn; lia |]. split.
        -- intros [|[|i]] u Hi; try discriminate. cbn in Hi. injection Hi as <-.
           now rewrite Nat.add_0_r.
        -- exists 0, url. rewrite Nat.add_0_r. repeat split; [exact Hdl | lia].
    + exists []. cbn [fst snd]. unfold after_downloads. cbn [retrievals List.length].
      rewrite app_nil_r, Nat.add_0_r.
      split; [now destruct s |]. split; [lia |]. split.
      * intros [|i] u Hi; discriminate.
      * repeat split; [exact Hnth | lia |]. intros [|i] u Hi; discriminate.
Qed.

(** The exceptions of the downloader: a page or a source that is not there,
    and a download that fails. *)
Lemma download_images_raises (page : option Tag) (cap : Z) (st : state) (e : exn) :
  fst (download_images net page cap st) = Raise e ->
  e = AttributeError \/ e = URLError.
Proof.
  destruct page as [doc|]; [| cbn; intros [= <-]; now left].
  rewrite download_images_unfold. cbv zeta.
  destruct (gallery_plan (find_all doc "img" gallery_image) cap) as (Hrange & Hlen & _).
  cbv zeta in Hrange, Hlen. rewrite Hrange.
  match goal with
  | |- context [for_each (map Z.of_nat (seq 0 ?n)) (fetch net st ?images) ?s] =>
      destruct (fetch_loop_cases st images n 0 s) as (urls & _ & _ & _ & Hres);
        [rewrite Nat.add_0_l; exact Hlen |]
  end.
  intros He. rewrite He in Hres. destruct e; auto; contradiction.
Qed.

(** The claim of C7 fails for a gallery picture without [data-src] and for
    a download that fails: with three pictures and the cap 3, the
    downloader saves one image, not [min(3, 3)]. *)
Lemma download_images_stops_early :
  let gallery := [Dom.gallery_img "https://img.example.com/a/1.jpg";
                  Dom.img_without_source;
                  Dom.gallery_img "https://img.example.com/a/3.jpg"] in
  List.length (@find_all _ (Dom.soup []) (Dom.gallery_page gallery) "img" gallery_image)
  = 3 /\
  @download_images _ (Dom.soup []) Dom.sample_net (Some (Dom.gallery_page gallery)) 3
    (init "data")
  = (Raise AttributeError,
     State "data" [] 1
       [Mkdir "data"; Mkdir "data/1";
        Retrieve "https://img.example.com/a/1.jpg" "data/1/image_1.jpg"]) /\
  @download_images _ (Dom.soup []) Dom.net_downloads_fail
    (Some (Dom.detail_page Dom.three_images)) 3 (init "data")
  = (Raise URLError,
     State "data" [] 1
       [Mkdir "data"; Mkdir "data/1";
        Retrieve "https://img.example.com/a/1.jpg" "data/1/image_1.jpg"]).
Proof. cbv zeta. repeat split. Qed.

(** C7, amended.  The downloader creates the directory and then requests
    the sources of the gallery pictures in document order, the [i]-th as
    [image_<i>.<ext>].  With [n] the smaller of the cap and the size of the
    gallery (0 for a cap below 0), it returns after exactly [n] downloads
    when the first [n] pictures have a source and no download fails; it
    raises [AttributeError] at the first picture without a source, and
    [URLError] at the first download that fails, and requests nothing
    after that.  It never requests more than [n] images. *)
Theorem download_images_outcome (doc : Tag) (cap : Z) (st : state) :
  let tags := find_all doc "img" gallery_image in
  let n := Z.to_nat (Z.min cap (Z.of_nat (List.length tags))) in
  let started := S (List.length (trace st)) in
  exists urls,
    trace (snd (download_images net (Some doc) cap st))
    = (trace st ++ Mkdir (path_to_dir st ++ "/" ++ str (page_no st))
         :: retrievals st 0 urls)%list /\
    (forall i url, nth_error urls i = Some url ->
       option_map (fun img => get img "data-src") (nth_error tags i) = Some (Some url) /\
       nth_error (retrievals st 0 urls) i
       = Some (Retrieve url (path_to_dir st ++ "/" ++ str (page_no st) ++ "/image_"
                             ++ str (Z.of_nat i + 1) ++ "." ++ image_extension url))) /\
    List.length urls <= n /\
    (Z.of_nat (List.length urls) <= Z.max cap 0)%Z /\
    List.length urls <= List.length tags /\
    match fst (download_images net (Some doc) cap st) with
    | Ok _ =>
        List.length urls = n /\
        (forall i url, nth_error urls i = Some url ->
           download_ok net (started + i) url = true)
    | Raise AttributeError =>
        List.length urls < n /\
        option_map (fun img => get img "data-src") (nth_error tags (List.length urls))
        = Some None /\
        (forall i url, nth_error urls i = Some url ->
           download_ok net (started + i) url = true)
    | Raise URLError =>
        exists j url,
          List.length urls = S j /\ nth_error urls j = Some url /\
          download_ok net (started + j) url = false /\
          (forall i u, i < j -> nth_error urls i = Some u ->
             download_ok net (started + i) u = true)
    | Raise _ => False
    end.
Proof.
  cbv zeta. rewrite download_images_unfold. cbv zeta.
  destruct (gallery_plan (find_all doc "img" gallery_image) cap) as (Hrange & Hlen & Hfirst).
  cbv zeta in Hrange, Hlen, Hfirst. rewrite Hrange.
  set (tags := find_all doc "img" gallery_image) in *.
  set (n := Z.to_nat (Z.min cap (Z.of_nat (List.length tags)))) in *.
  set (images := map (fun img => get img "data-src")
                     (slice_to tags (if (Z.of_nat (List.length tags) >=? cap)%Z
                                     then cap else Z.of_nat (List.length tags)))) in *.
  assert (Hsrc : forall i, i < n ->
            nth_error images i
            = option_map (fun img => get img "data-src") (nth_error tags i)).
  { intros i Hi.
    assert (Hin : nth_error (firstn n images) i = nth_error images i).
    { rewrite nth_error_firstn. now apply Nat.ltb_lt in Hi as ->. }
    rewrite <- Hin, Hfirst, nth_error_map, nth_error_firstn.
    now apply Nat.ltb_lt in Hi as ->. }
  destruct (fetch_loop_cases st images n 0 (log (Mkdir (listing_dir st)) st))
    as (urls & Hsnd & Hle & Hurls & Hres); [rewrite Nat.add_0_l; exact Hlen |].
  rewrite length_trace_log in Hres.
  exists urls. split; [| split; [| split; [| split; [| split]]]].
  - rewrite Hsnd. unfold after_downloads, listing_dir. cbn. now rewrite <- app_assoc.
  - intros i url Hi. split.
    + rewrite <- Hsrc.
      * now apply (Hurls i url).
      * assert (i < List.length urls) by (apply nth_error_Some; congruence). lia.
    + now rewrite (retrievals_nth st urls i url 0 Hi).
  - exact Hle.
  - subst n. lia.
  - subst n. lia.
  - destruct (fst (for_each _ _ _)) as [[]|[]]; try contradiction.
    + exact Hres.
    + destruct Hres as (Hmiss & Hlt & Hok). repeat split; [exact Hlt | | exact Hok].
      rewrite <- Hsrc by exact Hlt. exact Hmiss.
    + exact Hres.
Qed.

(** C10. The directory of the listing is created before any download is
    attempted: the first effect of a call is the [mkdir] of
    [<output>/<id>], everything after it is a download; with an empty
    gallery the call returns and the [mkdir] is its only effect. *)
Theorem download_images_creates_dir_first (doc : Tag) (cap : Z) (st : state) :
  exists downloads,
    trace (snd (download_images net (Some doc) cap st))
    = (trace st ++ Mkdir (path_to_dir st ++ "/" ++ str (page_no st)) :: downloads)%list /\
    Forall (fun e => exists url path, e = Retrieve url path) downloads /\
    (find_all doc "img" gallery_image = [] ->
     fst (download_images net (Some doc) cap st) = Ok tt /\ downloads = []).
Proof.
  destruct (download_images_effects doc cap st) as (urls & rest & Hplan & Hsnd & _).
  exists (retrievals st 0 urls). split; [now rewrite Hsnd |]. split.
  - clear. generalize 0 as k. induction urls as [|u r IH]; intros k; cbn;
      constructor; eauto.
  - intros Hempty. cbv zeta in Hplan. rewrite Hempty in Hplan.
    rewrite firstn_nil in Hplan. destruct urls; [| discriminate].
    split; [| reflexivity].
    rewrite download_images_unfold. cbv zeta. rewrite Hempty. cbn [List.length Z.of_nat].
    assert (Hr : range (if (0 >=? cap)%Z then cap else 0%Z) = []).
    { unfold range. destruct (Z.geb_spec 0 cap) as [Hc | Hc].
      - replace (Z.to_nat cap) with 0 by lia. reflexivity.
      - reflexivity. }
    now rewrite Hr.
Qed.

End Downloads.

Lemma download_images_outcome_witness :
  exists urls,
    @download_images _ (Dom.soup []) Dom.sample_net
      (Some (Dom.detail_page Dom.three_images)) 3 (init "data")
    = (Ok tt,
       State "data" [] 1
         [Mkdir "data";
          Mkdir "data/1";
          Retrieve "https://img.example.com/a/1.jpg" "data/1/image_1.jpg";
          Retrieve "https://img.example.com/a/2.png" "data/1/image_2.png";
          Retrieve "https://img.example.com/a/3.jpg" "data/1/image_3.jpg"]) /\
    trace (snd (@download_images _ (Dom.soup []) Dom.sample_net
                  (Some (Dom.detail_page Dom.three_images)) 3 (init "data")))
    = ([Mkdir "data"] ++ Mkdir "data/1" :: retrievals (init "data") 0 urls)%list /\
    List.length urls = 3.
Proof.
  destruct (@download_images_outcome _ (Dom.soup []) Dom.sample_net
              (Dom.detail_page Dom.three_images) 3 (init "data"))
    as (urls & Htrace & _ & _ & _ & _ & Hres).
  exists urls. split; [reflexivity |]. split; [exact Htrace |].
  exact (proj1 Hres).
Defined.

Lemma download_images_creates_dir_first_witness :
  @find_all _ (Dom.soup []) (Dom.detail_page []) "img" gallery_image = [] /\
  @download_images _ (Dom.soup []) Dom.sample_net (Some (Dom.detail_page [])) 3 (init "data")
  = (Ok tt, State "data" [] 1 [Mkdir "data"; Mkdir "data/1"]).
Proof.
  split; [reflexivity |].
  destruct (@download_images_creates_dir_first _ (Dom.soup []) Dom.sample_net
              (Dom.detail_page []) 3 (init "data"))
    as (downloads & _ & _ & Hempty).
  destruct (Hempty eq_refl) as [Hok _].
  reflexivity.
Defined.

(** ** Pipeline driver *)

Section Driver.

Context {Tag : Type} `{Soup Tag}.
Variable net : network.

Lemma loop_body_unfold (st : state) :
  loop_body net st =
  let st1 := log (Get (catalog_url (page_no st))) st in
  match http_get net (List.length (trace st)) (catalog_url (page_no st)) with
  | None => (Raise RequestException, st1)
  | Some response =>
      if (status_code response =? 200)%Z then
        match find (BeautifulSoup (text response)) "a" detail_link with
        | None => (Ok false, st1)
        | Some link =>
            match get link "href" with
            | None => (Raise AttributeError, st1)
            | Some href => visit net (WEBSITE_URL ++ strip href) st1
            end
        end
      else (Raise AttributeError, st1)
  end.
Proof.
  unfold loop_body. unfold bind at 1. unfold get_state at 1.
  unfold bind at 1. rewrite parse_page_outcomes.
  destruct (http_get net (List.length (trace st)) (catalog_url (page_no st)))
    as [response|]; [| reflexivity].
  destruct (status_code response =? 200)%Z; [| reflexivity].
  cbn [deref]. unfold bind at 1. unfold lift at 1.
  destruct (find (BeautifulSoup (text response)) "a" detail_link) as [link|];
    [| reflexivity].
  unfold bind at 1. unfold lift at 1.
  destruct (get link "href"); reflexivity.
Qed.

Lemma visit_unfold (url : string) (st1 : state) :
  visit net url st1 =
  let st2 := log (Get url) st1 in
  match http_get net (List.length (trace st1)) url with
  | None => (Raise RequestException, st2)
  | Some response =>
      let page := if (status_code response =? 200)%Z
                  then Some (BeautifulSoup (text response)) else None in
      match get_page_config st2 page url with
      | Raise e => (Raise e, st2)
      | Ok config =>
          match download_images net page 3 (appended config st2) with
          | (Ok _, st4) => (Ok true, advanced st4)
          | (Raise e, st4) => (Raise e, st4)
          end
      end
  end.
Proof.
  unfold visit. unfold bind at 1. rewrite parse_page_outcomes.
  destruct (http_get net (List.length (trace st1)) url) as [response|]; [| reflexivity].
  cbv zeta. unfold bind at 1. unfold get_state at 1.
  unfold bind at 1. unfold lift at 1.
  destruct (get_page_config _ _ url) as [config|e]; [| reflexivity].
  unfold bind at 1. unfold append_ad at 1.
  unfold bind at 1.
  destruct (download_images net _ 3 _) as [[[]|e] st4]; reflexivity.
Qed.

(** A record holds each key once, and its texts can be encoded. *)
Lemma record_well_formed (id : Z) (href title : string) (price mileage : Z)
  (color : string) (power : Z) (description : string) :
  well_formed (record id href title price mileage color power description) = true.
Proof. reflexivity. Qed.

Lemma record_storable (id : Z) (href title : string) (price mileage : Z)
  (color : string) (power : Z) (description : string) :
  storable (record id href title price mileage color power description) = true.
Proof.
  unfold record. cbn [storable forallb fst snd].
  now rewrite !scalar_unicode.
Qed.

Lemma get_page_config_shape (st : state) (page : option Tag) (url : string) (config : value) :
  get_page_config st page url = Ok config ->
  exists doc title price mileage color power description,
    page = Some doc /\
    config = record (page_no st) url title price mileage color power description.
Proof.
  unfold get_page_config. destruct page as [doc|]; [| discriminate].
  cbn [deref bind_result].
  destruct (find doc "div" [("class", "data-basic")]) as [basic|]; [| discriminate].
  cbn [deref bind_result].
  destruct (find doc "div" [("class", "sc-expandable-box__content sc-grid-row")])
    as [spec|]; [| discriminate].
  cbn [deref bind_result].
  destruct (convert_str_to_int _) as [price|]; [| discriminate]. cbn [bind_result].
  destruct (convert_str_to_int _) as [mileage|]; [| discriminate]. cbn [bind_result].
  destruct (convert_str_to_int _) as [power|]; [| discriminate]. cbn [bind_result].
  intros [= <-]. now eexists doc, _, price, mileage, _, power, _.
Qed.

(** A pass that goes on to the next one: what it read and what it left. *)
Lemma loop_body_continue (st st' : state) :
  loop_body net st = (Ok true, st') ->
  exists response link href config urls,
    http_get net (List.length (trace st)) (catalog_url (page_no st)) = Some response /\
    status_code response = 200%Z /\
    find (BeautifulSoup (text response)) "a" detail_link = Some link /\
    get link "href" = Some href /\
    field "id" config = Some (VInt (page_no st)) /\
    field "href" config = Some (VStr (WEBSITE_URL ++ strip href)) /\
    (well_formed config = true /\ storable config = true) /\
    st' = State (path_to_dir st) (ads st ++ [config])%list (page_no st + 1)%Z
                (trace st ++ Get (catalog_url (page_no st))
                   :: Get (WEBSITE_URL ++ strip href)
                   :: Mkdir (path_to_dir st ++ "/" ++ str (page_no st))
                   :: retrievals (appended config (log (Get (WEBSITE_URL ++ strip href))
                                    (log (Get (catalog_url (page_no st))) st))) 0 urls)%list.
Proof.
  rewrite loop_body_unfold. cbv zeta.
  destruct (http_get net _ (catalog_url (page_no st))) as [response|] eqn:Hget;
    [| discriminate].
  destruct (Z.eqb_spec (status_code response) 200) as [Hstatus|]; [| discriminate].
  destruct (find _ "a" detail_link) as [link|] eqn:Hlink; [| discriminate].
  destruct (get link "href") as [href|] eqn:Hattr; [| discriminate].
  rewrite visit_unfold. cbv zeta.
  destruct (http_get net _ (WEBSITE_URL ++ strip href)) as [response2|]; [| discriminate].
  destruct (get_page_config _ _ _) as [config|] eqn:Hconfig; [| discriminate].
  apply get_page_config_shape in Hconfig
    as (doc & title & price & mileage & color & power & description & -> & Hconfig).
  assert (Hid : field "id" config = Some (VInt (page_no st))) by (subst; reflexivity).
  assert (Hhref : field "href" config = Some (VStr (WEBSITE_URL ++ strip href)))
    by (subst; reflexivity).
  assert (Hwf : well_formed config = true) by (subst; apply record_well_formed).
  assert (Hst : storable config = true) by (subst; apply record_storable).
  clear Hconfig.
  match goal with
  | |- context [download_images net (Some doc) 3 ?s] =>
      destruct (download_images_effects net doc 3 s) as (urls & rest & _ & Hsnd & _);
      destruct (download_images net (Some doc) 3 s) as [[[]|e] st4]
  end; [| discriminate].
  cbn [snd] in Hsnd. intros Hpair. apply (f_equal snd) in Hpair. cbn [snd] in Hpair.
  subst st4 st'. exists response, link, href, config, urls.
  repeat split; try assumption.
  cbn [advanced path_to_dir ads trace appended log listing_dir page_no].
  f_equal. rewrite <- !app_assoc. reflexivity.
Qed.

Lemma retrievals_not_write (st : state) (urls : list string) (k : nat) :
  existsb is_write (retrievals st k urls) = false.
Proof. revert k. induction urls as [|u r IH]; intros k; cbn; auto. Qed.

(** Any pass: the records so far stay as they are, and nothing is written. *)
Lemma loop_body_effects (st : state) :
  exists evs new,
    path_to_dir (snd (loop_body net st)) = path_to_dir st /\
    ads (snd (loop_body net st)) = (ads st ++ new)%list /\
    trace (snd (loop_body net st)) = (trace st ++ evs)%list /\
    existsb is_write evs = false /\
    (fst (loop_body net st) = Ok false ->
     snd (loop_body net st) = log (Get (catalog_url (page_no st))) st /\
     exists response,
       http_get net (List.length (trace st)) (catalog_url (page_no st)) = Some response /\
       status_code response = 200%Z /\
       find (BeautifulSoup (text response)) "a" detail_link = None).
Proof.
  rewrite loop_body_unfold. cbv zeta.
  set (st1 := log (Get (catalog_url (page_no st))) st).
  assert (Hstop : exists evs new,
      path_to_dir st1 = path_to_dir st /\
      ads st1 = (ads st ++ new)%list /\
      trace st1 = (trace st ++ evs)%list /\
      existsb is_write evs = false).
  { exists [Get (catalog_url (page_no st))], []. cbn. rewrite app_nil_r. auto. }
  destruct Hstop as (evs1 & new1 & Hp1 & Ha1 & Ht1 & Hw1).
  destruct (http_get net _ (catalog_url (page_no st))) as [response|].
  2:{ exists evs1, new1. cbn [fst snd]. repeat split; auto; discriminate. }
  destruct (Z.eqb_spec (status_code response) 200) as [Hstatus|].
  2:{ exists evs1, new1. cbn [fst snd]. repeat split; auto; discriminate. }
  destruct (find _ "a" detail_link) as [link|] eqn:Hlink.
  2:{ exists evs1, new1. cbn [fst snd]. repeat split; auto. now exists response. }
  destruct (get link "href") as [href|].
  2:{ exists evs1, new1. cbn [fst snd]. repeat split; auto; discriminate. }
  clear evs1 new1 Hp1 Ha1 Ht1 Hw1.
  rewrite visit_unfold. cbv zeta.
  set (url := WEBSITE_URL ++ strip href).
  assert (Hstop : exists evs new,
      path_to_dir (log (Get url) st1) = path_to_dir st /\
      ads (log (Get url) st1) = (ads st ++ new)%list /\
      trace (log (Get url) st1) = (trace st ++ evs)%list /\
      existsb is_write evs = false).
  { exists [Get (catalog_url (page_no st)); Get url], []. cbn.
    rewrite app_nil_r, <- app_assoc. auto. }
  destruct Hstop as (evs2 & new2 & Hp2 & Ha2 & Ht2 & Hw2).
  destruct (http_get net _ url) as [response2|].
  2:{ exists evs2, new2. cbn [fst snd]. repeat split; auto; discriminate. }
  destruct (get_page_config _ _ _) as [config|] eqn:Hconfig.
  2:{ exists evs2, new2. cbn [fst snd]. repeat split; auto; discriminate. }
  clear evs2 new2 Hp2 Ha2 Ht2 Hw2.
  apply get_page_config_shape in Hconfig
    as (doc & title & price & mileage & color & power & description & -> & Hconfig).
  match goal with
  | |- context [download_images net (Some doc) 3 ?s] =>
      destruct (download_images_effects net doc 3 s) as (urls & rest & _ & Hsnd & _);
      destruct (download_images net (Some doc) 3 s) as [[[]|e] st4]
  end; cbn [snd] in Hsnd; subst st4;
    exists (Get (catalog_url (page_no st)) :: Get url
              :: Mkdir (listing_dir (appended config (log (Get url) st1)))
              :: retrievals (appended config (log (Get url) st1)) 0 urls),
            [config];
    cbn [fst snd advanced path_to_dir ads trace appended log st1];
    (repeat split;
     [ now rewrite <- !app_assoc
     | cbn [existsb is_write orb]; apply retrievals_not_write
     | discriminate .. ]).
Qed.

Lemma discovered_from_app (tr more : list event) (n : Z) (config : value) :
  discovered_from net tr n config -> discovered_from net (tr ++ more)%list n config.
Proof.
  intros (before & after & response & link & href & -> & Hrest).
  exists before, (after ++ more)%list, response, link, href.
  split; [now rewrite <- app_assoc | exact Hrest].
Qed.

Lemma invariant_log (e : event) (st : state) :
  invariant net st -> invariant net (log e st).
Proof.
  intros [Hpage Hrec]. split; [exact Hpage |].
  intros i config Hi. destruct (Hrec i config Hi) as (Hid & Hdir & Hfrom).
  cbn [log path_to_dir trace].
  repeat split; [exact Hid | apply in_or_app; now left | now apply discovered_from_app].
Qed.

(** The object [__init__] leaves behind satisfies the invariant. *)
Lemma init_invariant (path : string) : invariant net (init path).
Proof.
  split; [reflexivity |]. intros [|i] config Hi; discriminate.
Qed.

(** A pass that goes on appends one record and keeps the invariant. *)
Lemma pass_keeps_invariant (st st' : state) :
  invariant net st -> loop_body net st = (Ok true, st') ->
  invariant net st' /\
  exists config,
    let n := Z.of_nat (List.length (ads st) + 1) in
    ads st' = (ads st ++ [config])%list /\
    field "id" config = Some (VInt n) /\
    In (Mkdir (path_to_dir st ++ "/" ++ str n)) (trace st') /\
    discovered_from net (trace st') n config.
Proof.
  intros [Hpage Hrec] Hbody.
  apply loop_body_continue in Hbody
    as (response & link & href & config & urls
        & Hget & Hstatus & Hlink & Hattr & Hid & Hhref & _ & ->).
  cbn [ads trace path_to_dir page_no].
  assert (Hn : page_no st = Z.of_nat (List.length (ads st) + 1)) by lia.
  set (tr := (trace st ++ Get (catalog_url (page_no st))
                :: Get (WEBSITE_URL ++ strip href)
                :: Mkdir (path_to_dir st ++ "/" ++ str (page_no st))
                :: retrievals (appended config (log (Get (WEBSITE_URL ++ strip href))
                                 (log (Get (catalog_url (page_no st))) st))) 0 urls)%list).
  assert (Hnew :
    field "id" config = Some (VInt (page_no st)) /\
    In (Mkdir (path_to_dir st ++ "/" ++ str (page_no st))) tr /\
    discovered_from net tr (page_no st) config).
  { repeat split; [exact Hid | |].
    - apply in_or_app. right. right. right. now left.
    - exists (trace st), (Get (WEBSITE_URL ++ strip href)
                           :: Mkdir (path_to_dir st ++ "/" ++ str (page_no st))
                           :: retrievals (appended config
                                (log (Get (WEBSITE_URL ++ strip href))
                                   (log (Get (catalog_url (page_no st))) st))) 0 urls),
             response, link, href.
      repeat split; assumption. }
  split.
  - split; [cbn [ads page_no]; rewrite length_app; cbn [List.length]; lia |].
    intros i cfg Hi. cbn [ads trace path_to_dir] in Hi |- *.
    destruct (Nat.lt_ge_cases i (List.length (ads st))) as [Hold | Hlast].
    + rewrite nth_error_app1 in Hi by exact Hold.
      destruct (Hrec i cfg Hi) as (Hid' & Hdir' & Hfrom').
      repeat split; [exact Hid' | apply in_or_app; now left
                     | now apply discovered_from_app].
    + rewrite nth_error_app2 in Hi by exact Hlast.
      destruct (i - List.length (ads st)) as [|k] eqn:Hk;
        [| destruct k; discriminate].
      cbn in Hi. injection Hi as <-.
      replace (Z.of_nat i + 1)%Z with (page_no st) by lia. exact Hnew.
  - exists config. cbv zeta. rewrite <- Hn. split; [reflexivity | exact Hnew].
Qed.

(** C5. Every pass through the loop keeps the invariant: the record at
    position [n] (counting from 1) has id [n], the directory [<output>/<n>]
    was created for it, and its address was read from the catalog page
    requested with [currentpage=n].  A pass leaves the earlier records as
    they are and in place; a pass that goes on appended one record, whose id
    is its position. *)
Theorem loop_body_preserves_invariant (st : state) :
  invariant net st ->
  (exists new, ads (snd (loop_body net st)) = (ads st ++ new)%list) /\
  (fst (loop_body net st) = Ok false ->
   ads (snd (loop_body net st)) = ads st /\ invariant net (snd (loop_body net st))) /\
  (fst (loop_body net st) = Ok true ->
   invariant net (snd (loop_body net st)) /\
   exists config,
     let n := Z.of_nat (List.length (ads st) + 1) in
     ads (snd (loop_body net st)) = (ads st ++ [config])%list /\
     field "id" config = Some (VInt n) /\
     In (Mkdir (path_to_dir st ++ "/" ++ str n)) (trace (snd (loop_body net st))) /\
     discovered_from net (trace (snd (loop_body net st))) n config).
Proof.
  intros Hinv. split; [| split].
  - destruct (loop_body_effects st) as (evs & new & _ & Hads & _). now exists new.
  - intros Hbreak.
    destruct (loop_body_effects st) as (evs & new & _ & _ & _ & _ & Hstop).
    destruct (Hstop Hbreak) as [-> _]. split; [reflexivity | now apply invariant_log].
  - intros Hcont.
    destruct (loop_body net st) as [r st'] eqn:Hbody. cbn [fst snd] in *. subst r.
    now apply pass_keeps_invariant.
Qed.

(** After [n] passes that went on there are [n] records, and the invariant
    holds. *)
Lemma after_passes_invariant (n : nat) :
  forall st0 st,
    invariant net st0 -> after_passes net n st0 = Some st ->
    invariant net st /\ List.length (ads st) = List.length (ads st0) + n.
Proof.
  induction n as [|n IH]; intros st0 st Hinv Hafter; cbn [after_passes] in Hafter.
  - injection Hafter as <-. split; [exact Hinv | lia].
  - destruct (loop_body net st0) as [[[|]|] st1] eqn:Hbody; try discriminate.
    destruct (pass_keeps_invariant st0 st1 Hinv Hbody) as (Hinv1 & config & Hads & _).
    destruct (IH st1 st Hinv1 Hafter) as [Hinv' Hlen].
    split; [exact Hinv' |]. rewrite Hlen, Hads, length_app. cbn. lia.
Qed.

Lemma while_true_step (fuel : nat) (body : M bool) (st : state) :
  while_true (S fuel) body st =
  match body st with
  | (Ok true, st') => while_true fuel body st'
  | (Ok false, st') => (Ok (Some tt), st')
  | (Raise e, st') => (Raise e, st')
  end.
Proof.
  cbn [while_true]. unfold bind. destruct (body st) as [[[|]|e] st']; reflexivity.
Qed.

Lemma process_unfold (fuel : nat) (st : state) :
  process net fuel st =
  match while_true fuel (loop_body net) st with
  | (Ok (Some _), st') =>
      (if storable (data st') then Ok (Some tt) else Raise UnicodeEncodeError,
       log (WriteFile (path_to_dir st' ++ "/data.json") (written (data st'))) st')
  | (Ok None, st') => (Ok None, st')
  | (Raise e, st') => (Raise e, st')
  end.
Proof.
  unfold process. unfold bind at 1.
  destruct (while_true fuel (loop_body net) st) as [[[[]|]|e] st']; try reflexivity.
  unfold bind at 1. unfold get_state at 1. unfold save_json_data.
  rewrite write_chunks_storable.
  destruct (storable (data st')); reflexivity.
Qed.

(** ** The exceptions of a pass *)

Lemma int_raises (s : string) (e : exn) : int s = Raise e -> e = ValueError.
Proof.
  unfold int.
  destruct (match int_rstrip (int_lstrip s) with
            | String "-" r => option_map Z.opp (int_unsigned r)
            | String "+" r => int_unsigned r
            | _ => int_unsigned (int_rstrip (int_lstrip s))
            end); [discriminate | now intros [= <-]].
Qed.

Lemma convert_str_to_int_raises (text : string) (e : exn) :
  convert_str_to_int text = Raise e -> e = ValueError.
Proof.
  unfold convert_str_to_int.
  destruct (search NUMBER_RE text); [apply int_raises | discriminate].
Qed.

Lemma get_page_config_raises (st : state) (page : option Tag) (url : string) (e : exn) :
  get_page_config st page url = Raise e -> e = AttributeError \/ e = ValueError.
Proof.
  unfold get_page_config. destruct page as [doc|]; [| intros [= <-]; now left].
  cbn [deref bind_result].
  destruct (find doc "div" [("class", "data-basic")]) as [basic|];
    [| intros [= <-]; now left].
  cbn [deref bind_result].
  destruct (find doc "div" [("class", "sc-expandable-box__content sc-grid-row")])
    as [spec|]; [| intros [= <-]; now left].
  cbn [deref bind_result].
  match goal with
  | |- context [bind_result (convert_str_to_int ?t) _] =>
      destruct (convert_str_to_int t) as [price|e1] eqn:H1; cbn [bind_result];
        [clear H1 | intros [= <-]; right; exact (convert_str_to_int_raises _ _ H1)]
  end.
  cbn [bind_result].
  match goal with
  | |- context [bind_result (convert_str_to_int ?t) _] =>
      destruct (convert_str_to_int t) as [mileage|e2] eqn:H2; cbn [bind_result];
        [clear H2 | intros [= <-]; right; exact (convert_str_to_int_raises _ _ H2)]
  end.
  cbn [bind_result].
  match goal with
  | |- context [bind_result (convert_str_to_int ?t) _] =>
      destruct (convert_str_to_int t) as [power|e3] eqn:H3; cbn [bind_result];
        [clear H3 | intros [= <-]; right; exact (convert_str_to_int_raises _ _ H3)]
  end.
  discriminate.
Qed.

(** No pass raises the exception of the encoder. *)
Lemma loop_body_raises (st : state) (e : exn) :
  fst (loop_body net st) = Raise e -> e <> UnicodeEncodeError.
Proof.
  rewrite loop_body_unfold. cbv zeta.
  destruct (http_get net _ (catalog_url (page_no st))) as [response|];
    [| now intros [= <-]].
  destruct (status_code response =? 200)%Z; [| now intros [= <-]].
  destruct (find _ "a" detail_link) as [link|]; [| discriminate].
  destruct (get link "href") as [href|]; [| now intros [= <-]].
  rewrite visit_unfold. cbv zeta.
  destruct (http_get net _ (WEBSITE_URL ++ strip href)) as [response2|];
    [| now intros [= <-]].
  destruct (get_page_config _ _ _) as [config|e1] eqn:Hconfig.
  - match goal with
    | |- context [download_images net ?page 3 ?s] =>
        pose proof (download_images_raises net page 3 s) as Hdl;
        destruct (download_images net page 3 s) as [[[]|e2] st4]
    end; [discriminate |].
    cbn [fst] in Hdl |- *. intros [= <-].
    destruct (Hdl e2 eq_refl) as [-> | ->]; discriminate.
  - cbn [fst]. intros [= <-].
    destruct (get_page_config_raises _ _ _ _ Hconfig) as [-> | ->]; discriminate.
Qed.

Lemma while_true_exceptions (fuel : nat) :
  forall st e,
    fst (while_true fuel (loop_body net) st) = Raise e -> e <> UnicodeEncodeError.
Proof.
  induction fuel as [|fuel IH]; intros st e; [discriminate |].
  rewrite while_true_step.
  pose proof (loop_body_raises st) as Hbody.
  destruct (loop_body net st) as [[[|]|e1] st1]; cbn [fst] in Hbody |- *.
  - apply IH.
  - discriminate.
  - intros [= <-]. now apply Hbody.
Qed.

(** The pass at a catalog page without a listing link is the last. *)
Lemma loop_body_break (st : state) (response : response) :
  http_get net (List.length (trace st)) (catalog_url (page_no st)) = Some response ->
  status_code response = 200%Z ->
  find (BeautifulSoup (text response)) "a" detail_link = None ->
  loop_body net st = (Ok false, log (Get (catalog_url (page_no st))) st).
Proof.
  intros Hget Hstatus Hlink. rewrite loop_body_unfold. cbv zeta.
  now rewrite Hget, Hstatus, Hlink.
Qed.

(** The loop writes nothing, however it ends. *)
Lemma while_true_effects (fuel : nat) :
  forall st, exists evs,
    path_to_dir (snd (while_true fuel (loop_body net) st)) = path_to_dir st /\
    trace (snd (while_true fuel (loop_body net) st)) = (trace st ++ evs)%list /\
    existsb is_write evs = false.
Proof.
  induction fuel as [|fuel IH]; intros st.
  - exists []. cbn. now rewrite app_nil_r.
  - rewrite while_true_step.
    destruct (loop_body_effects st) as (evs & new & Hpath & _ & Htrace & Hnw & _).
    destruct (loop_body net st) as [[[|]|e] st1]; cbn [snd] in Hpath, Htrace |- *;
      try (exists evs; now repeat split).
    destruct (IH st1) as (evs' & Hpath' & Htrace' & Hnw').
    exists (evs ++ evs')%list. repeat split.
    + congruence.
    + now rewrite Htrace', Htrace, app_assoc.
    + rewrite existsb_app, Hnw, Hnw'. reflexivity.
Qed.

(** The loop is left through its [break] only. *)
Lemma while_true_exit (fuel : nat) :
  forall st0 st',
    while_true fuel (loop_body net) st0 = (Ok (Some tt), st') ->
    exists n st,
      n < fuel /\ after_passes net n st0 = Some st /\
      loop_body net st = (Ok false, st').
Proof.
  induction fuel as [|fuel IH]; intros st0 st' Hrun; [discriminate |].
  rewrite while_true_step in Hrun.
  destruct (loop_body net st0) as [[[|]|e] st1] eqn:Hbody; try discriminate.
  - destruct (IH st1 st' Hrun) as (n & st & Hn & Hafter & Hlast).
    exists (S n), st. split; [lia |]. split; [| exact Hlast].
    cbn [after_passes]. now rewrite Hbody.
  - injection Hrun as <-. exists 0, st0. split; [lia |]. now split.
Qed.

Lemma while_true_reaches (n : nat) :
  forall st0 st st' fuel,
    after_passes net n st0 = Some st ->
    loop_body net st = (Ok false, st') ->
    n < fuel ->
    while_true fuel (loop_body net) st0 = (Ok (Some tt), st').
Proof.
  induction n as [|n IH]; intros st0 st st' [|fuel] Hafter Hlast Hfuel; try lia;
    cbn [after_passes] in Hafter; rewrite while_true_step.
  - injection Hafter as <-. now rewrite Hlast.
  - destruct (loop_body net st0) as [[[|]|e] st1]; try discriminate.
    apply (IH st1 st st' fuel Hafter Hlast). lia.
Qed.

(** The records of the passes that went on can be read back and encoded
    when those before them can. *)
Lemma after_passes_records (n : nat) :
  forall st0 st,
    after_passes net n st0 = Some st ->
    (forallb well_formed (ads st0) = true -> forallb well_formed (ads st) = true) /\
    (forallb storable (ads st0) = true -> forallb storable (ads st) = true).
Proof.
  induction n as [|n IH]; intros st0 st Hafter; cbn [after_passes] in Hafter.
  - injection Hafter as <-. now split.
  - destruct (loop_body net st0) as [[[|]|] st1] eqn:Hbody; try discriminate.
    apply loop_body_continue in Hbody
      as (response & link & href & config & urls
          & _ & _ & _ & _ & _ & _ & (Hwf & Hst) & ->).
    destruct (IH _ st Hafter) as [IHwf IHst]. cbn [ads] in IHwf, IHst.
    split; intros H0; [apply IHwf | apply IHst];
      rewrite forallb_app, H0; cbn [forallb]; now rewrite ?Hwf, ?Hst.
Qed.

Lemma data_storable (st : state) : storable (data st) = forallb storable (ads st).
Proof. unfold data. cbn [storable forallb fst snd]. now rewrite andb_true_r. Qed.

Lemma data_well_formed (st : state) :
  well_formed (data st) = forallb well_formed (ads st).
Proof. unfold data. cbn. now rewrite andb_true_r. Qed.

(** C4. [data.json] is written exactly once, as the last effect of a run
    that left the loop, and never before: whatever the run does (returns,
    raises, or is still looping after [fuel] passes), no pass writes, and
    the only exception that comes after the write is that of the write
    itself.  The loop is left only at a catalog page without a listing
    link; and when the catalog page reached after [n] listings is the first
    without one, every run of more than [n] passes ends there, its last two
    effects being the request of that page and the write of the document.
    That run returns, having written the whole document, unless a record
    holds a character that UTF-8 cannot carry; no record of a scraped page
    does, so that a run whose records at the start can be encoded
    returns. *)
Theorem process_writes_once_at_exit (st0 : state) :
  (forall fuel, exists evs,
      existsb is_write evs = false /\
      trace (snd (process net fuel st0))
      = (trace st0 ++ evs
           ++ match fst (process net fuel st0) with
              | Ok (Some _) | Raise UnicodeEncodeError =>
                  [WriteFile (path_to_dir st0 ++ "/data.json")
                     (written (data (snd (process net fuel st0))))]
              | _ => []
              end)%list) /\
  (forall fuel, fst (process net fuel st0) = Ok (Some tt) ->
      exists n st response,
        n < fuel /\ after_passes net n st0 = Some st /\
        http_get net (List.length (trace st)) (catalog_url (page_no st)) = Some response /\
        status_code response = 200%Z /\
        find (BeautifulSoup (text response)) "a" detail_link = None) /\
  (forall n st response,
      after_passes net n st0 = Some st ->
      http_get net (List.length (trace st)) (catalog_url (page_no st)) = Some response ->
      status_code response = 200%Z ->
      find (BeautifulSoup (text response)) "a" detail_link = None ->
      (forall fuel, n < fuel ->
         process net fuel st0
         = (if storable (data st) then Ok (Some tt) else Raise UnicodeEncodeError,
            log (WriteFile (path_to_dir st ++ "/data.json") (written (data st)))
                (log (Get (catalog_url (page_no st))) st))) /\
      (storable (data st) = true ->
       utf8_encode (dumps (data st)) = Some (written (data st))) /\
      (storable (data st0) = true -> storable (data st) = true)).
Proof.
  split; [| split].
  - intros fuel. rewrite process_unfold.
    destruct (while_true_effects fuel st0) as (evs & Hpath & Htrace & Hnw).
    pose proof (while_true_exceptions fuel st0) as Hraise.
    exists evs. split; [exact Hnw |].
    destruct (while_true fuel (loop_body net) st0) as [[[[]|]|e] st'];
      cbn [fst snd log trace data ads] in *.
    + fold (data st'). destruct (storable (data st'));
        cbn [fst snd log trace data ads]; now rewrite Htrace, Hpath, <- app_assoc.
    + now rewrite Htrace, app_nil_r.
    + specialize (Hraise e eq_refl).
      destruct e; try contradiction; now rewrite Htrace, app_nil_r.
  - intros fuel Hdone. rewrite process_unfold in Hdone.
    destruct (while_true fuel (loop_body net) st0) as [[[[]|]|e] st'] eqn:Hrun;
      try discriminate.
    destruct (while_true_exit fuel st0 st' Hrun) as (n & st & Hn & Hafter & Hlast).
    destruct (loop_body_effects st) as (_ & _ & _ & _ & _ & _ & Hstop).
    rewrite Hlast in Hstop. destruct (Hstop eq_refl) as (_ & response & Hresp).
    now exists n, st, response.
  - intros n st response Hafter Hget Hstatus Hlink. split; [| split].
    + intros fuel Hfuel. rewrite process_unfold.
      now rewrite (while_true_reaches n st0 st _ fuel Hafter
                     (loop_body_break st response Hget Hstatus Hlink) Hfuel).
    + apply written_storable.
    + rewrite !data_storable. apply (after_passes_records n st0 st Hafter).
Qed.

(** ** The document of a run *)

(** X20. The file a finished run leaves reads back as the records of the
    run: the last event of the run writes [data.json], and loading what was
    written gives the document the object holds.  This holds for a fresh
    scraper, and for one that already holds records, whatever characters
    their texts are made of, as long as each record has each key once. *)
Lemma process_output_reads_back (st0 : state) (fuel : nat) :
  forallb well_formed (ads st0) = true ->
  fst (process net fuel st0) = Ok (Some tt) ->
  exists evs content,
    trace (snd (process net fuel st0))
    = (evs ++ [WriteFile (path_to_dir st0 ++ "/data.json") content])%list /\
    utf8_encode (dumps (data (snd (process net fuel st0)))) = Some content /\
    load content = Some (data (snd (process net fuel st0))).
Proof.
  intros Hwf0. rewrite process_unfold.
  destruct (while_true_effects fuel st0) as (evs & Hpath & Htrace & _).
  destruct (while_true fuel (loop_body net) st0) as [[[[]|]|e] st'] eqn:Hrun;
    try discriminate.
  cbn [fst snd] in Hpath, Htrace |- *.
  destruct (storable (data st')) eqn:Hst; [intros _ | discriminate].
  destruct (while_true_exit fuel st0 st' Hrun) as (n & st & _ & Hafter & Hlast).
  assert (Hwf : well_formed (data st') = true).
  { destruct (loop_body_effects st) as (_ & _ & _ & _ & _ & _ & Hstop).
    rewrite Hlast in Hstop. cbn [fst snd] in Hstop.
    destruct (Hstop eq_refl) as [Hst' _]. rewrite Hst', data_well_formed. cbn [log ads].
    now apply (after_passes_records n st0 st Hafter). }
  exists (trace st'), (written (data st')).
  cbn [log trace data ads]. fold (data st').
  split; [now rewrite Hpath |].
  split; [now apply written_storable |].
  apply load_of_dump; [exact Hwf | now apply written_storable].
Qed.

End Driver.

Lemma loop_body_preserves_invariant_witness :
  invariant (H := Dom.soup Dom.sample_pages) Dom.sample_net (init "data") /\
  fst (loop_body (H := Dom.soup Dom.sample_pages) Dom.sample_net (init "data")) = Ok true /\
  invariant (H := Dom.soup Dom.sample_pages) Dom.sample_net
    (snd (loop_body (H := Dom.soup Dom.sample_pages) Dom.sample_net (init "data"))).
Proof.
  pose proof (init_invariant (H := Dom.soup Dom.sample_pages) Dom.sample_net "data")
    as Hinit.
  split; [exact Hinit |]. split; [reflexivity |].
  destruct (loop_body_preserves_invariant (H := Dom.soup Dom.sample_pages)
              Dom.sample_net (init "data") Hinit) as (_ & _ & Hcont).
  apply Hcont. reflexivity.
Defined.

Lemma process_writes_once_at_exit_witness :
  let st1 := snd (loop_body (H := Dom.soup Dom.sample_pages) Dom.sample_net (init "data")) in
  after_passes (H := Dom.soup Dom.sample_pages) Dom.sample_net 1 (init "data") = Some st1 /\
  http_get Dom.sample_net (List.length (trace st1)) (catalog_url (page_no st1))
  = Some (Response 200 "catalog-empty") /\
  find (Soup := Dom.soup Dom.sample_pages)
       (BeautifulSoup (Soup := Dom.soup Dom.sample_pages) "catalog-empty") "a" detail_link
  = None /\
  (1 < 2)%nat /\
  process (H := Dom.soup Dom.sample_pages) Dom.sample_net 2 (init "data")
  = (Ok (Some tt),
     log (WriteFile "data/data.json" (written (data st1)))
         (log (Get (catalog_url 2)) st1)) /\
  utf8_encode (dumps (data st1)) = Some (written (data st1)).
Proof.
  cbv zeta.
  assert (Hafter : after_passes (H := Dom.soup Dom.sample_pages) Dom.sample_net 1 (init "data")
                   = Some (snd (loop_body (H := Dom.soup Dom.sample_pages)
                                  Dom.sample_net (init "data"))))
    by reflexivity.
  split; [exact Hafter |]. split; [reflexivity |]. split; [reflexivity |].
  split; [lia |].
  destruct (process_writes_once_at_exit (H := Dom.soup Dom.sample_pages)
              Dom.sample_net (init "data")) as (_ & _ & Hexit).
  destruct (Hexit 1 _ (Response 200 "catalog-empty") Hafter eq_refl eq_refl eq_refl)
    as (Hrun & Hwritten & _).
  split; [exact (Hrun 2 (le_n 2)) | exact (Hwritten eq_refl)].
Defined.

Lemma process_output_reads_back_witness :
  let st0 :=
    State "data"
          [VDict [(unicode "id", VInt 0);
                  (unicode "title", VStr ([8364; 32; 49; 50; 32; 128666]%N))]]
          1 [] in
  forallb well_formed (ads st0) = true /\
  fst (process (H := Dom.soup Dom.sample_pages) Dom.sample_net 2 st0) = Ok (Some tt) /\
  exists evs content,
    trace (snd (process (H := Dom.soup Dom.sample_pages) Dom.sample_net 2 st0))
    = (evs ++ [WriteFile "data/data.json" content])%list /\
    load content
    = Some (data (snd (process (H := Dom.soup Dom.sample_pages) Dom.sample_net 2 st0))).
Proof.
  cbv zeta. split; [reflexivity |]. split; [reflexivity |].
  destruct (@process_output_reads_back _ (Dom.soup Dom.sample_pages) Dom.sample_net
              (State "data"
                 [VDict [(unicode "id", VInt 0);
                         (unicode "title", VStr ([8364; 32; 49; 50; 32; 128666]%N))]]
                 1 [])
              2 eq_refl eq_refl)
    as (evs & content & Htrace & _ & Hload).
  exists evs, content. split; [exact Htrace | exact Hload].
Defined.

Lemma convert_str_to_int_no_digit_witness :
  has_digit "auf Anfrage" = false /\ convert_str_to_int "auf Anfrage" = Ok 0%Z.
Proof.
  split; [reflexivity |].
  apply (convert_str_to_int_no_digit "auf Anfrage" eq_refl).
Defined.

Lemma image_extension_without_dot_witness :
  contains "." "image" = false /\ image_extension "image" = "image".
Proof.
  split; [reflexivity |].
  apply (image_extension_without_dot "image" eq_refl).
Defined.

(* ===================================================================== *)
(** * Further properties *)
(* ===================================================================== *)

(** ** Trimming *)

Lemma rstrip_idempotent (s : string) : rstrip (rstrip s) = rstrip s.
Proof.
  induction s as [|c r IH]; [reflexivity |].
  cbn [rstrip]. destruct (isspace c && (rstrip r =? ""))%bool eqn:E; [reflexivity |].
  cbn [rstrip]. now rewrite IH, E.
Qed.

Lemma lstrip_rstrip (s : string) : lstrip (rstrip (lstrip s)) = rstrip (lstrip s).
Proof.
  induction s as [|c r IH]; [reflexivity |].
  cbn [lstrip]. destruct (isspace c) eqn:Hc; [exact IH |].
  cbn [rstrip]. rewrite Hc. cbn [andb lstrip]. now rewrite Hc.
Qed.

Lemma lstrip_strip (s : string) : lstrip (strip s) = strip s.
Proof. apply lstrip_rstrip. Qed.

Lemma rstrip_strip (s : string) : rstrip (strip s) = strip s.
Proof. apply rstrip_idempotent. Qed.

Lemma strip_idempotent (s : string) : strip (strip s) = strip s.
Proof. unfold strip at 1. now rewrite lstrip_strip, rstrip_strip. Qed.

Lemma rstrip_app (a b : string) :
  rstrip b = b -> b <> "" -> rstrip (a ++ b) = a ++ b.
Proof.
  intros Hb Hne. induction a as [|c a IH]; [exact Hb |].
  cbn [String.append rstrip]. rewrite IH.
  destruct (a ++ b) eqn:E.
  - destruct a; [cbn in E; contradiction | discriminate].
  - cbn. now rewrite andb_false_r.
Qed.

Lemma rstrip_app_space (a : string) (c : ascii) :
  isspace c = true -> rstrip (a ++ String c "") = rstrip a.
Proof.
  intros Hc. induction a as [|x a IH]; cbn [String.append rstrip].
  - now rewrite Hc.
  - now rewrite IH.
Qed.

Lemma isdigit_not_space (c : ascii) : isdigit c = true -> isspace c = false.
Proof.
  unfold isdigit, isspace. intros H. apply andb_true_iff in H as [Hlo Hhi].
  apply Nat.leb_le in Hlo, Hhi.
  repeat match goal with
         | |- context [(?a <=? ?b)%nat] => destruct (Nat.leb_spec a b)
         | |- context [(?a =? ?b)%nat] => destruct (Nat.eqb_spec a b)
         end; try reflexivity; lia.
Qed.

Lemma rstrip_digits (ds : string) : all_digits ds = true -> rstrip ds = ds.
Proof.
  induction ds as [|c r IH]; [reflexivity |]. cbn [all_digits rstrip].
  intros H. apply andb_true_iff in H as [Hc Hr].
  now rewrite (isdigit_not_space c Hc), IH.
Qed.

(** ** [int] on the texts the pattern can hand over *)

Lemma uint_of_digits (ds : string) :
  all_digits ds = true -> exists u, NilEmpty.uint_of_string ds = Some u.
Proof.
  induction ds as [|c r IH]; [now exists Nil |].
  cbn [all_digits]. intros H. apply andb_true_iff in H as [Hc Hr].
  destruct (IH Hr) as (u & Hu). cbn [NilEmpty.uint_of_string]. rewrite Hu.
  destruct c as [[] [] [] [] [] [] [] []]; try discriminate Hc; eexists; reflexivity.
Qed.

Lemma int_unsigned_digits (ds : string) (u : uint) :
  NilEmpty.uint_of_string ds = Some u -> digits_value ds = Z.of_uint u.
Proof. unfold digits_value. now intros ->. Qed.

Lemma strip_underscores_digits (ds t : string) :
  all_digits ds = true ->
  strip_underscores true (ds ++ t)
  = option_map (String.append ds) (strip_underscores true t).
Proof.
  induction ds as [|c r IH]; intros H.
  - cbn. now destruct (strip_underscores true t).
  - cbn [all_digits] in H. apply andb_true_iff in H as [Hc Hr].
    cbn [String.append strip_underscores]. rewrite Hc, (IH Hr).
    now destruct (strip_underscores true t).
Qed.

Lemma strip_underscores_start (b : bool) (c : ascii) (r : string) :
  isdigit c = true ->
  strip_underscores b (String c r) = option_map (String c) (strip_underscores true r).
Proof. intros Hc. cbn [strip_underscores]. now rewrite Hc. Qed.

Lemma int_space_isspace (c : ascii) : int_space c = true -> isspace c = true.
Proof.
  unfold int_space, isspace. cbv zeta. intros Hc.
  apply orb_true_iff in Hc as [Hc | Hc]; [| now rewrite Hc, orb_true_r].
  apply orb_true_iff in Hc as [Hc | Hc]; [| now rewrite Hc, !orb_true_r].
  apply orb_true_iff in Hc as [Hc | Hc].
  - now rewrite Hc.
  - apply Nat.eqb_eq in Hc. now rewrite Hc.
Qed.

Lemma isdigit_not_int_space (c : ascii) : isdigit c = true -> int_space c = false.
Proof.
  intros Hc. destruct (int_space c) eqn:Hs; [| reflexivity].
  apply int_space_isspace in Hs. now rewrite (isdigit_not_space c Hc) in Hs.
Qed.

Lemma int_rstrip_app (a b : string) :
  int_rstrip b = b -> b <> "" -> int_rstrip (a ++ b) = a ++ b.
Proof.
  intros Hb Hne. induction a as [|c a IH]; [exact Hb |].
  cbn [String.append int_rstrip]. rewrite IH.
  destruct (a ++ b) eqn:E.
  - destruct a; [cbn in E; contradiction | discriminate].
  - cbn. now rewrite andb_false_r.
Qed.

Lemma int_rstrip_app_space (a : string) (c : ascii) :
  int_space c = true -> int_rstrip (a ++ String c "") = int_rstrip a.
Proof.
  intros Hc. induction a as [|x a IH]; cbn [String.append int_rstrip].
  - now rewrite Hc.
  - now rewrite IH.
Qed.

Lemma int_rstrip_digits (ds : string) : all_digits ds = true -> int_rstrip ds = ds.
Proof.
  induction ds as [|c r IH]; [reflexivity |]. cbn [all_digits int_rstrip].
  intros H. apply andb_true_iff in H as [Hc Hr].
  now rewrite (isdigit_not_int_space c Hc), IH.
Qed.

Lemma int_digit_start (s : string) (c : ascii) (r : string) :
  int_rstrip (int_lstrip s) = String c r -> isdigit c = true ->
  int s = match int_unsigned (String c r) with
          | Some n => Ok n
          | None => Raise ValueError
          end.
Proof.
  intros Hs Hc. unfold int. rewrite Hs.
  destruct c as [[] [] [] [] [] [] [] []]; try discriminate Hc; reflexivity.
Qed.

Lemma int_lstrip_digit_start (c : ascii) (r : string) :
  isdigit c = true -> int_lstrip (String c r) = String c r.
Proof. intros Hc. cbn. now rewrite (isdigit_not_int_space c Hc). Qed.

(** The decimal numeral of a number from 0 on is a non-empty run of
    digits, and its value is the number. *)
Lemma str_digits (n : Z) :
  (0 <= n)%Z -> all_digits (str n) = true /\ str n <> "" /\ digits_value (str n) = n.
Proof.
  intros Hn. pose proof (str_cases n) as Hstr. destruct n as [|p|p]; [| | lia].
  - rewrite Hstr. repeat split; discriminate.
  - rewrite Hstr. split; [| split].
    + generalize (Pos.to_uint p). clear. intros u. induction u; cbn; auto.
    + destruct (to_uint_head p) as (c & r & -> & _). discriminate.
    + unfold digits_value. rewrite NilEmpty.usu. apply of_uint_to_uint.
Qed.

(** ** What the pattern takes *)

Lemma run_length_all_digits (ds : string) (k : nat) (rest : string) :
  all_digits ds = true -> starts_with_digit rest = false ->
  run_length Digit None k (ds ++ rest) = k + String.length ds.
Proof.
  intros Hds Hrest. revert k. induction ds as [|c r IH]; intros k.
  - cbn. rewrite run_length_stop by exact Hrest. lia.
  - cbn [all_digits] in Hds. apply andb_true_iff in Hds as [Hc Hr].
    cbn [String.append run_length within andb class_matches String.length].
    rewrite Hc, (IH Hr). lia.
Qed.

Lemma backtrack_first (f : nat -> option nat) (lo k n : nat) :
  f k = Some n -> backtrack f lo k = Some n.
Proof. intros Hf. destruct k; cbn; now rewrite Hf. Qed.

Lemma run_length_from (k : nat) (cl : charclass) (s : string) :
  run_length cl None k s = k + run_length cl None 0 s.
Proof.
  revert k. induction s as [|c r IH]; intros k; cbn [run_length within andb].
  - lia.
  - destruct (class_matches cl c); [| lia]. rewrite (IH (S k)), (IH 1). lia.
Qed.

Lemma match_here_cons (it : item) (rest : list item) (s : string) :
  match_here (it :: rest) s
  = if (run_length (cls it) (hi it) 0 s <? lo it)%nat then None
    else backtrack (fun k => option_map (Nat.add k) (match_here rest (drop k s)))
                   (lo it) (run_length (cls it) (hi it) 0 s).
Proof. reflexivity. Qed.

Lemma match_digits (s : string) :
  match_here [Item Digit 0 None] s = Some (run_length Digit None 0 s).
Proof.
  rewrite match_here_cons. cbn [cls lo hi].
  change (?n <? 0)%nat with false. cbv iota.
  apply backtrack_first. cbn. now rewrite Nat.add_0_r.
Qed.

Lemma match_separator (tail : string) :
  match_here [Item AnyChar 0 (Some 1); Item Digit 0 None] tail
  = Some (separator_length tail).
Proof.
  rewrite match_here_cons. cbn [cls lo hi].
  change (?n <? 0)%nat with false. cbv iota.
  destruct tail as [|c r].
  - reflexivity.
  - cbn [run_length within class_matches separator_length].
    change (0 <? 1)%nat with true. cbn [andb].
    destruct (Ascii.eqb c LF) eqn:Hc; cbn [negb].
    + apply backtrack_first. cbv beta. cbn [drop]. rewrite match_digits.
      apply Ascii.eqb_eq in Hc. subst c. reflexivity.
    + assert (Hone : run_length AnyChar (Some 1) 1 r = 1) by now destruct r.
      rewrite Hone. apply backtrack_first. cbv beta. cbn [drop].
      now rewrite match_digits.
Qed.

Lemma match_number (ds tail : string) :
  all_digits ds = true -> ds <> "" -> starts_with_digit tail = false ->
  match_here NUMBER_RE (ds ++ tail)
  = Some (String.length ds + separator_length tail).
Proof.
  intros Hds Hne Htail. unfold NUMBER_RE. rewrite match_here_cons. cbn [cls lo hi].
  rewrite run_length_all_digits by assumption. cbn [Nat.add].
  destruct (String.length ds) as [|n] eqn:Hlen; [now destruct ds |].
  change (S n <? 1)%nat with false. cbv iota.
  apply backtrack_first. cbv beta. rewrite <- Hlen, drop_append, match_separator.
  reflexivity.
Qed.

Lemma search_skips (pre s : string) :
  has_digit pre = false -> search NUMBER_RE (pre ++ s) = search NUMBER_RE s.
Proof.
  induction pre as [|c r IH]; intros Hd; [reflexivity |].
  cbn [has_digit] in Hd. apply orb_false_iff in Hd as [Hc Hr].
  cbn [String.append search].
  assert (Hnone : match_here NUMBER_RE (String c (r ++ s)) = None).
  { unfold NUMBER_RE. rewrite match_here_cons.
    cbn [cls lo hi run_length within andb class_matches]. now rewrite Hc. }
  rewrite Hnone. apply IH, Hr.
Qed.

Lemma substring_past (a b : string) (m : nat) :
  substring 0 (String.length a + m) (a ++ b) = a ++ substring 0 m b.
Proof. induction a as [|x a IH]; cbn; [reflexivity | now rewrite IH]. Qed.

Lemma search_number (pre ds tail : string) :
  has_digit pre = false -> all_digits ds = true -> ds <> "" ->
  starts_with_digit tail = false ->
  search NUMBER_RE (pre ++ ds ++ tail)
  = Some (ds ++ substring 0 (separator_length tail) tail).
Proof.
  intros Hpre Hds Hne Htail. rewrite search_skips by exact Hpre.
  destruct (ds ++ tail) as [|c r] eqn:E; [now destruct ds |].
  cbn [search]. rewrite <- E, match_number by assumption.
  now rewrite substring_past.
Qed.

(** ** The value of a digit run *)

Lemma uint_of_string_app (s1 s2 : string) (u2 : uint) :
  NilEmpty.uint_of_string s2 = Some u2 ->
  forall u1, NilEmpty.uint_of_string s1 = Some u1 ->
  NilEmpty.uint_of_string (s1 ++ s2) = Some (Decimal.app u1 u2).
Proof.
  intros H2. induction s1 as [|a s1 IH]; intros u1 H1.
  - cbn in H1. injection H1 as <-. now rewrite DecimalFacts.app_nil_l.
  - cbn [String.append NilEmpty.uint_of_string] in *.
    destruct (NilEmpty.uint_of_string s1) as [u1'|] eqn:E; [| discriminate].
    rewrite (IH u1' eq_refl).
    apply uint_of_char_spec in H1.
    repeat (destruct H1 as [[-> ->] | H1]); [.. | destruct H1 as [-> ->]];
      cbn [uint_of_char]; f_equal; apply DecimalFacts.to_list_inj;
      rewrite DecimalFacts.app_spec; cbn [DecimalFacts.to_list];
      now rewrite DecimalFacts.app_spec.
Qed.

Lemma of_uint_app (u1 u2 : uint) :
  Pos.of_uint (Decimal.app u1 u2)
  = (Pos.of_uint u1 * 10 ^ DecimalPos.Unsigned.usize u2 + Pos.of_uint u2)%N.
Proof.
  rewrite !DecimalPos.Unsigned.of_uint_alt.
  assert (Hrev : Decimal.rev (Decimal.app u1 u2) = Decimal.revapp u2 (Decimal.rev u1)).
  { apply DecimalFacts.to_list_inj.
    rewrite DecimalFacts.rev_spec, DecimalFacts.app_spec, DecimalFacts.revapp_spec.
    rewrite DecimalFacts.rev_spec, rev_app_distr. now rewrite rev_append_rev. }
  rewrite Hrev, DecimalPos.Unsigned.of_lu_revapp. apply N.add_comm.
Qed.

Lemma usize_of_string (s : string) (u : uint) :
  NilEmpty.uint_of_string s = Some u ->
  DecimalPos.Unsigned.usize u = N.of_nat (String.length s).
Proof.
  revert u. induction s as [|a s IH]; intros u Hu.
  - cbn in Hu. now injection Hu as <-.
  - cbn [NilEmpty.uint_of_string] in Hu.
    destruct (NilEmpty.uint_of_string s) as [u'|] eqn:E; [| discriminate].
    apply uint_of_char_spec in Hu.
    repeat (destruct Hu as [[-> ->] | Hu]); [.. | destruct Hu as [-> ->]];
      cbn [DecimalPos.Unsigned.usize String.length]; rewrite (IH u' eq_refl); lia.
Qed.

(** Digits put before [k] more digits count [10 ^ k] times their value. *)
Lemma digits_value_app (ds1 ds2 : string) :
  all_digits ds1 = true -> all_digits ds2 = true ->
  digits_value (ds1 ++ ds2)
  = (digits_value ds1 * 10 ^ Z.of_nat (String.length ds2) + digits_value ds2)%Z.
Proof.
  intros H1 H2.
  destruct (uint_of_digits ds1 H1) as (u1 & Hu1).
  destruct (uint_of_digits ds2 H2) as (u2 & Hu2).
  unfold digits_value.
  rewrite (uint_of_string_app ds1 ds2 u2 Hu2 u1 Hu1), Hu1, Hu2.
  unfold Z.of_uint. rewrite of_uint_app, (usize_of_string ds2 u2 Hu2).
  rewrite N2Z.inj_add, N2Z.inj_mul, N2Z.inj_pow. now rewrite nat_N_Z.
Qed.

(** ** Numeric normalisation, case by case *)

Lemma replace_app (old new : ascii) (a b : string) :
  replace old new (a ++ b) = replace old new a ++ replace old new b.
Proof. induction a as [|c a IH]; cbn; [reflexivity | now rewrite IH]. Qed.

Lemma replace_digits (ds : string) :
  all_digits ds = true -> replace "." "_" ds = ds.
Proof.
  induction ds as [|c r IH]; [reflexivity |]. cbn [all_digits replace].
  intros H. apply andb_true_iff in H as [Hc Hr]. rewrite (IH Hr).
  destruct (Ascii.eqb_spec c "."); [subst; discriminate | reflexivity].
Qed.

Lemma int_digits (ds : string) :
  all_digits ds = true -> ds <> "" -> int ds = Ok (digits_value ds).
Proof.
  intros Hds Hne. destruct ds as [|c r]; [contradiction |].
  pose proof Hds as Hall. cbn [all_digits] in Hds.
  apply andb_true_iff in Hds as [Hc Hr].
  rewrite (int_digit_start _ c r); [| | exact Hc].
  - unfold int_unsigned. rewrite strip_underscores_start by exact Hc.
    rewrite <- (append_nil_r r) at 1. rewrite strip_underscores_digits by exact Hr.
    cbn [strip_underscores option_map]. rewrite append_nil_r.
    destruct (uint_of_digits _ Hall) as (u & Hu).
    rewrite Hu. cbn [option_map]. now rewrite (int_unsigned_digits _ u Hu).
  - rewrite int_lstrip_digit_start by exact Hc.
    now apply int_rstrip_digits.
Qed.

Lemma all_digits_app (a b : string) :
  all_digits (a ++ b) = all_digits a && all_digits b.
Proof. induction a as [|c a IH]; cbn; [reflexivity | now rewrite IH, andb_assoc]. Qed.

(** [int] on digits, one character, digits. *)
Lemma int_separated (ds : string) (c : ascii) (ds2 : string) :
  all_digits ds = true -> ds <> "" -> isdigit c = false -> all_digits ds2 = true ->
  Ascii.eqb c "." = false ->
  int (ds ++ String c ds2)
  = if Ascii.eqb c "_"
    then (if ds2 =? "" then Raise ValueError else Ok (digits_value (ds ++ ds2)))
    else if int_space c && (ds2 =? "") then Ok (digits_value ds)
    else Raise ValueError.
Proof.
  intros Hds Hne Hc Hds2 Hdot.
  destruct (int_space c && (ds2 =? ""))%bool eqn:Hsp.
  - apply andb_true_iff in Hsp as [Hspace Hempty]. apply String.eqb_eq in Hempty.
    subst ds2.
    assert (Hus : Ascii.eqb c "_" = false)
      by (destruct (Ascii.eqb_spec c "_"); [subst; discriminate | reflexivity]).
    rewrite Hus. rewrite <- (int_digits ds Hds Hne). unfold int.
    assert (Hstrip : int_rstrip (int_lstrip (ds ++ String c ""))
                     = int_rstrip (int_lstrip ds)).
    { destruct ds as [|d r]; [contradiction |].
      cbn [all_digits] in Hds. apply andb_true_iff in Hds as [Hd _].
      change (String d r ++ String c "") with (String d (r ++ String c "")).
      rewrite !int_lstrip_digit_start by exact Hd.
      change (String d (r ++ String c "")) with (String d r ++ String c "").
      now apply int_rstrip_app_space. }
    now rewrite Hstrip.
  - destruct ds as [|d r]; [contradiction |].
    pose proof Hds as Hall. cbn [all_digits] in Hds.
    apply andb_true_iff in Hds as [Hd Hr].
    assert (Hb : int_rstrip (String c ds2) = String c ds2).
    { cbn [int_rstrip]. rewrite (int_rstrip_digits ds2 Hds2).
      destruct (int_space c); [| reflexivity]. cbn in Hsp |- *. now rewrite Hsp. }
    rewrite (int_digit_start _ d (r ++ String c ds2)); [| | exact Hd].
    2:{ change (String d r ++ String c ds2)
          with (String d (r ++ String c ds2)).
        rewrite int_lstrip_digit_start by exact Hd.
        change (String d (r ++ String c ds2)) with (String d r ++ String c ds2).
        apply int_rstrip_app; [exact Hb | discriminate]. }
    unfold int_unsigned. rewrite strip_underscores_start by exact Hd.
    rewrite strip_underscores_digits by exact Hr.
    cbn [strip_underscores]. rewrite Hc. cbn [andb].
    destruct (Ascii.eqb c "_") eqn:Hus; [| reflexivity].
    destruct ds2 as [|d2 r2]; [reflexivity |].
    cbn [all_digits] in Hds2. apply andb_true_iff in Hds2 as [Hd2 Hr2].
    rewrite strip_underscores_start by exact Hd2.
    rewrite <- (append_nil_r r2) at 1. rewrite strip_underscores_digits by exact Hr2.
    cbn [strip_underscores option_map String.eqb]. rewrite append_nil_r.
    assert (Hall2 : all_digits (String d r ++ String d2 r2) = true).
    { rewrite all_digits_app, Hall. cbn. now rewrite Hd2, Hr2. }
    destruct (uint_of_digits _ Hall2) as (u & Hu).
    cbn [andb option_map].
    change (String d (r ++ String d2 r2)) with (String d r ++ String d2 r2).
    rewrite Hu. cbn [option_map]. now rewrite (int_unsigned_digits _ u Hu).
Qed.

Lemma convert_separated (pre ds : string) (c : ascii) (ds2 rest : string) :
  has_digit pre = false -> all_digits ds = true -> ds <> "" ->
  isdigit c = false -> Ascii.eqb c LF = false ->
  all_digits ds2 = true -> starts_with_digit rest = false ->
  convert_str_to_int (pre ++ ds ++ String c (ds2 ++ rest))
  = if accepted c ds2 then Ok (digits_value (ds ++ ds2)) else Raise ValueError.
Proof.
  intros Hpre Hds Hne Hc Hlf Hds2 Hrest. unfold convert_str_to_int.
  rewrite search_number by assumption.
  cbn [separator_length]. rewrite Hlf.
  rewrite run_length_all_digits by assumption. cbn [Nat.add substring].
  rewrite substring_append.
  rewrite replace_app, (replace_digits ds Hds). cbn [replace].
  rewrite (replace_digits ds2 Hds2).
  unfold accepted, grouping.
  destruct (Ascii.eqb_spec c ".") as [-> | Hdot].
  - rewrite int_separated by (assumption || reflexivity). cbn [Ascii.eqb orb].
    change (Ascii.eqb "_" "_") with true. cbv iota.
    now destruct (ds2 =? "").
  - rewrite int_separated; try assumption; [| now apply Ascii.eqb_neq].
    cbn [orb]. destruct (Ascii.eqb c "_"); [now destruct (ds2 =? "") |].
    destruct (int_space c && (ds2 =? ""))%bool eqn:Hsp; [| reflexivity].
    apply andb_true_iff in Hsp as [_ Hempty]. apply String.eqb_eq in Hempty.
    subst ds2. now rewrite append_nil_r.
Qed.

Lemma refused_not_accepted (c : ascii) (ds2 : string) :
  refused c ds2 = true -> accepted c ds2 = false.
Proof.
  unfold accepted, refused. destruct (grouping c).
  - now destruct (ds2 =? "").
  - destruct (int_space c) eqn:Hc; [| reflexivity].
    rewrite (int_space_isspace c Hc). now destruct (ds2 =? "").
Qed.

(** X2. When the first digit run of the text is closed by the end of the
    text or by a line feed, the text is normalised to the value of that
    run, whatever stands before it and after the line feed.  The run is
    taken within the interpreter's default bound on the digits of a
    literal, which [int] as modelled here does not have. *)
Theorem convert_str_to_int_plain (pre ds tail : string) :
  has_digit pre = false -> all_digits ds = true -> ds <> "" ->
  String.length ds <= int_max_str_digits ->
  tail = "" \/ (exists r, tail = String LF r) ->
  convert_str_to_int (pre ++ ds ++ tail) = Ok (digits_value ds).
Proof.
  intros Hpre Hds Hne _ Htail. unfold convert_str_to_int.
  assert (Hsep : starts_with_digit tail = false /\ separator_length tail = 0).
  { destruct Htail as [-> | (r & ->)]; split; reflexivity. }
  destruct Hsep as [Hstart Hlen].
  rewrite search_number by assumption. rewrite Hlen.
  assert (Hsub : substring 0 0 tail = "") by now destruct tail.
  rewrite Hsub, append_nil_r, (replace_digits ds Hds).
  now apply int_digits.
Qed.

Lemma convert_str_to_int_plain_witness :
  has_digit "Baujahr " = false /\ all_digits "2017" = true /\ "2017" <> "" /\
  String.length "2017" <= int_max_str_digits /\
  convert_str_to_int ("Baujahr " ++ "2017" ++ "") = Ok (digits_value "2017") /\
  digits_value "2017" = 2017%Z.
Proof.
  assert (Hbound : String.length "2017" <= int_max_str_digits)
    by (apply Nat.leb_le; reflexivity).
  split; [reflexivity |]. split; [reflexivity |]. split; [discriminate |].
  split; [exact Hbound |]. split; [| reflexivity].
  apply (convert_str_to_int_plain "Baujahr " "2017" "");
    [reflexivity | reflexivity | discriminate | exact Hbound | now left].
Defined.

(** X3. When the first digit run [ds] is followed by a character other than
    a line feed and by the digits [ds2] (as many as there are), and the
    character is a grouping dot or underscore before at least one digit, or
    whitespace that [int] skips before none, the text is normalised to the
    number written by [ds] and [ds2] together: the value of [ds] shifted by
    the length of [ds2], plus the value of [ds2].  The digits are taken
    within the interpreter's default bound, as in X2. *)
Theorem convert_str_to_int_accepted (pre ds : string) (c : ascii) (ds2 rest : string) :
  has_digit pre = false -> all_digits ds = true -> ds <> "" ->
  isdigit c = false -> Ascii.eqb c LF = false ->
  all_digits ds2 = true -> starts_with_digit rest = false ->
  String.length ds + String.length ds2 <= int_max_str_digits ->
  accepted c ds2 = true ->
  convert_str_to_int (pre ++ ds ++ String c (ds2 ++ rest))
  = Ok (digits_value ds * 10 ^ Z.of_nat (String.length ds2) + digits_value ds2)%Z.
Proof.
  intros Hpre Hds Hne Hc Hlf Hds2 Hrest _ Hacc.
  rewrite convert_separated by assumption. rewrite Hacc.
  now rewrite digits_value_app.
Qed.

Lemma convert_str_to_int_accepted_witness :
  has_digit "km: " = false /\ all_digits "12" = true /\ "12" <> "" /\
  isdigit "." = false /\ Ascii.eqb "." LF = false /\
  all_digits "345" = true /\ starts_with_digit " km" = false /\
  String.length "12" + String.length "345" <= int_max_str_digits /\
  accepted "." "345" = true /\
  convert_str_to_int ("km: " ++ "12" ++ String "." ("345" ++ " km"))
  = Ok (digits_value "12" * 10 ^ Z.of_nat (String.length "345") + digits_value "345")%Z /\
  (digits_value "12" * 10 ^ Z.of_nat (String.length "345") + digits_value "345"
   = 12345)%Z.
Proof.
  assert (Hbound : String.length "12" + String.length "345" <= int_max_str_digits)
    by (apply Nat.leb_le; reflexivity).
  split; [reflexivity |]. split; [reflexivity |]. split; [discriminate |].
  do 4 (split; [reflexivity |]). split; [exact Hbound |].
  split; [reflexivity |]. split; [| reflexivity].
  apply (convert_str_to_int_accepted "km: " "12" "." "345" " km");
    try exact Hbound; reflexivity || discriminate.
Defined.

(** X4. In the same situation the call raises [ValueError] when the
    character after the first digit run is a dot or underscore before no
    digit, whitespace before more digits, or neither of the two (a letter,
    a comma). *)
Theorem convert_str_to_int_refused (pre ds : string) (c : ascii) (ds2 rest : string) :
  has_digit pre = false -> all_digits ds = true -> ds <> "" ->
  isdigit c = false -> Ascii.eqb c LF = false ->
  all_digits ds2 = true -> starts_with_digit rest = false ->
  refused c ds2 = true ->
  convert_str_to_int (pre ++ ds ++ String c (ds2 ++ rest)) = Raise ValueError.
Proof.
  intros Hpre Hds Hne Hc Hlf Hds2 Hrest Href.
  rewrite convert_separated by assumption.
  now rewrite (refused_not_accepted c ds2 Href).
Qed.

Lemma convert_str_to_int_refused_witness :
  has_digit "" = false /\ all_digits "12" = true /\ "12" <> "" /\
  isdigit "," = false /\ Ascii.eqb "," LF = false /\
  all_digits "5" = true /\ starts_with_digit " t" = false /\
  refused "," "5" = true /\
  convert_str_to_int ("" ++ "12" ++ String "," ("5" ++ " t")) = Raise ValueError.
Proof.
  split; [reflexivity |]. split; [reflexivity |]. split; [discriminate |].
  do 5 (split; [reflexivity |]).
  apply (convert_str_to_int_refused "" "12" "," "5" " t"); reflexivity || discriminate.
Defined.

(** ** The result is never negative *)

Lemma backtrack_some (f : nat -> option nat) (lo : nat) :
  forall k n, lo <= k -> backtrack f lo k = Some n ->
  exists j, lo <= j /\ f j = Some n.
Proof.
  induction k as [|k IH]; intros n Hlo Hb; cbn [backtrack] in Hb.
  - destruct (f 0) eqn:E; [| discriminate]. exists 0. split; [lia | congruence].
  - destruct (f (S k)) eqn:E.
    + exists (S k). split; [lia | congruence].
    + destruct (Nat.leb_spec lo k); [| discriminate]. now apply IH.
Qed.

Lemma match_number_start (s : string) (n : nat) :
  match_here NUMBER_RE s = Some n ->
  exists c r m, s = String c r /\ isdigit c = true /\ n = S m.
Proof.
  unfold NUMBER_RE. rewrite match_here_cons. cbn [cls lo hi].
  destruct (Nat.ltb_spec (run_length Digit None 0 s) 1) as [| Hrun]; [discriminate |].
  intros Hb. apply backtrack_some in Hb as (j & Hj & Hf); [| exact Hrun].
  destruct s as [|c r]; [cbn in Hrun; lia |].
  cbn [run_length within andb class_matches] in Hrun.
  destruct (isdigit c) eqn:Hc; [| lia].
  destruct (match_here _ (drop j (String c r))) as [m|]; [| discriminate].
  cbn in Hf. injection Hf as <-. destruct j as [|j]; [lia |].
  now exists c, r, (j + m).
Qed.

Lemma search_number_start (text m : string) :
  search NUMBER_RE text = Some m ->
  exists c r, m = String c r /\ isdigit c = true.
Proof.
  induction text as [|x text IH]; cbn [search].
  - destruct (match_here NUMBER_RE "") eqn:E; [| discriminate].
    apply match_number_start in E as (c & r & k & E & _). discriminate.
  - destruct (match_here NUMBER_RE (String x text)) eqn:E; [| exact IH].
    apply match_number_start in E as (c & r & k & E & Hc & ->).
    injection E as -> ->. intros [= <-]. cbn [substring]. eauto.
Qed.

Lemma convert_result_nonnegative (text : string) (n : Z) :
  convert_str_to_int text = Ok n -> (0 <= n)%Z.
Proof.
  unfold convert_str_to_int.
  destruct (search NUMBER_RE text) as [m|] eqn:Hsearch; [| intros [= <-]; lia].
  apply search_number_start in Hsearch as (c & r & -> & Hc).
  assert (Hrep : replace "." "_" (String c r) = String c (replace "." "_" r)).
  { cbn [replace]. destruct (Ascii.eqb_spec c "."); [subst; discriminate | reflexivity]. }
  rewrite Hrep.
  assert (Hstrip : int_rstrip (int_lstrip (String c (replace "." "_" r)))
                   = String c (int_rstrip (replace "." "_" r))).
  { rewrite int_lstrip_digit_start by exact Hc. cbn [int_rstrip].
    now rewrite (isdigit_not_int_space c Hc). }
  rewrite (int_digit_start _ c _ Hstrip Hc). unfold int_unsigned.
  destruct (strip_underscores false _) as [ds|]; [| discriminate].
  destruct (NilEmpty.uint_of_string ds) as [u|]; [| discriminate].
  cbn [option_map]. intros [= <-]. unfold Z.of_uint. apply N2Z.is_nonneg.
Qed.

(** X5. Whatever the text, a number that numeric normalisation returns is
    not negative: the match starts at a digit, so [int] never sees a sign. *)
Theorem convert_str_to_int_nonnegative (text : string) (n : Z) :
  convert_str_to_int text = Ok n -> (0 <= n)%Z.
Proof. apply convert_result_nonnegative. Qed.

Lemma convert_str_to_int_nonnegative_witness :
  convert_str_to_int "ab -12.345 km" = Ok 12345%Z /\ (0 <= 12345)%Z.
Proof.
  split; [reflexivity |].
  apply (convert_str_to_int_nonnegative "ab -12.345 km" 12345 eq_refl).
Defined.

(** ** Extracted texts are trimmed *)

Section Extraction.

Context {Tag : Type} `{Soup Tag}.

(** X6. The text taken from a node has no whitespace at either end (and is
    empty for an absent node): trimming it again, on the left or on the
    right, changes nothing. *)
Theorem get_tag_data_trimmed (tag : option Tag) :
  lstrip (get_tag_data tag) = get_tag_data tag /\
  rstrip (get_tag_data tag) = get_tag_data tag.
Proof.
  destruct tag as [t|]; cbn [get_tag_data]; [| now split].
  split; [apply lstrip_strip | apply rstrip_strip].
Qed.

Lemma get_tag_data_strip (tag : option Tag) :
  strip (get_tag_data tag) = get_tag_data tag.
Proof. destruct tag; cbn [get_tag_data]; [apply strip_idempotent | reflexivity]. Qed.

Lemma get_div_param_strip (tags : list Tag) (param_name param_class value_class : string) :
  strip (get_div_param tags param_name param_class value_class)
  = get_div_param tags param_name param_class value_class.
Proof.
  induction tags as [|tag rest IH]; [reflexivity |].
  rewrite get_div_param_cons.
  destruct (div_text param_class tag =? param_name); [| exact IH].
  apply get_tag_data_strip.
Qed.

(** X7. The value a lookup returns, for any candidates and any label, has no
    whitespace at either end. *)
Theorem get_div_param_trimmed (tags : list Tag) (param_name param_class value_class : string) :
  lstrip (get_div_param tags param_name param_class value_class)
  = get_div_param tags param_name param_class value_class /\
  rstrip (get_div_param tags param_name param_class value_class)
  = get_div_param tags param_name param_class value_class.
Proof.
  rewrite <- (get_div_param_strip tags param_name param_class value_class).
  split; [apply lstrip_strip | apply rstrip_strip].
Qed.

(** X8. Every record extraction returns is a dictionary with the eight keys
    id, href, title, price, mileage, color, power, description in this
    order; its id is the current page number, its href the address given,
    its three numbers are not negative, and its title and color are
    trimmed. *)
Theorem get_page_config_record (st : state) (page : option Tag) (url : string)
  (config : value) :
  get_page_config st page url = Ok config ->
  exists title price mileage color power description,
    config = record (page_no st) url title price mileage color power description /\
    (0 <= price)%Z /\ (0 <= mileage)%Z /\ (0 <= power)%Z /\
    strip title = title /\ strip color = color.
Proof.
  unfold get_page_config. destruct page as [doc|]; [| discriminate].
  cbn [deref bind_result].
  destruct (find doc "div" [("class", "data-basic")]) as [basic|]; [| discriminate].
  cbn [deref bind_result].
  destruct (find doc "div" [("class", "sc-expandable-box__content sc-grid-row")])
    as [spec|]; [| discriminate].
  cbn [deref bind_result].
  match goal with
  | |- context [bind_result (convert_str_to_int ?t) _] =>
      destruct (convert_str_to_int t) as [price|] eqn:Hprice; [| discriminate]
  end.
  cbn [bind_result].
  match goal with
  | |- context [bind_result (convert_str_to_int ?t) _] =>
      destruct (convert_str_to_int t) as [mileage|] eqn:Hmileage; [| discriminate]
  end.
  cbn [bind_result].
  match goal with
  | |- context [bind_result (convert_str_to_int ?t) _] =>
      destruct (convert_str_to_int t) as [power|] eqn:Hpower; [| discriminate]
  end.
  cbn [bind_result].
  intros E. injection E as E. subst config. eexists _, price, mileage, _, power, _.
  split; [reflexivity |].
  apply convert_result_nonnegative in Hprice, Hmileage, Hpower.
  repeat split; try assumption;
    [apply get_tag_data_strip | apply get_div_param_strip].
Qed.

(** X9. On a page that has the basic-data block and the specification list,
    a missing heading, price, description box and missing "Kilometer",
    "Farbe" and "Leistung" entries give the defaults: empty texts and
    zeros. *)
Theorem get_page_config_absent_nodes (st : state) (doc basic spec : Tag) (url : string) :
  find doc "div" [("class", "data-basic")] = Some basic ->
  find doc "div" [("class", "sc-expandable-box__content sc-grid-row")] = Some spec ->
  find doc "h1" [("class", "sc-ellipsis sc-font-xl")] = None ->
  find doc "h2" [("class", "sc-highlighter-4 sc-highlighter-xl sc-font-bold")] = None ->
  Forall (fun t => div_text "itemlbl" t <> "Kilometer")
         (find_all basic "div" [("class", "itemspace")]) ->
  Forall (fun t => div_text "sc-font-bold" t <> "Farbe" /\
                   div_text "sc-font-bold" t <> "Leistung")
         (find_all spec "li" []) ->
  find doc "div" [("class", "sc-expandable-box");
                  ("data-target", "[data-item-name='description']")] = None ->
  get_page_config st (Some doc) url = Ok (record (page_no st) url "" 0 0 "" 0 "").
Proof.
  intros Hbasic Hspec Htitle Hprice Hkm Hfields Hdesc.
  unfold get_page_config. cbn [deref bind_result].
  rewrite Hbasic, Hspec, Htitle, Hprice, Hdesc. cbn [deref bind_result get_tag_data].
  rewrite (get_div_param_no_match "Kilometer" "itemlbl" "itemval" _ Hkm).
  rewrite (get_div_param_no_match "Farbe" "sc-font-bold" "" (find_all spec "li" []))
    by (eapply Forall_impl; [| exact Hfields]; now intros t [Hf _]).
  rewrite (get_div_param_no_match "Leistung" "sc-font-bold" "" (find_all spec "li" []))
    by (eapply Forall_impl; [| exact Hfields]; now intros t [_ Hl]).
  reflexivity.
Qed.

End Extraction.

Lemma get_page_config_record_witness :
  @get_page_config _ (Dom.soup []) (init "data")
    (Some (Dom.detail_page Dom.three_images)) "https://www.truckscout24.de/x"
  = Ok (record 1 "https://www.truckscout24.de/x" "Renault Master" 12500 150000
               Dom.weiss 120
               ("Gepflegt" ++ nl ++ nl ++ "erste Zeile" ++ nl ++ "zweite Zeile")) /\
  exists title price mileage color power description,
    record 1 "https://www.truckscout24.de/x" "Renault Master" 12500 150000
           Dom.weiss 120
           ("Gepflegt" ++ nl ++ nl ++ "erste Zeile" ++ nl ++ "zweite Zeile")
    = record 1 "https://www.truckscout24.de/x" title price mileage color power
             description /\
    (0 <= price)%Z /\ (0 <= mileage)%Z /\ (0 <= power)%Z /\
    strip title = title /\ strip color = color.
Proof.
  split; [reflexivity |].
  apply (@get_page_config_record _ (Dom.soup []) (init "data")
           (Some (Dom.detail_page Dom.three_images)) "https://www.truckscout24.de/x"
           _ eq_refl).
Defined.

Lemma get_page_config_absent_nodes_witness :
  @get_page_config _ (Dom.soup []) (init "data") (Some Dom.blocks_only_page)
    "https://www.truckscout24.de/x"
  = Ok (record 1 "https://www.truckscout24.de/x" "" 0 0 "" 0 "").
Proof.
  apply (@get_page_config_absent_nodes _ (Dom.soup []) (init "data")
           Dom.blocks_only_page (Dom.div "data-basic" [])
           (Dom.div "sc-expandable-box__content sc-grid-row" []));
    try reflexivity; constructor.
Defined.

(** ** The extension of an image *)

Lemma split_fields_without_sep (sep : ascii) (s : string) :
  Forall (fun x => contains sep x = false) (split sep s).
Proof.
  induction s as [|c r IH]; cbn [split]; [repeat constructor |].
  destruct (Ascii.eqb c sep) eqn:Hc; [now constructor |].
  destruct (split sep r) as [|l ls]; [repeat constructor; cbn; now rewrite Hc |].
  inversion IH as [|? ? Hl Hls]; subst. constructor; [| exact Hls].
  cbn. now rewrite Hc, Hl.
Qed.

(** X11. The extension given to a saved image never holds a dot, whatever
    the URL. *)
Theorem image_extension_has_no_dot (url : string) :
  contains "." (image_extension url) = false.
Proof.
  unfold image_extension.
  pose proof (split_fields_without_sep "." url) as Hall.
  pose proof (split_nonempty "." url) as Hne.
  induction (split "." url) as [|x l IH]; [contradiction |].
  inversion Hall as [|? ? Hx Hl]; subst.
  destruct l as [|y l]; [exact Hx |]. apply IH; [exact Hl | discriminate].
Qed.

(** ** Downloads that go through, and downloads that stop *)

Section MoreDownloads.

Context {Tag : Type} `{Soup Tag}.
Variable net : network.

Lemma fetch_loop_outcome (st0 : state) (images : list (option string)) (m : nat) :
  (forall t url, download_ok net t url = true) ->
  forall (k : nat) (s : state) (urls : list string),
    k + m <= List.length images ->
    (firstn m (skipn k images) = map Some urls ->
     for_each (map Z.of_nat (seq k m)) (fetch net st0 images) s
     = (Ok tt, after_downloads st0 s k urls)) /\
    (forall rest,
     firstn m (skipn k images) = (map Some urls ++ None :: rest)%list ->
     for_each (map Z.of_nat (seq k m)) (fetch net st0 images) s
     = (Raise AttributeError, after_downloads st0 s k urls)).
Proof.
  intros Hok. induction m as [|m IH]; intros k s urls Hk.
  - cbn [firstn seq map for_each]. split.
    + destruct urls; [| discriminate]. intros _. unfold after_downloads, ret. cbn.
      rewrite app_nil_r. now destruct s.
    + intros rest Hrest. destruct urls; discriminate.
  - destruct (nth_error images k) as [src|] eqn:Hnth.
    2:{ apply nth_error_None in Hnth. lia. }
    rewrite (firstn_skipn_nth _ _ _ _ Hnth).
    cbn [seq map]. rewrite for_each_cons, fetch_step, Hnth.
    assert (Hstep : forall url rest',
      after_downloads st0 (log (Retrieve url (image_filename st0 (Z.of_nat k) url)) s)
                      (S k) rest'
      = after_downloads st0 s k (url :: rest')).
    { intros url rest'. unfold after_downloads. cbn. now rewrite <- app_assoc. }
    split.
    + intros Hfirst. destruct urls as [|url urls]; [discriminate |].
      cbn [map] in Hfirst. injection Hfirst as -> Hfirst. rewrite Hok.
      destruct (IH (S k) (log (Retrieve url (image_filename st0 (Z.of_nat k) url)) s) urls)
        as [IHok _]; [lia |].
      rewrite (IHok Hfirst). now rewrite Hstep.
    + intros rest Hfirst. destruct urls as [|url urls].
      * cbn [map List.app] in Hfirst. injection Hfirst as -> _.
        unfold after_downloads. cbn. rewrite app_nil_r. now destruct s.
      * cbn [map List.app] in Hfirst. injection Hfirst as -> Hfirst. rewrite Hok.
        destruct (IH (S k) (log (Retrieve url (image_filename st0 (Z.of_nat k) url)) s) urls)
          as [_ IHmiss]; [lia |].
        rewrite (IHmiss rest Hfirst). now rewrite Hstep.
Qed.

(** X13. When no download fails and each of the leading pictures (up to the
    cap) has a source, the call returns, after creating the directory and
    downloading exactly these sources in order. *)
Theorem download_images_all (doc : Tag) (cap : Z) (st : state) (urls : list string) :
  (forall t url, download_ok net t url = true) ->
  let tags := find_all doc "img" gallery_image in
  let n := Z.to_nat (Z.min cap (Z.of_nat (List.length tags))) in
  map (fun img => get img "data-src") (firstn n tags) = map Some urls ->
  download_images net (Some doc) cap st
  = (Ok tt,
     State (path_to_dir st) (ads st) (page_no st)
           (trace st ++ Mkdir (listing_dir st) :: retrievals st 0 urls)%list).
Proof.
  cbv zeta. intros Hok Hsrc. rewrite download_images_unfold. cbv zeta.
  destruct (gallery_plan (find_all doc "img" gallery_image) cap) as (Hrange & Hlen & Hfirst).
  rewrite Hrange.
  destruct (fetch_loop_outcome st _ _ Hok 0 (log (Mkdir (listing_dir st)) st) urls Hlen)
    as [Hall _].
  cbn [skipn] in Hall. rewrite Hfirst in Hall. rewrite (Hall Hsrc).
  unfold after_downloads. cbn. now rewrite <- app_assoc.
Qed.

(** X14. When no download fails and one of the leading pictures has no
    source, the call raises [AttributeError] at that picture: the directory
    and the pictures before it are on disk, the pictures after it are not
    requested. *)
Theorem download_images_missing_source (doc : Tag) (cap : Z) (st : state)
  (urls : list string) (rest : list (option string)) :
  (forall t url, download_ok net t url = true) ->
  let tags := find_all doc "img" gallery_image in
  let n := Z.to_nat (Z.min cap (Z.of_nat (List.length tags))) in
  map (fun img => get img "data-src") (firstn n tags) = (map Some urls ++ None :: rest)%list ->
  download_images net (Some doc) cap st
  = (Raise AttributeError,
     State (path_to_dir st) (ads st) (page_no st)
           (trace st ++ Mkdir (listing_dir st) :: retrievals st 0 urls)%list).
Proof.
  cbv zeta. intros Hok Hsrc. rewrite download_images_unfold. cbv zeta.
  destruct (gallery_plan (find_all doc "img" gallery_image) cap) as (Hrange & Hlen & Hfirst).
  rewrite Hrange.
  destruct (fetch_loop_outcome st _ _ Hok 0 (log (Mkdir (listing_dir st)) st) urls Hlen)
    as [_ Hmiss].
  cbn [skipn] in Hmiss. rewrite Hfirst in Hmiss. rewrite (Hmiss rest Hsrc).
  unfold after_downloads. cbn. now rewrite <- app_assoc.
Qed.

(** X15. With a cap of zero or less the call creates the directory,
    downloads nothing and returns. *)
Theorem download_images_without_cap (doc : Tag) (cap : Z) (st : state) :
  (cap <= 0)%Z ->
  download_images net (Some doc) cap st = (Ok tt, log (Mkdir (listing_dir st)) st).
Proof.
  intros Hcap. rewrite download_images_unfold. cbv zeta.
  destruct (gallery_plan (find_all doc "img" gallery_image) cap) as (Hrange & _ & _).
  rewrite Hrange. replace (Z.to_nat (Z.min cap _)) with 0 by lia. reflexivity.
Qed.

End MoreDownloads.

Lemma download_images_all_witness :
  (forall t url, download_ok Dom.sample_net t url = true) /\
  @download_images _ (Dom.soup []) Dom.sample_net
    (Some (Dom.detail_page Dom.three_images)) 3 (init "data")
  = (Ok tt,
     State "data" [] 1
       [Mkdir "data"; Mkdir "data/1";
        Retrieve "https://img.example.com/a/1.jpg" "data/1/image_1.jpg";
        Retrieve "https://img.example.com/a/2.png" "data/1/image_2.png";
        Retrieve "https://img.example.com/a/3.jpg" "data/1/image_3.jpg"]).
Proof.
  split; [reflexivity |].
  apply (@download_images_all _ (Dom.soup []) Dom.sample_net
           (Dom.detail_page Dom.three_images) 3 (init "data")
           ["https://img.example.com/a/1.jpg"; "https://img.example.com/a/2.png";
            "https://img.example.com/a/3.jpg"]);
    reflexivity.
Defined.

Lemma download_images_missing_source_witness :
  (forall t url, download_ok Dom.sample_net t url = true) /\
  @download_images _ (Dom.soup []) Dom.sample_net
    (Some (Dom.gallery_page [Dom.gallery_img "https://img.example.com/a/1.jpg";
                             Dom.img_without_source;
                             Dom.gallery_img "https://img.example.com/a/3.jpg"]))
    3 (init "data")
  = (Raise AttributeError,
     State "data" [] 1
       [Mkdir "data"; Mkdir "data/1";
        Retrieve "https://img.example.com/a/1.jpg" "data/1/image_1.jpg"]).
Proof.
  split; [reflexivity |].
  apply (@download_images_missing_source _ (Dom.soup []) Dom.sample_net
           (Dom.gallery_page [Dom.gallery_img "https://img.example.com/a/1.jpg";
                              Dom.img_without_source;
                              Dom.gallery_img "https://img.example.com/a/3.jpg"])
           3 (init "data") ["https://img.example.com/a/1.jpg"]
           [Some "https://img.example.com/a/3.jpg"]);
    reflexivity.
Defined.

Lemma download_images_without_cap_witness :
  (0 <= 0)%Z /\
  @download_images _ (Dom.soup []) Dom.sample_net
    (Some (Dom.detail_page Dom.three_images)) 0 (init "data")
  = (Ok tt, State "data" [] 1 [Mkdir "data"; Mkdir "data/1"]).
Proof.
  split; [lia |].
  apply (@download_images_without_cap _ (Dom.soup []) Dom.sample_net
           (Dom.detail_page Dom.three_images) 0 (init "data")). lia.
Defined.

(** ** Runs that stop on a fault *)

Section Faults.

Context {Tag : Type} `{Soup Tag}.
Variable net : network.

(** X16. A pass whose catalog request fails raises the client's exception;
    a pass whose catalog response has another status than 200, or whose
    listing link has no [href], raises [AttributeError].  In each case the
    request of the catalog page is the only effect of the pass. *)
Theorem loop_body_catalog_fault (st : state) (e : exn) :
  let url := catalog_url (page_no st) in
  (http_get net (List.length (trace st)) url = None /\ e = RequestException) \/
  (exists response,
     http_get net (List.length (trace st)) url = Some response /\
     e = AttributeError /\
     (status_code response <> 200%Z \/
      exists link,
        status_code response = 200%Z /\
        find (BeautifulSoup (text response)) "a" detail_link = Some link /\
        get link "href" = None)) ->
  loop_body net st = (Raise e, log (Get url) st).
Proof.
  cbv zeta. rewrite loop_body_unfold. cbv zeta.
  intros [[Hget ->] | (response & Hget & -> & [Hstatus | (link & Hstatus & Hlink & Hhref)])];
    rewrite Hget.
  - reflexivity.
  - now apply Z.eqb_neq in Hstatus as ->.
  - now rewrite Hstatus, Hlink, Hhref.
Qed.

(** X17. A pass whose detail page cannot be fetched, or comes with another
    status than 200, raises (the client's exception, or [AttributeError]
    from the extraction on the absent page) after its two requests: no
    record is appended and no directory is created for the listing. *)
Theorem loop_body_detail_page_fault (st : state) (response : response) (link : Tag)
  (href : string) (e : exn) :
  let st1 := log (Get (catalog_url (page_no st))) st in
  let url := WEBSITE_URL ++ strip href in
  http_get net (List.length (trace st)) (catalog_url (page_no st)) = Some response ->
  status_code response = 200%Z ->
  find (BeautifulSoup (text response)) "a" detail_link = Some link ->
  get link "href" = Some href ->
  (http_get net (List.length (trace st1)) url = None /\ e = RequestException) \/
  (exists detail,
     http_get net (List.length (trace st1)) url = Some detail /\
     status_code detail <> 200%Z /\ e = AttributeError) ->
  loop_body net st = (Raise e, log (Get url) st1).
Proof.
  cbv zeta. intros Hget Hstatus Hlink Hhref Hdetail.
  rewrite loop_body_unfold. cbv zeta. rewrite Hget, Hstatus, Hlink, Hhref.
  rewrite visit_unfold. cbv zeta.
  destruct Hdetail as [[-> ->] | (detail & -> & Hnot & ->)]; [reflexivity |].
  now apply Z.eqb_neq in Hnot as ->.
Qed.

Lemma while_true_raises (n : nat) :
  forall st0 st st' e fuel,
    after_passes net n st0 = Some st ->
    loop_body net st = (Raise e, st') ->
    n < fuel ->
    while_true fuel (loop_body net) st0 = (Raise e, st').
Proof.
  induction n as [|n IH]; intros st0 st st' e [|fuel] Hafter Hlast Hfuel; try lia;
    cbn [after_passes] in Hafter; rewrite while_true_step.
  - injection Hafter as <-. now rewrite Hlast.
  - destruct (loop_body net st0) as [[[|]|e0] st1]; try discriminate.
    apply (IH st1 st st' e fuel Hafter Hlast). lia.
Qed.

(** X18. A fault in a pass ends the run with that exception, whatever was
    collected in the passes before it: [data.json] is not written. *)
Theorem process_aborts_without_output (st0 st st' : state) (n fuel : nat) (e : exn) :
  after_passes net n st0 = Some st ->
  loop_body net st = (Raise e, st') ->
  n < fuel ->
  process net fuel st0 = (Raise e, st') /\
  exists evs, trace st' = (trace st0 ++ evs)%list /\ existsb is_write evs = false.
Proof.
  intros Hafter Hlast Hfuel. rewrite process_unfold.
  pose proof (while_true_raises n st0 st st' e fuel Hafter Hlast Hfuel) as Hrun.
  destruct (while_true_effects net fuel st0) as (evs & _ & Htrace & Hnw).
  rewrite Hrun in Htrace |- *. cbn [snd] in Htrace. split; [reflexivity |].
  now exists evs.
Qed.

(** X19. After [n] passes from a fresh object there are [n] records, the
    page counter is [n + 1], and the record at position [i] (from 0) has id
    [i + 1]. *)
Theorem after_passes_ids (path : string) (n : nat) (st : state) :
  after_passes net n (init path) = Some st ->
  List.length (ads st) = n /\
  page_no st = (Z.of_nat n + 1)%Z /\
  forall i config,
    nth_error (ads st) i = Some config ->
    field "id" config = Some (VInt (Z.of_nat i + 1)).
Proof.
  intros Hafter.
  destruct (after_passes_invariant net n (init path) st (init_invariant net path) Hafter)
    as [[Hpage Hrec] Hlen].
  cbn in Hlen. repeat split; [exact Hlen | lia |].
  intros i config Hi. now destruct (Hrec i config Hi).
Qed.

End Faults.

Lemma loop_body_catalog_fault_witness :
  loop_body (H := Dom.soup Dom.sample_pages) Dom.net_404 (init "data")
  = (Raise AttributeError, log (Get (catalog_url 1)) (init "data")).
Proof.
  apply (@loop_body_catalog_fault _ (Dom.soup Dom.sample_pages) Dom.net_404
           (init "data") AttributeError).
  right. exists (Response 404 "").
  split; [reflexivity |]. split; [reflexivity |]. left. discriminate.
Defined.

Lemma loop_body_detail_page_fault_witness :
  loop_body (H := Dom.soup Dom.sample_pages) Dom.net_listing_gone (init "data")
  = (Raise AttributeError,
     log (Get "https://www.truckscout24.de/fahrzeugdetails/renault-master")
         (log (Get (catalog_url 1)) (init "data"))).
Proof.
  apply (@loop_body_detail_page_fault _ (Dom.soup Dom.sample_pages) Dom.net_listing_gone
           (init "data") (Response 200 "catalog-1")
           (Dom.Element "a" [("data-item-name", "detail-page-link");
                             ("href", " /fahrzeugdetails/renault-master ")]
                        [Dom.Text "Renault"])
           " /fahrzeugdetails/renault-master " AttributeError);
    try reflexivity.
  right. exists (Response 404 "").
  split; [reflexivity |]. split; [discriminate | reflexivity].
Defined.

Lemma process_aborts_without_output_witness :
  after_passes (H := Dom.soup Dom.sample_pages) Dom.net_404 0 (init "data")
  = Some (init "data") /\
  (0 < 5)%nat /\
  process (H := Dom.soup Dom.sample_pages) Dom.net_404 5 (init "data")
  = (Raise AttributeError, log (Get (catalog_url 1)) (init "data")).
Proof.
  split; [reflexivity |]. split; [lia |].
  apply (@process_aborts_without_output _ (Dom.soup Dom.sample_pages) Dom.net_404
           (init "data") (init "data") _ 0 5 AttributeError eq_refl eq_refl).
  lia.
Defined.

Lemma after_passes_ids_witness :
  exists st1,
    after_passes (H := Dom.soup Dom.sample_pages) Dom.sample_net 1 (init "data")
    = Some st1 /\
    List.length (ads st1) = 1 /\ page_no st1 = 2%Z.
Proof.
  exists (snd (loop_body (H := Dom.soup Dom.sample_pages) Dom.sample_net (init "data"))).
  assert (Hafter : after_passes (H := Dom.soup Dom.sample_pages) Dom.sample_net 1
                     (init "data")
                   = Some (snd (loop_body (H := Dom.soup Dom.sample_pages)
                                  Dom.sample_net (init "data")))) by reflexivity.
  split; [exact Hafter |].
  destruct (@after_passes_ids _ (Dom.soup Dom.sample_pages) Dom.sample_net "data" 1 _ Hafter)
    as (Hlen & Hpage & _).
  split; [exact Hlen | exact Hpage].
Defined.

(** ** The lines of a description *)

Lemma splitlines_without_lf_upto (n : nat) :
  forall s, String.length s <= n ->
  Forall (fun l => contains LF l = false) (splitlines s).
Proof.
  induction n as [|n IH]; intros s Hlen.
  - destruct s; [constructor | cbn in Hlen; lia].
  - destruct s as [|c r]; [constructor |]. cbn [String.length] in Hlen.
    cbn [splitlines]. destruct (is_linebreak c) eqn:Hc.
    + constructor; [reflexivity |].
      destruct r as [|c' r']; [constructor |].
      destruct (Ascii.eqb c CR && Ascii.eqb c' LF)%bool;
        apply IH; cbn [String.length] in *; lia.
    + assert (Hlf : Ascii.eqb c LF = false).
      { destruct (Ascii.eqb_spec c LF); [subst; discriminate | reflexivity]. }
      pose proof (IH r ltac:(lia)) as Hr.
      destruct (splitlines r) as [|l ls];
        [constructor; [cbn [contains]; now rewrite Hlf | constructor] |].
      inversion Hr as [|? ? Hl Hls]; subst. constructor; [| exact Hls].
      cbn [contains]. now rewrite Hlf, Hl.
Qed.

Lemma splitlines_without_lf (s : string) :
  Forall (fun l => contains LF l = false) (splitlines s).
Proof. now apply (splitlines_without_lf_upto (String.length s)). Qed.

Lemma contains_lstrip (c : ascii) (s : string) :
  contains c s = false -> contains c (lstrip s) = false.
Proof.
  induction s as [|x s IH]; [reflexivity |]. cbn [contains lstrip].
  intros Hs. apply orb_false_iff in Hs as [Hx Hs'].
  destruct (isspace x); [now apply IH | cbn; now rewrite Hx, Hs'].
Qed.

Lemma contains_rstrip (c : ascii) (s : string) :
  contains c s = false -> contains c (rstrip s) = false.
Proof.
  induction s as [|x s IH]; [reflexivity |]. cbn [contains rstrip].
  intros Hs. apply orb_false_iff in Hs as [Hx Hs'].
  destruct (isspace x && (rstrip s =? ""))%bool; [reflexivity |].
  cbn. now rewrite Hx, IH.
Qed.

Lemma contains_strip (c : ascii) (s : string) :
  contains c s = false -> contains c (strip s) = false.
Proof. intros Hs. now apply contains_rstrip, contains_lstrip. Qed.

Lemma split_app_sep (sep : ascii) (a b : string) :
  contains sep a = false -> split sep (a ++ String sep b) = a :: split sep b.
Proof.
  induction a as [|x a IH]; cbn [String.append split contains].
  - intros _. now rewrite Ascii.eqb_refl.
  - intros Ha. apply orb_false_iff in Ha as [Hx Ha]. rewrite Hx, (IH Ha). reflexivity.
Qed.

(** [s.split("\n")] undoes ["\n".join(lines)] when no line holds a line
    feed. *)
Lemma split_join (lines : list string) :
  Forall (fun l => contains LF l = false) lines -> lines <> [] ->
  split LF (join nl lines) = lines.
Proof.
  induction 1 as [|x l Hx Hl IH]; intros Hne; [contradiction |].
  destruct l as [|y l].
  - cbn [join]. now apply split_without_sep.
  - change (join nl (x :: y :: l)) with (x ++ String LF (join nl (y :: l))).
    rewrite split_app_sep by exact Hx. rewrite IH; [reflexivity | discriminate].
Qed.

Section Description.

Context {Tag : Type} `{Soup Tag}.

(** X10. For a description box without a label, the description is the
    body's lines, each trimmed, joined by line feeds; splitting it at the
    line feeds gives these trimmed lines back. *)
Theorem get_description_body_lines (box body : Tag) :
  find box "label" [("class", "sc-expandable-box__label")] = None ->
  find box "div" [("class", "short-description"); ("data-type", "description")]
  = Some body ->
  let lines := map strip (splitlines (get_text body)) in
  get_description (Some box) = join nl lines /\
  Forall (fun l => strip l = l) lines /\
  (lines <> [] -> split LF (get_description (Some box)) = lines).
Proof.
  cbv zeta. intros Hlabel Hbody.
  assert (Hdesc : get_description (Some box)
                  = join nl (map strip (splitlines (get_text body)))).
  { unfold get_description. now rewrite Hlabel, Hbody. }
  split; [exact Hdesc |]. split.
  - rewrite Forall_map. apply Forall_forall. intros l _. apply strip_idempotent.
  - intros Hne. rewrite Hdesc. apply split_join; [| exact Hne].
    rewrite Forall_map. eapply Forall_impl; [| apply splitlines_without_lf].
    intros l Hl. now apply contains_strip.
Qed.

End Description.

Lemma get_description_body_lines_witness :
  @get_description _ (Dom.soup []) (Some Dom.box_without_label)
  = "erste Zeile" ++ nl ++ "zweite Zeile" /\
  split LF (@get_description _ (Dom.soup []) (Some Dom.box_without_label))
  = ["erste Zeile"; "zweite Zeile"].
Proof.
  destruct (@get_description_body_lines _ (Dom.soup []) Dom.box_without_label
              Dom.description_body eq_refl eq_refl) as (Hdesc & _ & Hsplit).
  split; [exact Hdesc | apply Hsplit; discriminate].
Defined.
